(** * FreeRCT sprite data: image loading, pixel queries and the blit primitive

    A shallow embedding of [src/sprite_data.cpp] and [src/sprite_data.h]:
    the header parser [ImageData::LoadSizes], the two decoders
    [ImageData8bpp::LoadData] and [ImageData32bpp::LoadData], the pixel
    queries [GetPixel], the tiling primitive [BlitPixel], the blend function
    [BlendPixels] and the entry point [LoadImage].

    Machine integers are carried in [Z] with their wrap-around written out.
    Reads from the decoded buffers go through [read], which faults outside
    the buffer, so that a theorem saying a function returns [Ok v] also says
    that it stayed inside its buffers.

    The later parts add the two blitters [BlitImages] of
    [src/sprite_data.cpp] and the calendar of [src/dates.cpp] with the
    notifications of [src/gamecontrol.cpp]. *)

From Stdlib Require Import ZArith List Lia Bool String Ascii.
From coqutil Require Import Z.bitblast.
Import ListNotations.

Local Open Scope Z_scope.

(** * Part I: the embedding *)

(** ** Machine integers *)

Module Ints.

Definition uint8 (x : Z) : Z := x mod 2 ^ 8.
Definition uint16 (x : Z) : Z := x mod 2 ^ 16.
Definition uint32 (x : Z) : Z := x mod 2 ^ 32.
Definition int16 (x : Z) : Z := (x + 2 ^ 15) mod 2 ^ 16 - 2 ^ 15.
Definition int32 (x : Z) : Z := (x + 2 ^ 31) mod 2 ^ 32 - 2 ^ 31.

End Ints.
Import Ints.

(** ** Results of code that reads buffers and loops *)

(** [Fault] is a read outside a buffer (undefined behaviour in the source);
    [OutOfFuel] is the model running out of loop iterations, which the
    theorems below exclude for the fuel each function is given. *)
Inductive outcome (A : Type) : Type :=
| Ok (a : A)
| Fault
| OutOfFuel.
Arguments Ok {A} a.
Arguments Fault {A}.
Arguments OutOfFuel {A}.

Definition bind {A B : Type} (m : outcome A) (k : A -> outcome B) : outcome B :=
  match m with
  | Ok a => k a
  | Fault => Fault
  | OutOfFuel => OutOfFuel
  end.

Notation "x <- m ;; k" := (bind m (fun x => k))
  (at level 61, m at next level, right associativity).
Notation "' p <- m ;; k" := (bind m (fun p => k))
  (at level 61, p pattern, m at next level, right associativity).

(** [buf[i]] for a buffer of bytes or of table entries. *)
Definition read (buf : list Z) (i : Z) : outcome Z :=
  if i <? 0 then Fault
  else match nth_error buf (Z.to_nat i) with
       | Some v => Ok v
       | None => Fault
       end.

(** ** Colours *)

Module Palette.

(** Modelled from the spec: [palette.h] is not among the sources.  The spec
    speaks of a 32-bit-per-pixel destination and of "composing the final
    RGBA value" from three colour channels and an opacity; the functions
    below pack four 8-bit channels into one 32-bit value, red first, and
    read them back.  Their arguments are [uint8] in the callers, hence the
    truncation of each channel. *)
Definition MakeRGBA (r g b a : Z) : Z :=
  Z.lor (Z.shiftl (uint8 r) 24)
    (Z.lor (Z.shiftl (uint8 g) 16) (Z.lor (Z.shiftl (uint8 b) 8) (uint8 a))).

Definition GetR (rgba : Z) : Z := uint8 (Z.shiftr rgba 24).
Definition GetG (rgba : Z) : Z := uint8 (Z.shiftr rgba 16).
Definition GetB (rgba : Z) : Z := uint8 (Z.shiftr rgba 8).
Definition GetA (rgba : Z) : Z := uint8 rgba.

(** Modelled from the spec: the opacity of a fully opaque pixel, the
    upper end of the 8-bit opacity channel. *)
Definition OPAQUE : Z := 255.

End Palette.
Import Palette.

(** ** The byte source *)

Module Rcd.

(** Modelled from the spec: [fileio.h] is not among the sources.  The byte
    source is "fully buffered before decoding begins"; it is modelled as the
    bytes to come, indexed by position, with the position of the next read.
    [name], [version] and [size] are the fields of the current block that
    [LoadImage] reads.  Every read advances the position, whatever the bytes
    are. *)
Record RcdFileReader : Type := mkReader {
  name : string;
  version : Z;
  size : Z;
  file_pos : Z;
  contents : Z -> Z
}.

Definition advance (rcd : RcdFileReader) (n : Z) : RcdFileReader :=
  mkReader (name rcd) (version rcd) (size rcd) (file_pos rcd + n)
           (contents rcd).

Definition GetUInt8 (rcd : RcdFileReader) : Z * RcdFileReader :=
  (uint8 (contents rcd (file_pos rcd)), advance rcd 1).

(** Little-endian, as the record header and the jump table are. *)
Definition GetUInt16 (rcd : RcdFileReader) : Z * RcdFileReader :=
  let (lo, rcd) := GetUInt8 rcd in
  let (hi, rcd) := GetUInt8 rcd in
  (Z.lor lo (Z.shiftl hi 8), rcd).

Definition GetInt16 (rcd : RcdFileReader) : Z * RcdFileReader :=
  let (v, rcd) := GetUInt16 rcd in (int16 v, rcd).

Definition GetUInt32 (rcd : RcdFileReader) : Z * RcdFileReader :=
  let (lo, rcd) := GetUInt16 rcd in
  let (hi, rcd) := GetUInt16 rcd in
  (Z.lor lo (Z.shiftl hi 16), rcd).

Fixpoint GetBlob_bytes (n : nat) (rcd : RcdFileReader) : list Z :=
  match n with
  | O => []
  | S n => let (v, rcd) := GetUInt8 rcd in v :: GetBlob_bytes n rcd
  end.

(** [GetBlob(address, length)]: the next [length] bytes. *)
Definition GetBlob (rcd : RcdFileReader) (length : Z)
  : list Z * RcdFileReader :=
  (GetBlob_bytes (Z.to_nat length) rcd, advance rcd (Z.max 0 length)).

(** A reader over a finite list of bytes, for concrete inputs; past the
    list the source yields [0]. *)
Definition of_bytes (nm : string) (ver : Z) (bytes : list Z) : RcdFileReader :=
  mkReader nm ver (Z.of_nat (List.length bytes)) 0
           (fun i => nth (Z.to_nat i) bytes 0).

End Rcd.
Import Rcd.

(** ** Image records (sprite_data.h) *)

Definition INVALID_JUMP : Z := 4294967295.
Definition IFG_IS_8BPP : Z := 0.

Record ImageData : Type := mkImageData {
  flags : Z;
  width : Z;
  height : Z;
  xoffset : Z;
  yoffset : Z
}.

(** The constructor [ImageData::ImageData()]. *)
Definition ImageData_new : ImageData := mkImageData 0 0 0 0 0.

(** ** [ImageData::LoadSizes] (sprite_data.cpp, lines 38-51) *)

Definition LoadSizes (this : ImageData) (rcd_file : RcdFileReader) (length : Z)
  : bool * ImageData * RcdFileReader :=
  if length <? 8 then (false, this, rcd_file)
  else
    let (w, rcd_file) := GetUInt16 rcd_file in
    let (h, rcd_file) := GetUInt16 rcd_file in
    let (xo, rcd_file) := GetInt16 rcd_file in
    let (yo, rcd_file) := GetInt16 rcd_file in
    let this := mkImageData (flags this) w h xo yo in
    if (w =? 0) || (w >? 300) || (h =? 0) || (h >? 500)
    then (false, this, rcd_file)
    else
      let length := length - 8 in
      (length <=? 100 * 1024, this, rcd_file).

(** ** [BlendPixels] (sprite_data.cpp, lines 159-167) *)

(** The three channels and the opacity are [uint]; each sum is computed
    modulo [2 ^ 32], and [MakeRGBA] truncates its arguments to [uint8]. *)
Definition BlendPixels (r g b old_pixel opacity : Z) : Z :=
  let r := uint32 (r * opacity + GetR old_pixel * (256 - opacity)) in
  let g := uint32 (g * opacity + GetG old_pixel * (256 - opacity)) in
  let b := uint32 (b * opacity + GetB old_pixel * (256 - opacity)) in
  MakeRGBA (Z.shiftr r 8) (Z.shiftr g 8) (Z.shiftr b 8) OPAQUE.

(** What one channel becomes when a source channel [c] is blended at
    opacity 255 over a background channel [o]: the weights are 255 and 1,
    and the shift by 8 rounds down. *)
Definition blend_opaque_channel (c o : Z) : Z := if o <? c then c - 1 else c.

(** ** Recolouring and gradient shifts *)

(** Modelled from the spec: the recolouring context of [palette.h], "an
    externally supplied, per-draw-call object" that is read-only to the
    codec.  [GetPalette shift] is the table of the indexed images,
    [GetRecolourTable layer] the table of a layer of the true-colour
    images.  The type of shift modes is left open. *)
Record Recolouring (GradientShift : Type) : Type := mkRecolouring {
  GetPalette : GradientShift -> Z -> Z;
  GetRecolourTable : Z -> Z -> Z
}.
Arguments GetPalette {GradientShift} _ _ _.
Arguments GetRecolourTable {GradientShift} _ _ _.

(** ** Indexed images *)

Module ImageData8bpp.

Record t : Type := mk {
  base : ImageData;
  table : list Z;   (* the jump table; [INVALID_JUMP] for a missing entry *)
  data : list Z     (* the image data itself *)
}.

(** The constructor: both buffers are null. *)
Definition new (base : ImageData) : t := mk base [] [].

(** Lines 197-206: the jump table is read entry by entry and rebased.
    [None] is the [return false] inside the loop. *)
Fixpoint load_table (n : nat) (jmp_table length : Z) (rcd_file : RcdFileReader)
  (table : list Z) : option (list Z) * list Z * RcdFileReader :=
  match n with
  | O => (Some table, table, rcd_file)
  | S n =>
      let (dest, rcd_file) := GetUInt32 rcd_file in
      if dest =? 0
      then load_table n jmp_table length rcd_file (table ++ [INVALID_JUMP])
      else
        let dest := uint32 (dest - jmp_table) in
        if dest >=? length then (None, table, rcd_file)
        else load_table n jmp_table length rcd_file (table ++ [dest])
  end.

(** Lines 215-228: the runs of one row.  [offset] and [xpos] are [uint32],
    [length] is a [size_t]. *)
Fixpoint verify_row (fuel : nat) (data : list Z) (length width : Z)
  (offset xpos : Z) : outcome bool :=
  match fuel with
  | O => OutOfFuel
  | S fuel =>
      if uint32 (offset + 2) >=? length then Ok false
      else
        rel_pos <- read data offset ;;
        count <- read data (uint32 (offset + 1)) ;;
        let xpos := uint32 (xpos + (Z.land rel_pos 127 + count)) in
        let offset := uint32 (offset + (2 + count)) in
        if Z.land rel_pos 128 =? 0 then
          if (xpos >=? width) || (offset >=? length) then Ok false
          else verify_row fuel data length width offset xpos
        else
          if (xpos >? width) || (offset >? length) then Ok false
          else Ok true
  end.

(** Lines 211-229: rows [i], [i + 1], ... of the image, [n] of them. *)
Fixpoint verify_rows (n : nat) (table data : list Z) (length width : Z)
  (i : Z) : outcome bool :=
  match n with
  | O => Ok true
  | S n =>
      offset <- read table i ;;
      if offset =? INVALID_JUMP
      then verify_rows n table data length width (i + 1)
      else
        ok <- verify_row (S (List.length data)) data length width offset 0 ;;
        if ok then verify_rows n table data length width (i + 1)
        else Ok false
  end.

(** [ImageData8bpp::LoadData] (lines 186-231). *)
Definition LoadData (this : t) (rcd_file : RcdFileReader) (length : Z)
  : outcome (bool * t * RcdFileReader) :=
  let jmp_table := 4 * height (base this) in
  if length <=? jmp_table then Ok (false, this, rcd_file)
  else
    let length := length - jmp_table in
    let '(loaded, table, rcd_file) :=
      load_table (Z.to_nat (height (base this))) jmp_table length rcd_file [] in
    match loaded with
    | None =>
        (* [return false] in the loop: the data has not been read *)
        Ok (false, mk (base this) table [], rcd_file)
    | Some _ =>
        let (data, rcd_file) := GetBlob rcd_file length in
        let this := mk (base this) table data in
        ok <- verify_rows (Z.to_nat (height (base this))) table data length
                (width (base this)) 0 ;;
        Ok (ok, this, rcd_file)
    end.

Section GetPixel.

Context {GradientShift : Type}.

(** The table [_palette] of [palette.h], from a colour index to a pixel,
    is a parameter. *)
Variable _palette : Z -> Z.

(** Lines 242-258: the walk along the runs of a row.  [xpos] is a
    [uint16], [offset] a [uint32]. *)
Fixpoint GetPixel_walk (fuel : nat) (data : list Z) (xoffset : Z)
  (recolour_table : option (Z -> Z)) (offset xpos : Z) : outcome Z :=
  match fuel with
  | O => OutOfFuel
  | S fuel =>
      if xpos <=? xoffset then
        rel_pos <- read data offset ;;
        count <- read data (uint32 (offset + 1)) ;;
        let xpos := uint16 (xpos + Z.land rel_pos 127) in
        if xpos >? xoffset then Ok (_palette 0)
        else if xoffset - xpos <? count then
          pixel <- read data (uint32 (offset + 2 + xoffset - xpos)) ;;
          let pixel := match recolour_table with
                       | Some recolour_table => uint8 (recolour_table pixel)
                       | None => pixel
                       end in
          Ok (_palette pixel)
        else
          let xpos := uint16 (xpos + count) in
          let offset := uint32 (offset + (2 + count)) in
          if negb (Z.land rel_pos 128 =? 0) then Ok (_palette 0)
          else GetPixel_walk fuel data xoffset recolour_table offset xpos
      else Ok (_palette 0)
  end.

(** [ImageData8bpp::GetPixel] (lines 233-260); [recolour = None] is the
    null pointer. *)
Definition GetPixel (this : t) (xoffset yoffset : Z)
  (recolour : option (Recolouring GradientShift)) (shift : GradientShift)
  : outcome Z :=
  if xoffset >=? width (base this) then Ok (_palette 0)
  else if yoffset >=? height (base this) then Ok (_palette 0)
  else
    offset <- read (table this) yoffset ;;
    if offset =? INVALID_JUMP then Ok (_palette 0)
    else
      GetPixel_walk (S (List.length (data this))) (data this) xoffset
        (option_map (fun rc => GetPalette rc shift) recolour) offset 0.

End GetPixel.

End ImageData8bpp.

(** ** True-colour images *)

Module ImageData32bpp.

Record t : Type := mk {
  base : ImageData;
  data : list Z     (* the image data itself *)
}.

Definition new (base : ImageData) : t := mk base [].

(** The pointer after a run of [mode] whose mode byte has been read, as the
    decoder's [switch (mode >> 6)] advances it (lines 352-357). *)
Definition skip_run (mode ptr : Z) : Z :=
  match Z.shiftr mode 6 with
  | 0 => ptr + 3 * Z.land mode 63
  | 1 => ptr + (1 + 3 * Z.land mode 63)
  | 2 => ptr
  | 3 => ptr + (1 + 1 + Z.land mode 63)
  | _ => ptr
  end.

(** Lines 343-358: the runs of one line.  Pointers are offsets into
    [data]; [xpos] is a [uint].  The result is the pointer, [xpos] and
    [finished_line] when the loop is left. *)
Fixpoint read_line (fuel : nat) (data : list Z) (end_ : Z) (ptr xpos : Z)
  : outcome (Z * Z * bool) :=
  match fuel with
  | O => OutOfFuel
  | S fuel =>
      if ptr <? end_ then
        mode <- read data ptr ;;
        let ptr := ptr + 1 in
        if mode =? 0 then Ok (ptr, xpos, true)
        else
          let xpos := uint32 (xpos + Z.land mode 63) in
          read_line fuel data end_ (skip_run mode ptr) xpos
      else Ok (ptr, xpos, false)
  end.

(** [ptr[0] | (ptr[1] << 8)] as a [uint16]. *)
Definition line_length_at (data : list Z) (ptr : Z) : outcome Z :=
  b0 <- read data ptr ;;
  b1 <- read data (ptr + 1) ;;
  Ok (uint16 (Z.lor b0 (Z.shiftl b1 8))).

(** Lines 327-362: the loop over the lines.  [None] is a [return false]
    inside the loop; [Some (ptr, line_count)] is the state when the loop
    is left. *)
Fixpoint read_lines (fuel : nat) (data : list Z) (abs_end width : Z)
  (ptr line_count : Z) (finished : bool) : outcome (option (Z * Z)) :=
  match fuel with
  | O => OutOfFuel
  | S fuel =>
      if (ptr <? abs_end) && negb finished then
        let line_count := line_count + 1 in
        line_length <- line_length_at data ptr ;;
        let finished := if line_length =? 0 then true else finished in
        let end_ := if line_length =? 0 then abs_end else ptr + line_length in
        if negb (line_length =? 0) && (end_ >? abs_end) then Ok None
        else
          let ptr := ptr + 2 in
          ' (ptr, xpos, finished_line) <-
            read_line (S (List.length data)) data end_ ptr 0 ;;
          if xpos >? width then Ok None
          else if negb finished_line then Ok None
          else if negb (ptr =? end_) then Ok None
          else read_lines fuel data abs_end width ptr line_count finished
      else Ok (Some (ptr, line_count))
  end.

(** Lines 323-365: the verification of a loaded buffer of [length] bytes. *)
Definition verify (data : list Z) (length width height : Z) : outcome bool :=
  let abs_end := length in
  r <- read_lines (S (List.length data)) data abs_end width 0 0 false ;;
  match r with
  | None => Ok false
  | Some (ptr, line_count) =>
      if negb (line_count =? height) then Ok false
      else if negb (ptr =? abs_end) then Ok false
      else Ok true
  end.

(** [ImageData32bpp::LoadData] (lines 315-366). *)
Definition LoadData (this : t) (rcd_file : RcdFileReader) (length : Z)
  : outcome (bool * t * RcdFileReader) :=
  let (data, rcd_file) := GetBlob rcd_file length in
  let this := mk (base this) data in
  ok <- verify data length (width (base this)) (height (base this)) ;;
  Ok (ok, this, rcd_file).

Section GetPixel.

Context {GradientShift : Type}.

(** The table [_palette] and the function [GetGradientShiftFunc] of
    [palette.h] are parameters; the latter gives, for a shift mode, the
    transform of one 8-bit colour channel. *)
Variable _palette : Z -> Z.
Variable GetGradientShiftFunc : GradientShift -> Z -> Z.

(** Lines 374-378: [yoffset] lines are skipped by their length words. *)
Fixpoint skip_lines (yoffset : nat) (data : list Z) (ptr : Z) : outcome Z :=
  match yoffset with
  | O => Ok ptr
  | S yoffset =>
      length <- line_length_at data ptr ;;
      skip_lines yoffset data (ptr + length)
  end.

(** The pointer after a run that the query skips (lines 385-390). *)
Definition GetPixel_skip_run (mode ptr : Z) : Z :=
  match Z.shiftr mode 6 with
  | 0 => ptr + 3 * Z.land mode 63
  | 1 => ptr + (1 + 3 * Z.land mode 63)
  | 2 => ptr + 1
  | 3 => ptr + (1 + 1 + Z.land mode 63)
  | _ => ptr
  end.

(** Lines 380-414: the walk along the runs of the line.  [xoffset] is a
    [uint16] that the loop counts down. *)
Fixpoint GetPixel_walk (fuel : nat) (data : list Z)
  (recolour : option (Recolouring GradientShift)) (sf : Z -> Z)
  (ptr xoffset : Z) : outcome Z :=
  match fuel with
  | O => OutOfFuel
  | S fuel =>
      if xoffset >? 0 then
        mode <- read data ptr ;;
        let ptr := ptr + 1 in
        if mode =? 0 then Ok (_palette 0)
        else if Z.land mode 63 <? xoffset then
          let xoffset := uint16 (xoffset - Z.land mode 63) in
          GetPixel_walk fuel data recolour sf (GetPixel_skip_run mode ptr)
            xoffset
        else
          match Z.shiftr mode 6 with
          | 0 =>
              let ptr := ptr + 3 * xoffset in
              r <- read data ptr ;;
              g <- read data (ptr + 1) ;;
              b <- read data (ptr + 2) ;;
              Ok (MakeRGBA (sf r) (sf g) (sf b) OPAQUE)
          | 1 =>
              opacity <- read data ptr ;;
              let ptr := ptr + (1 + 3 * xoffset) in
              r <- read data ptr ;;
              g <- read data (ptr + 1) ;;
              b <- read data (ptr + 2) ;;
              Ok (MakeRGBA (sf r) (sf g) (sf b) opacity)
          | 2 => Ok (_palette 0)
          | 3 =>
              opacity <- read data (ptr + 1) ;;
              match recolour with
              | None => Ok (MakeRGBA 0 0 0 opacity)
              | Some recolour =>
                  layer <- read data ptr ;;
                  let table := GetRecolourTable recolour (layer - 1) in
                  let ptr := ptr + (2 + xoffset) in
                  index <- read data ptr ;;
                  let recoloured := table index in
                  Ok (MakeRGBA (sf (GetR recoloured)) (sf (GetG recoloured))
                               (sf (GetB recoloured)) opacity)
              end
          | _ => GetPixel_walk fuel data recolour sf ptr xoffset
          end
      else Ok (_palette 0)
  end.

(** [ImageData32bpp::GetPixel] (lines 368-416). *)
Definition GetPixel (this : t) (xoffset yoffset : Z)
  (recolour : option (Recolouring GradientShift)) (shift : GradientShift)
  : outcome Z :=
  if xoffset >=? width (base this) then Ok (_palette 0)
  else if yoffset >=? height (base this) then Ok (_palette 0)
  else
    ptr <- skip_lines (Z.to_nat yoffset) (data this) 0 ;;
    let ptr := ptr + 2 in
    GetPixel_walk (S (List.length (data this))) (data this) recolour
      (GetGradientShiftFunc shift) ptr xoffset.

End GetPixel.

End ImageData32bpp.

(** ** [BlitPixel] (sprite_data.cpp, lines 126-148) *)

Module ClippedRectangle.

(** Modelled from the spec: [video.h] is not among the sources.  The
    destination of a blit is "an addressable 32-bit-per-pixel memory buffer"
    seen through a clipped rectangle with a width, a height, a pitch (pixels
    from one row to the next) and the address of its top-left pixel.  The
    width and the height are taken as unsigned 16-bit fields, so that
    [BlitPixel] compares them with its [int32] positions as signed
    integers. *)
Record t : Type := mk {
  width : Z;
  height : Z;
  pitch : Z;
  address : Z
}.

End ClippedRectangle.

(** Screen memory: a pixel per address (addresses count pixels). *)
Definition screen : Type := Z -> Z.

(** [*scr = colour]. *)
Definition store (mem : screen) (scr colour : Z) : screen :=
  fun a => if a =? scr then colour else mem a.

(** Lines 137-143: the tiles of one row.  [x] is an [int32], [scr] a
    pointer; [width] is the image's. *)
Fixpoint BlitPixel_row (fuel : nat) (cr : ClippedRectangle.t)
  (xend width colour : Z) (x scr : Z) (mem : screen) : outcome screen :=
  match fuel with
  | O => OutOfFuel
  | S fuel =>
      if x <? xend then
        if x >=? ClippedRectangle.width cr then Ok mem
        else
          let mem := if x >=? 0 then store mem scr colour else mem in
          BlitPixel_row fuel cr xend width colour
            (int32 (x + width)) (scr + width) mem
      else Ok mem
  end.

(** The iterations the loop over [x] can take: it leaves as soon as [x]
    reaches the rectangle's width. *)
Definition row_fuel (cr : ClippedRectangle.t) (xmin : Z) : nat :=
  S (Z.to_nat (ClippedRectangle.width cr - xmin)).

(** Lines 131-147: the rows of tiles. *)
Fixpoint BlitPixel_rows (fuel : nat) (cr : ClippedRectangle.t)
  (xmin xend yend width height colour : Z) (ymin scr_base : Z) (mem : screen)
  : outcome screen :=
  match fuel with
  | O => OutOfFuel
  | S fuel =>
      if ymin <? yend then
        if ymin >=? ClippedRectangle.height cr then Ok mem
        else
          mem <- (if ymin >=? 0
                  then BlitPixel_row (row_fuel cr xmin) cr xend width colour
                         xmin scr_base mem
                  else Ok mem) ;;
          BlitPixel_rows fuel cr xmin xend yend width height colour
            (int32 (ymin + height))
            (scr_base + int32 (height * ClippedRectangle.pitch cr)) mem
      else Ok mem
  end.

(** [BlitPixel]: [xmin], [ymin] are [int32]; the products and sums of
    lines 129-130 are computed in [int32], wrapping around. *)
Definition BlitPixel (cr : ClippedRectangle.t) (scr_base : Z)
  (xmin ymin numx numy width height colour : Z) (mem : screen)
  : outcome screen :=
  let xend := int32 (xmin + numx * width) in
  let yend := int32 (ymin + numy * height) in
  BlitPixel_rows (S (Z.to_nat (ClippedRectangle.height cr - ymin))) cr
    xmin xend yend width height colour ymin scr_base mem.

(** ** [LoadImage] (sprite_data.cpp, lines 508-522) *)

(** The two classes behind an [ImageData] pointer. *)
Inductive Sprite : Type :=
| Sprite8 (imd : ImageData8bpp.t)
| Sprite32 (imd : ImageData32bpp.t).

(** [imd->LoadData(rcd_file, length)], dispatched on the class. *)
Definition Sprite_LoadData (is_8bpp : bool) (base : ImageData)
  (rcd_file : RcdFileReader) (length : Z)
  : outcome (bool * Sprite * RcdFileReader) :=
  if is_8bpp then
    ' (ok, imd, rcd_file) <-
      ImageData8bpp.LoadData (ImageData8bpp.new base) rcd_file length ;;
    Ok (ok, Sprite8 imd, rcd_file)
  else
    ' (ok, imd, rcd_file) <-
      ImageData32bpp.LoadData (ImageData32bpp.new base) rcd_file length ;;
    Ok (ok, Sprite32 imd, rcd_file).

(** [LoadImage]: the result is the loaded sprite or [None] for [nullptr],
    with the byte source and the store [_sprites] after the call. *)
Definition LoadImage (rcd_file : RcdFileReader) (_sprites : list Sprite)
  : outcome (option Sprite * RcdFileReader * list Sprite) :=
  let is_8bpp := String.eqb (name rcd_file) "8PXL" in
  if negb (version rcd_file =? (if is_8bpp then 2 else 1))
  then Ok (None, rcd_file, _sprites)
  else
    let flags := if is_8bpp then Z.shiftl 1 IFG_IS_8BPP else 0 in
    let imd := mkImageData flags 0 0 0 0 in
    let '(sizes_ok, imd, rcd_file) := LoadSizes imd rcd_file (size rcd_file) in
    if sizes_ok then
      ' (data_ok, sprite, rcd_file) <-
        Sprite_LoadData is_8bpp imd rcd_file (uint32 (size rcd_file - 8)) ;;
      if data_ok then Ok (Some sprite, rcd_file, _sprites ++ [sprite])
      else Ok (None, rcd_file, _sprites)
    else Ok (None, rcd_file, _sprites).

(** ** Vocabulary of the statements *)

(** The sprite a call of [LoadImage] returned, if it returned one. *)
Definition loaded_sprite {A B : Type} (r : outcome (option Sprite * A * B))
  : option Sprite :=
  match r with
  | Ok (s, _, _) => s
  | _ => None
  end.

(** The two tag and version pairs the interface description calls
    recognized, for a true-colour tag [tag32]. *)
Definition recognized (tag32 : string) (rcd_file : RcdFileReader) : Prop :=
  (name rcd_file = "8PXL"%string /\ version rcd_file = 2)
  \/ (name rcd_file = tag32 /\ version rcd_file = 1).

(** "Any other tag and version combination is rejected", as stated. *)
Definition rejects_unrecognized (tag32 : string) : Prop :=
  forall rcd_file _sprites,
    ~ recognized tag32 rcd_file ->
    exists rcd_file',
      LoadImage rcd_file _sprites = Ok (None, rcd_file', _sprites).

(** A record of a true-colour image of one pixel: the 8 bytes of the
    sizes, then one line whose length word is 0. *)
Definition one_pixel_record (r g b : Z) : list Z :=
  [1; 0; 1; 0; 0; 0; 0; 0] ++ [0; 0; 1; r; g; b; 0].

(** The screen after stores of [colour] at the addresses [writes], in
    that order. *)
Definition stores (colour : Z) (writes : list Z) (mem : screen) : screen :=
  fold_left (fun m a => store m a colour) writes mem.

(** The address of the pixel at column [x] and row [y] of a clipped
    rectangle, as [BlitImages] computes its [line_base] (lines 265, 430). *)
Definition pixel_address (cr : ClippedRectangle.t) (x y : Z) : Z :=
  ClippedRectangle.address cr + x + ClippedRectangle.pitch cr * y.

(** The payload of an indexed image of one row, after the sizes: one
    jump-table entry of file value [jump], then one run with control byte
    [control], count 2 and the two pixels. *)
Definition one_row_payload (jump control idx0 idx1 : Z) : list Z :=
  [jump; 0; 0; 0] ++ [control; 2; idx0; idx1].

(** The sizes of the scenarios: an image of [w] by [h] pixels. *)
Definition sized (flags w h : Z) : ImageData := mkImageData flags w h 0 0.

(** The payload of a true-colour image of one pixel: a line with length
    word [prefix], one opaque run of one pixel and the mode byte 0 that
    ends the line, followed by the bytes [rest]. *)
Definition one_pixel_payload (prefix r g b : Z) (rest : list Z) : list Z :=
  [prefix; 0] ++ [1; r; g; b; 0] ++ rest.

(** A buffer of bytes. *)
Definition bytes (buf : list Z) : Prop := Forall (fun b => 0 <= b < 256) buf.

(** *** Rows of an indexed image *)

(** A jump-table entry as the loader leaves it: the sentinel of an empty
    row, or an offset into the data. *)
Definition table_entry (length offset : Z) : Prop :=
  offset = INVALID_JUMP \/ 0 <= offset < length.

(** The runs of a row as the validation of lines 215-228 accepts them,
    read from [offset] with [xpos] columns covered so far, in exact
    arithmetic: every run header has a byte after it inside the buffer; a
    run whose control byte has the high bit clear leaves the covered
    columns below [width] and ends inside the buffer, and the runs go on
    behind it; the run whose control byte has the high bit set leaves the
    covered columns at most at [width] and ends within the buffer. *)
Inductive row_accepted (data : list Z) (length width : Z) : Z -> Z -> Prop :=
| accepted_last offset xpos rel_pos count :
    offset + 2 < length ->
    read data offset = Ok rel_pos ->
    read data (offset + 1) = Ok count ->
    Z.land rel_pos 128 <> 0 ->
    xpos + (Z.land rel_pos 127 + count) <= width ->
    offset + (2 + count) <= length ->
    row_accepted data length width offset xpos
| accepted_more offset xpos rel_pos count :
    offset + 2 < length ->
    read data offset = Ok rel_pos ->
    read data (offset + 1) = Ok count ->
    Z.land rel_pos 128 = 0 ->
    xpos + (Z.land rel_pos 127 + count) < width ->
    offset + (2 + count) < length ->
    row_accepted data length width (offset + (2 + count))
      (xpos + (Z.land rel_pos 127 + count)) ->
    row_accepted data length width offset xpos.

(** The runs of a row as the testable property describes them: the runs
    read from [offset] end with a run whose control byte has the high bit
    set and which lies within the buffer, and the skips and counts of the
    runs, added to [sum], give [total]. *)
Inductive row_sums_to (data : list Z) (length : Z) : Z -> Z -> Z -> Prop :=
| sums_last offset sum rel_pos count :
    read data offset = Ok rel_pos ->
    read data (offset + 1) = Ok count ->
    Z.land rel_pos 128 <> 0 ->
    offset + (2 + count) <= length ->
    row_sums_to data length offset sum (sum + (Z.land rel_pos 127 + count))
| sums_more offset sum rel_pos count total :
    read data offset = Ok rel_pos ->
    read data (offset + 1) = Ok count ->
    Z.land rel_pos 128 = 0 ->
    row_sums_to data length (offset + (2 + count))
      (sum + (Z.land rel_pos 127 + count)) total ->
    row_sums_to data length offset sum total.

(** What a successful [ImageData8bpp::LoadData] has checked of an image:
    the jump table has an entry per row, and every entry is the sentinel
    of an empty row or the offset of an accepted row. *)
Definition loaded8 (imd : ImageData8bpp.t) : Prop :=
  let data := ImageData8bpp.data imd in
  let length := Z.of_nat (List.length data) in
  bytes data
  /\ length + 512 <= 4294967296
  /\ 0 <= width (ImageData8bpp.base imd) < 65536
  /\ Z.of_nat (List.length (ImageData8bpp.table imd))
     = height (ImageData8bpp.base imd)
  /\ Forall (fun offset =>
               offset = INVALID_JUMP
               \/ (0 <= offset < length
                   /\ row_accepted data length
                        (width (ImageData8bpp.base imd)) offset 0))
       (ImageData8bpp.table imd).

(** *** Lines of a true-colour image *)

(** The bytes a run takes behind its mode byte: none for a transparent
    run, an opacity or a layer and an opacity before the pixels of the
    other kinds, three bytes or one byte a pixel. *)
Definition run_payload (mode : Z) : Z :=
  match Z.shiftr mode 6 with
  | 0 => 3 * Z.land mode 63
  | 1 => 1 + 3 * Z.land mode 63
  | 2 => 0
  | 3 => 2 + Z.land mode 63
  | _ => 0
  end.

(** The lines of a buffer: the first starts at 0, and behind a line with
    a length word that is not 0 the next one starts that many bytes
    further. *)
Inductive line_start (data : list Z) (abs_end : Z) : Z -> Prop :=
| first_line : line_start data abs_end 0
| next_line ptr len :
    line_start data abs_end ptr ->
    ptr < abs_end ->
    ImageData32bpp.line_length_at data ptr = Ok len ->
    len <> 0 ->
    line_start data abs_end (ptr + len).

(** Where the line at [ptr] with length word [len] ends. *)
Definition line_end (abs_end ptr len : Z) : Z :=
  if len =? 0 then abs_end else ptr + len.

(** The runs read from [ptr] reach the mode byte 0 that ends the line
    before [end_], and their six-bit counts, added to [sum], give
    [total]. *)
Inductive line_sums_to (data : list Z) (end_ : Z) : Z -> Z -> Z -> Prop :=
| line_done ptr sum :
    ptr < end_ ->
    read data ptr = Ok 0 ->
    line_sums_to data end_ ptr sum sum
| line_run ptr sum mode total :
    ptr < end_ ->
    read data ptr = Ok mode ->
    mode <> 0 ->
    line_sums_to data end_ (ptr + 1 + run_payload mode)
      (sum + Z.land mode 63) total ->
    line_sums_to data end_ ptr sum total.

(** Either the loop over the lines of [ImageData32bpp::LoadData] has
    returned [false], or it arrives at the line at [ptr]. *)
Definition reaches (data : list Z) (abs_end width ptr : Z) : Prop :=
  ImageData32bpp.read_lines (S (List.length data)) data abs_end width 0 0 false
  = Ok None
  \/ exists fuel line_count,
       abs_end - ptr < Z.of_nat fuel
       /\ ImageData32bpp.read_lines (S (List.length data)) data abs_end width
            0 0 false
          = ImageData32bpp.read_lines fuel data abs_end width ptr line_count
              false.

(** ** Tactics *)

(** Two reads of the same cell give the same value. *)
Ltac same_reads :=
  repeat match goal with
         | H : read ?buf ?i = Ok _, H' : read ?buf ?i = Ok _ |- _ =>
             rewrite H in H'; injection H' as ->
         end.

(** * Part I, continued: the blitters and the vocabulary of the later parts *)

(** ** [ImageData8bpp::BlitImages] (sprite_data.cpp, lines 262-297) *)

Module Blit8bpp.

Section BlitImages.

Context {GradientShift : Type}.

(** The table [_palette] of [palette.h] is a parameter. *)
Variable _palette : Z -> Z.

Variable cr : ClippedRectangle.t.
Variables numx numy : Z.

(** Lines 280-290: the pixels of one run.  [pixels] is a pointer into the
    data (an offset), [xpos] an [int32], [src_base] a pointer into the
    screen; the result is [xpos], [src_base] and the screen behind the
    run.  A colour that is not fully opaque is blended with the pixel the
    screen has at [src_base]. *)
Fixpoint BlitImages_pixels (count : nat) (this : ImageData8bpp.t)
  (recoloured : Z -> Z) (pixels xpos ypos src_base : Z) (mem : screen)
  : outcome (Z * Z * screen) :=
  match count with
  | O => Ok (xpos, src_base, mem)
  | S count =>
      pixel <- read (ImageData8bpp.data this) pixels ;;
      let colour := _palette (uint8 (recoloured pixel)) in
      let colour :=
        if negb (GetA colour =? OPAQUE)
        then BlendPixels (GetR colour) (GetG colour) (GetB colour)
               (mem src_base) (GetA colour)
        else colour in
      mem <- BlitPixel cr src_base xpos ypos numx numy
               (width (ImageData8bpp.base this))
               (height (ImageData8bpp.base this)) colour mem ;;
      BlitImages_pixels count this recoloured (pixels + 1) (int32 (xpos + 1))
        ypos (src_base + 1) mem
  end.

(** Lines 272-292: the runs of one row; [offset] is a [uint32]. *)
Fixpoint BlitImages_row (fuel : nat) (this : ImageData8bpp.t)
  (recoloured : Z -> Z) (ypos : Z) (offset xpos src_base : Z) (mem : screen)
  : outcome screen :=
  match fuel with
  | O => OutOfFuel
  | S fuel =>
      rel_off <- read (ImageData8bpp.data this) offset ;;
      count <- read (ImageData8bpp.data this) (uint32 (offset + 1)) ;;
      let pixels := uint32 (offset + 2) in
      let offset := uint32 (offset + (2 + count)) in
      let xpos := int32 (xpos + Z.land rel_off 127) in
      let src_base := src_base + Z.land rel_off 127 in
      ' (xpos, src_base, mem) <-
        BlitImages_pixels (Z.to_nat count) this recoloured pixels xpos ypos
          src_base mem ;;
      if negb (Z.land rel_off 128 =? 0) then Ok mem
      else BlitImages_row fuel this recoloured ypos offset xpos src_base mem
  end.

(** Lines 267-296: the rows [yoff], [yoff + 1], ... of the image, [n] of
    them. *)
Fixpoint BlitImages_rows (n : nat) (this : ImageData8bpp.t)
  (recoloured : Z -> Z) (x_base : Z) (yoff line_base ypos : Z) (mem : screen)
  : outcome screen :=
  match n with
  | O => Ok mem
  | S n =>
      offset <- read (ImageData8bpp.table this) yoff ;;
      mem <- (if negb (offset =? INVALID_JUMP)
              then BlitImages_row (S (List.length (ImageData8bpp.data this)))
                     this recoloured ypos offset x_base line_base mem
              else Ok mem) ;;
      BlitImages_rows n this recoloured x_base (yoff + 1)
        (line_base + ClippedRectangle.pitch cr) (int32 (ypos + 1)) mem
  end.

(** [ImageData8bpp::BlitImages]. *)
Definition BlitImages (this : ImageData8bpp.t) (x_base y_base : Z)
  (recolour : Recolouring GradientShift) (shift : GradientShift)
  (mem : screen) : outcome screen :=
  let recoloured := GetPalette recolour shift in
  let line_base :=
    ClippedRectangle.address cr + x_base
    + int32 (ClippedRectangle.pitch cr * y_base) in
  BlitImages_rows (Z.to_nat (height (ImageData8bpp.base this))) this recoloured
    x_base 0 line_base y_base mem.

End BlitImages.

End Blit8bpp.

(** *** Vocabulary: decoded rows and stores of pixels *)

(** The screen after the stores [(address, colour)] of [writes], in that
    order. *)
Definition pstores (writes : list (Z * Z)) (mem : screen) : screen :=
  fold_left (fun m w => store m (fst w) (snd w)) writes mem.

(** An address of the screen that belongs to a pixel inside the clipped
    rectangle. *)
Definition inside_clip (cr : ClippedRectangle.t) (a : Z) : Prop :=
  exists x y,
    0 <= x < ClippedRectangle.width cr
    /\ 0 <= y < ClippedRectangle.height cr
    /\ a = pixel_address cr x y.

(** The run-length decoding of a row of an indexed image: for every
    column from the first on, the index of its pixel, or [None] where a
    run skips the column.  Columns behind the last run are not listed. *)
Fixpoint row_pixels (fuel : nat) (data : list Z) (offset : Z)
  : list (option Z) :=
  match fuel with
  | O => []
  | S fuel =>
      let rel_pos := nth (Z.to_nat offset) data 0 in
      let count := nth (Z.to_nat (offset + 1)) data 0 in
      repeat None (Z.to_nat (Z.land rel_pos 127))
      ++ map Some (firstn (Z.to_nat count) (skipn (Z.to_nat (offset + 2)) data))
      ++ (if Z.land rel_pos 128 =? 0
          then row_pixels fuel data (offset + (2 + count))
          else [])
  end.

(** The index stored for the pixel at column [x] of row [y], if the image
    stores one. *)
Definition pixel_at (imd : ImageData8bpp.t) (x y : Z) : option Z :=
  match nth_error (ImageData8bpp.table imd) (Z.to_nat y) with
  | Some offset =>
      if offset =? INVALID_JUMP then None
      else
        match nth_error
                (row_pixels (S (List.length (ImageData8bpp.data imd)))
                   (ImageData8bpp.data imd) offset) (Z.to_nat x) with
        | Some (Some pixel) => Some pixel
        | _ => None
        end
  | None => None
  end.

(** The index the palette is asked for: the stored index, sent through
    the recolouring table when there is one, and index 0 where the image
    stores no pixel. *)
Definition shown_index (recolour_table : option (Z -> Z)) (pixel : option Z)
  : Z :=
  match pixel with
  | Some pixel =>
      match recolour_table with
      | Some recolour_table => uint8 (recolour_table pixel)
      | None => pixel
      end
  | None => 0
  end.

(** *** Vocabulary: the bytes of a header *)

(** A 16-bit value, low byte first; a negative value in two's
    complement. *)
Definition le16 (v : Z) : list Z := [v mod 256; (v / 256) mod 256].

(** The 8 bytes of the sizes of an image. *)
Definition header_bytes (w h xo yo : Z) : list Z :=
  le16 w ++ le16 h ++ le16 xo ++ le16 yo.

(** The byte source has the bytes [bs] at its position. *)
Definition next_bytes (rcd_file : RcdFileReader) (bs : list Z) : Prop :=
  forall k, (k < List.length bs)%nat ->
    contents rcd_file (file_pos rcd_file + Z.of_nat k) = nth k bs 0.

(** The sizes of a sprite of either class. *)
Definition Sprite_base (sprite : Sprite) : ImageData :=
  match sprite with
  | Sprite8 imd => ImageData8bpp.base imd
  | Sprite32 imd => ImageData32bpp.base imd
  end.

(** *** Vocabulary: accepted lines of a true-colour image *)

(** The runs of a line as the validation of lines 343-361 accepts them,
    read from [ptr] with [sum] columns counted so far, in exact
    arithmetic: every mode byte lies before the end of the line, every run
    is followed by a further mode byte, the mode byte 0 is the last byte of
    the line, and the counts sum to at most the width. *)
Inductive line_accepted (data : list Z) (end_ width : Z) : Z -> Z -> Prop :=
| line_ends ptr sum :
    ptr + 1 = end_ ->
    read data ptr = Ok 0 ->
    sum <= width ->
    line_accepted data end_ width ptr sum
| line_goes_on ptr sum mode :
    ptr < end_ ->
    read data ptr = Ok mode ->
    mode <> 0 ->
    line_accepted data end_ width (ptr + 1 + run_payload mode)
      (sum + Z.land mode 63) ->
    line_accepted data end_ width ptr sum.

(** The lines of a buffer as the validation of lines 327-364 accepts
    them, [count] lines from [ptr] to the end of the buffer: a line with
    length word 0 reaches to the end of the buffer; a line with another
    length word ends that many bytes behind the start of its length word,
    and the next line, if the buffer goes on, starts there. *)
Inductive lines_accepted (data : list Z) (abs_end width : Z) : Z -> Z -> Prop :=
| no_line : lines_accepted data abs_end width abs_end 0
| last_line ptr :
    ptr < abs_end ->
    ImageData32bpp.line_length_at data ptr = Ok 0 ->
    line_accepted data abs_end width (ptr + 2) 0 ->
    lines_accepted data abs_end width ptr 1
| more_lines ptr len count :
    ptr < abs_end ->
    ImageData32bpp.line_length_at data ptr = Ok len ->
    len <> 0 ->
    ptr + len <= abs_end ->
    line_accepted data (ptr + len) width (ptr + 2) 0 ->
    lines_accepted data abs_end width (ptr + len) count ->
    lines_accepted data abs_end width ptr (count + 1).

(** What a successful [LoadImage] has checked of a true-colour image:
    the sizes are within the limits and [height] accepted lines fill the
    data. *)
Definition loaded32 (imd : ImageData32bpp.t) : Prop :=
  let data := ImageData32bpp.data imd in
  let length := Z.of_nat (List.length data) in
  bytes data
  /\ length <= 100 * 1024
  /\ 1 <= width (ImageData32bpp.base imd) <= 300
  /\ 1 <= height (ImageData32bpp.base imd) <= 500
  /\ lines_accepted data length (width (ImageData32bpp.base imd)) 0
       (height (ImageData32bpp.base imd)).

(** ** [ImageData32bpp::BlitImages] (sprite_data.cpp, lines 428-501) *)

Module Blit32bpp.

Section BlitImages.

Context {GradientShift : Type}.

(** Of [palette.h], parameters: the function [GetGradientShiftFunc], the
    test [shift == GS_SEMI_TRANSPARENT] and the opacity
    [OPACITY_SEMI_TRANSPARENT]. *)
Variable GetGradientShiftFunc : GradientShift -> Z -> Z.
Variable is_GS_SEMI_TRANSPARENT : GradientShift -> bool.
Variable OPACITY_SEMI_TRANSPARENT : Z.

Variable cr : ClippedRectangle.t.
Variables numx numy : Z.

(** The loops over the pixels of a run (lines 445-450, 452-458, 466-472
    and 486-492) have one shape: the colour of the pixel is made from the
    bytes at [src] and from the pixel the screen has at [src_base], it is
    given to [BlitPixel], and [src] goes on by [stride] bytes.  The result
    is [src], [xpos], [src_base] and the screen behind the run. *)
Fixpoint BlitImages_run (count : nat) (this : ImageData32bpp.t)
  (colour_at : Z -> Z -> outcome Z) (stride : Z)
  (src xpos ypos src_base : Z) (mem : screen)
  : outcome (Z * Z * Z * screen) :=
  match count with
  | O => Ok (src, xpos, src_base, mem)
  | S count =>
      colour <- colour_at src (mem src_base) ;;
      mem <- BlitPixel cr src_base xpos ypos numx numy
               (width (ImageData32bpp.base this))
               (height (ImageData32bpp.base this)) colour mem ;;
      BlitImages_run count this colour_at stride (src + stride)
        (int32 (xpos + 1)) ypos (src_base + 1) mem
  end.

(** [src[0]], [src[1]], [src[2]] through the shift function. *)
Definition shifted_rgb (data : list Z) (sf : Z -> Z) (src : Z)
  : outcome (Z * Z * Z) :=
  r <- read data src ;;
  g <- read data (src + 1) ;;
  b <- read data (src + 2) ;;
  Ok (uint8 (sf r), uint8 (sf g), uint8 (sf b)).

(** Lines 443-459: fully opaque pixels. *)
Definition opaque_colour_at (data : list Z) (sf : Z -> Z) (semi : bool)
  (src old_pixel : Z) : outcome Z :=
  if semi
  then Ok (BlendPixels 255 255 255 old_pixel OPACITY_SEMI_TRANSPARENT)
  else
    ' (r, g, b) <- shifted_rgb data sf src ;;
    Ok (MakeRGBA r g b OPAQUE).

(** Lines 466-468: partially opaque pixels. *)
Definition partial_colour_at (data : list Z) (sf : Z -> Z) (opacity : Z)
  (src old_pixel : Z) : outcome Z :=
  ' (r, g, b) <- shifted_rgb data sf src ;;
  Ok (BlendPixels r g b old_pixel opacity).

(** Lines 487-488: recoloured pixels. *)
Definition recoloured_colour_at (data : list Z) (sf : Z -> Z)
  (table : Z -> Z) (opacity : Z) (src old_pixel : Z) : outcome Z :=
  index <- read data src ;;
  let colour := table index in
  Ok (BlendPixels (uint8 (sf (GetR colour))) (uint8 (sf (GetG colour)))
        (uint8 (sf (GetB colour))) old_pixel opacity).

(** Lines 464 and 484: the opacity of a run under the shift mode;
    [opacity] is a [uint8]. *)
Definition capped (semi : bool) (opacity : Z) : Z :=
  if semi && (opacity >? OPACITY_SEMI_TRANSPARENT)
  then uint8 OPACITY_SEMI_TRANSPARENT else opacity.

(** Lines 437-496: the runs of one line, from [src] to behind the mode
    byte 0.  The result is [src] and the screen. *)
Fixpoint BlitImages_line (fuel : nat) (this : ImageData32bpp.t)
  (recolour : Recolouring GradientShift) (sf : Z -> Z) (semi : bool)
  (ypos : Z) (src xpos src_base : Z) (mem : screen) : outcome (Z * screen) :=
  match fuel with
  | O => OutOfFuel
  | S fuel =>
      let data := ImageData32bpp.data this in
      mode <- read data src ;;
      let src := src + 1 in
      if mode =? 0 then Ok (src, mem)
      else
        ' (src, xpos, src_base, mem) <-
          match Z.shiftr mode 6 with
          | 0 =>
              let mode := Z.land mode 63 in
              if semi
              then BlitImages_run (Z.to_nat mode) this
                     (opaque_colour_at data sf semi) 0 (src + 3 * mode)
                     xpos ypos src_base mem
              else BlitImages_run (Z.to_nat mode) this
                     (opaque_colour_at data sf semi) 3 src
                     xpos ypos src_base mem
          | 1 =>
              opacity <- read data src ;;
              let src := src + 1 in
              let opacity := capped semi opacity in
              let mode := Z.land mode 63 in
              BlitImages_run (Z.to_nat mode) this
                (partial_colour_at data sf opacity) 3 src xpos ypos src_base
                mem
          | 2 =>
              Ok (src, int32 (xpos + Z.land mode 63),
                  src_base + Z.land mode 63, mem)
          | 3 =>
              layer <- read data src ;;
              let src := src + 1 in
              let table := GetRecolourTable recolour (layer - 1) in
              opacity <- read data src ;;
              let src := src + 1 in
              let opacity := capped semi opacity in
              let mode := Z.land mode 63 in
              BlitImages_run (Z.to_nat mode) this
                (recoloured_colour_at data sf table opacity) 1 src xpos ypos
                src_base mem
          | _ => Ok (src, xpos, src_base, mem)
          end ;;
        BlitImages_line fuel this recolour sf semi ypos src xpos src_base mem
  end.

(** Lines 434-500: the lines of the image, [n] of them; behind a line the
    length word of the next one is skipped. *)
Fixpoint BlitImages_lines (n : nat) (this : ImageData32bpp.t)
  (recolour : Recolouring GradientShift) (sf : Z -> Z) (semi : bool)
  (x_base : Z) (src line_base ypos : Z) (mem : screen) : outcome screen :=
  match n with
  | O => Ok mem
  | S n =>
      ' (src, mem) <-
        BlitImages_line (S (List.length (ImageData32bpp.data this))) this
          recolour sf semi ypos src x_base line_base mem ;;
      BlitImages_lines n this recolour sf semi x_base (src + 2)
        (line_base + ClippedRectangle.pitch cr) (int32 (ypos + 1)) mem
  end.

(** [ImageData32bpp::BlitImages]. *)
Definition BlitImages (this : ImageData32bpp.t) (x_base y_base : Z)
  (recolour : Recolouring GradientShift) (shift : GradientShift)
  (mem : screen) : outcome screen :=
  let line_base :=
    ClippedRectangle.address cr + x_base
    + int32 (ClippedRectangle.pitch cr * y_base) in
  let sf := GetGradientShiftFunc shift in
  BlitImages_lines (Z.to_nat (height (ImageData32bpp.base this))) this recolour
    sf (is_GS_SEMI_TRANSPARENT shift) x_base 2 line_base y_base mem.

End BlitImages.

End Blit32bpp.

(** ** Columns and runs of a line of a true-colour image *)

(** [column_in_run data ptr x skipped mode run i]: in the line whose runs
    start at [ptr], column [x] (counted from the column of [ptr]) is pixel
    [i] of the run with mode byte [mode] whose bytes start at [run];
    [skipped] are the mode bytes of the runs before that run. *)
Inductive column_in_run (data : list Z)
  : Z -> Z -> list Z -> Z -> Z -> Z -> Prop :=
| column_here ptr mode i :
    read data ptr = Ok mode ->
    mode <> 0 ->
    0 <= i < Z.land mode 63 ->
    column_in_run data ptr i [] mode (ptr + 1) i
| column_later ptr before x skipped mode run i :
    read data ptr = Ok before ->
    before <> 0 ->
    column_in_run data (ptr + 1 + run_payload before) x skipped mode run i ->
    column_in_run data ptr (Z.land before 63 + x) (before :: skipped) mode run i.

(** The colour of pixel [i] of a run with mode byte [mode] whose bytes
    start at [run], as a pixel query gives it: the three channels through
    the shift function [sf] with the opacity of the run; for a recoloured
    run the entry of the layer's table, or black when there is no
    recolouring; the colour of index 0 for a transparent run. *)
Definition run_pixel {GradientShift : Type} (_palette : Z -> Z)
  (data : list Z) (sf : Z -> Z) (recolour : option (Recolouring GradientShift))
  (mode run i : Z) : outcome Z :=
  match Z.shiftr mode 6 with
  | 0 =>
      r <- read data (run + 3 * i) ;;
      g <- read data (run + 3 * i + 1) ;;
      b <- read data (run + 3 * i + 2) ;;
      Ok (MakeRGBA (sf r) (sf g) (sf b) OPAQUE)
  | 1 =>
      opacity <- read data run ;;
      r <- read data (run + (1 + 3 * i)) ;;
      g <- read data (run + (1 + 3 * i) + 1) ;;
      b <- read data (run + (1 + 3 * i) + 2) ;;
      Ok (MakeRGBA (sf r) (sf g) (sf b) opacity)
  | 2 => Ok (_palette 0)
  | 3 =>
      opacity <- read data (run + 1) ;;
      match recolour with
      | None => Ok (MakeRGBA 0 0 0 opacity)
      | Some recolour =>
          layer <- read data run ;;
          index <- read data (run + (2 + i)) ;;
          let colour := GetRecolourTable recolour (layer - 1) index in
          Ok (MakeRGBA (sf (GetR colour)) (sf (GetG colour))
                (sf (GetB colour)) opacity)
      end
  | _ => Fault
  end.

(** * The calendar (dates.h, dates.cpp) and its notifications
      (gamecontrol.cpp) *)

Module Dates.

(** dates.h, lines 13-28. *)
Definition TICK_COUNT_PER_DAY : Z := 300.

Definition CDB_DAY_LENGTH : Z := 5.
Definition CDB_MONTH_LENGTH : Z := 4.
Definition CDB_YEAR_LENGTH : Z := 7.
Definition CDB_FRAC_LENGTH : Z := 10.

Definition CDB_DAY_START : Z := 0.
Definition CDB_MONTH_START : Z := CDB_DAY_START + CDB_DAY_LENGTH.
Definition CDB_YEAR_START : Z := CDB_MONTH_START + CDB_MONTH_LENGTH.
Definition CDB_FRAC_START : Z := CDB_YEAR_START + CDB_YEAR_LENGTH.

(** dates.cpp, lines 17-19. *)
Definition _days_per_month : list Z :=
  [0; 31; 28; 31; 30; 31; 30; 31; 31; 30; 31; 30; 31].
Definition FIRST_MONTH : Z := 3.
Definition LAST_MONTH : Z := 9.

(** The class [Date]; the four fields are [int]. *)
Record Date : Type := mkDate {
  day : Z;     (* day of the month, 1-based *)
  month : Z;   (* month of the year, 1-based *)
  year : Z;    (* the current year, 1-based *)
  frac : Z     (* day fraction, 0-based *)
}.

(** [Date::Date(int pday, int pmonth, int pyear, int pfrac)] (lines
    46-52), with the assertions enabled: a failed [assert] ends the
    program, which is [Fault] here, as is a read outside
    [_days_per_month].  [&&] reads the table only for [pday > 0]. *)
Definition Date_of_fields (pday pmonth pyear pfrac : Z) : outcome Date :=
  if pday >? 0 then
    days <- read _days_per_month pmonth ;;
    if pday <=? days then
      if (pmonth >? 0) && (pmonth <? 13) then
        if (pyear >? 0) && (pyear <? Z.shiftl 1 CDB_YEAR_LENGTH) then
          if (pfrac >=? 0) && (pfrac <? TICK_COUNT_PER_DAY) then
            Ok (mkDate pday pmonth pyear pfrac)
          else Fault
        else Fault
      else Fault
    else Fault
  else Fault.

(** [Date::Date()] (lines 24-26). *)
Definition Date_default : outcome Date := Date_of_fields 1 FIRST_MONTH 1 0.

Section Compressed.

(** [GB] of [bitmath.h] is a parameter: [GB x s n] for the call
    [GB(x, s, n)]. *)
Variable GB : Z -> Z -> Z -> Z.

(** [Date::Date(CompressedDate cd)] (lines 33-37). *)
Definition Date_of_compressed (cd : Z) : outcome Date :=
  Date_of_fields (GB cd CDB_DAY_START CDB_DAY_LENGTH)
    (GB cd CDB_MONTH_START CDB_MONTH_LENGTH)
    (GB cd CDB_YEAR_START CDB_YEAR_LENGTH)
    (GB cd CDB_FRAC_START CDB_FRAC_LENGTH).

End Compressed.

(** [Date::Compress] (lines 58-61): the shifts and the disjunctions are
    those of [int]; the result is a [uint32]. *)
Definition Compress (this : Date) : Z :=
  uint32
    (Z.lor
       (Z.lor
          (Z.lor (Z.shiftl (year this) CDB_YEAR_START)
             (Z.shiftl (month this) CDB_MONTH_START))
          (Z.shiftl (day this) CDB_DAY_START))
       (Z.shiftl (frac this) CDB_FRAC_START)).

(** [Date::GetPreviousMonth] (lines 67-71). *)
Definition GetPreviousMonth (this : Date) : Z :=
  if month this =? FIRST_MONTH then LAST_MONTH else int32 (month this - 1).

(** [Date::GetNextMonth] (lines 77-81). *)
Definition GetNextMonth (this : Date) : Z :=
  if month this <? LAST_MONTH then int32 (month this + 1) else FIRST_MONTH.

(** The calls that the notifications of gamecontrol.cpp make. *)
Inductive Call : Type :=
| FinancesAdvanceMonth
| RidesOnNewMonth
| RidesOnNewDay
| GuestsOnNewDay
| WeatherOnNewDay
| NotifyChangeBottomToolbar.

(** [OnNewYear] (gamecontrol.cpp, lines 25-28). *)
Definition OnNewYear : list Call := [].

(** [OnNewMonth] (gamecontrol.cpp, lines 31-35). *)
Definition OnNewMonth : list Call := [FinancesAdvanceMonth; RidesOnNewMonth].

(** [OnNewDay] (gamecontrol.cpp, lines 38-44). *)
Definition OnNewDay : list Call :=
  [RidesOnNewDay; GuestsOnNewDay; WeatherOnNewDay; NotifyChangeBottomToolbar].

(** [Date::OnTick] (lines 87-118): the date after the tick and the calls
    of the notifications, in their order.  The table is read at
    [this->month]. *)
Definition OnTick (this : Date) : outcome (Date * list Call) :=
  let frac := int32 (frac this + 1) in
  if frac <? TICK_COUNT_PER_DAY
  then Ok (mkDate (day this) (month this) (year this) frac, [])
  else
    let frac := 0 in
    let day := int32 (day this + 1) in
    days <- read _days_per_month (month this) ;;
    let '(day, month, year, newmonth, newyear) :=
      if day >? days then
        let is_last_month := month this =? LAST_MONTH in
        let day := 1 in
        let month := int32 (month this + 1) in
        if is_last_month || (month >? 12)
        then (day, FIRST_MONTH, int32 (year this + 1), true, true)
        else (day, month, year this, true, false)
      else (day, month this, year this, false, false) in
    Ok (mkDate day month year frac,
        OnNewDay ++ (if newmonth then OnNewMonth else [])
        ++ (if newyear then OnNewYear else [])).

(** [n] frames of [OnNewFrame] (gamecontrol.cpp, lines 50-57), of which
    the call [_date.OnTick()] is kept: the date after them and the calls
    of the notifications. *)
Fixpoint ticks (n : nat) (date : Date) : outcome (Date * list Call) :=
  match n with
  | O => Ok (date, [])
  | S n =>
      ' (date, calls) <- OnTick date ;;
      ' (date, later) <- ticks n date ;;
      Ok (date, calls ++ later)
  end.

End Dates.

(** A date that the constructor of lines 46-52 accepts. *)
Definition valid_date (d : Dates.Date) : Prop :=
  Dates.Date_of_fields (Dates.day d) (Dates.month d) (Dates.year d)
    (Dates.frac d)
  = Ok d.

(** The date [d] in another month. *)
Definition with_month (d : Dates.Date) (m : Z) : Dates.Date :=
  Dates.mkDate (Dates.day d) m (Dates.year d) (Dates.frac d).

(** [GB x s n] is the [n] bits of [x] from bit [s] on. *)
Definition extracts_bits (GB : Z -> Z -> Z -> Z) : Prop :=
  forall x s n, GB x s n = Z.land (Z.shiftr x s) (Z.ones n).

(** The date [d] with [k] added to the year. *)
Definition years_later (k : Z) (d : Dates.Date) : Dates.Date :=
  Dates.mkDate (Dates.day d) (Dates.month d) (Dates.year d + k) (Dates.frac d).

(** The calls of the notifications over the months of one season, whose
    lengths are taken from [_days_per_month]: on every new day those of
    [OnNewDay], behind the last day of a month those of [OnNewMonth]. *)
Definition season_calls : list Dates.Call :=
  flat_map
    (fun days => List.concat (repeat Dates.OnNewDay days) ++ Dates.OnNewMonth)
    (firstn (Z.to_nat (Dates.LAST_MONTH - Dates.FIRST_MONTH + 1))
       (skipn (Z.to_nat Dates.FIRST_MONTH) (map Z.to_nat Dates._days_per_month))).

(** ** What a blit of an indexed image paints *)

(** [a] is the address of a tile of the pixel at [x], [y]: one of the
    [numx] by [numy] placements, spaced by the sizes of the image, that
    lies inside the clipped rectangle. *)
Definition tile_address (cr : ClippedRectangle.t) (numx numy width height : Z)
  (x y a : Z) : Prop :=
  exists i j,
    0 <= i < numx /\ 0 <= j < numy
    /\ 0 <= x + i * width < ClippedRectangle.width cr
    /\ 0 <= y + j * height < ClippedRectangle.height cr
    /\ a = pixel_address cr (x + i * width) (y + j * height).

(** The index that the image, laid [numx] by [numy] times from
    [x_base], [y_base] on, has for the position [x], [y] of the screen,
    if it stores one there. *)
Definition tiled_pixel (imd : ImageData8bpp.t) (numx numy x_base y_base : Z)
  (x y : Z) : option Z :=
  let w := width (ImageData8bpp.base imd) in
  let h := height (ImageData8bpp.base imd) in
  if (x_base <=? x) && (x <? x_base + numx * w)
     && (y_base <=? y) && (y <? y_base + numy * h)
  then pixel_at imd ((x - x_base) mod w) ((y - y_base) mod h)
  else None.

(** ** What a blit of a true-colour image paints *)

(** The position [x], [y] lies inside the clipped rectangle. *)
Definition in_clip (cr : ClippedRectangle.t) (x y : Z) : Prop :=
  0 <= x < ClippedRectangle.width cr /\ 0 <= y < ClippedRectangle.height cr.

(** The colour that pixel [i] of a run with mode byte [mode], whose bytes
    start at [run], leaves on a pixel of the screen that was [old]: the
    colour of a fully opaque pixel, the blend of a partially opaque or a
    recoloured pixel over [old]; a run of transparent pixels leaves
    [old]. *)
Definition run_paint {GradientShift : Type} (OPACITY_SEMI_TRANSPARENT : Z)
  (data : list Z) (sf : Z -> Z) (semi : bool)
  (recolour : Recolouring GradientShift) (mode run i old : Z) : outcome Z :=
  match Z.shiftr mode 6 with
  | 0 =>
      Blit32bpp.opaque_colour_at OPACITY_SEMI_TRANSPARENT data sf semi
        (run + 3 * i) old
  | 1 =>
      opacity <- read data run ;;
      Blit32bpp.partial_colour_at data sf
        (Blit32bpp.capped OPACITY_SEMI_TRANSPARENT semi opacity)
        (run + 1 + 3 * i) old
  | 3 =>
      layer <- read data run ;;
      opacity <- read data (run + 1) ;;
      Blit32bpp.recoloured_colour_at data sf
        (GetRecolourTable recolour (layer - 1))
        (Blit32bpp.capped OPACITY_SEMI_TRANSPARENT semi opacity)
        (run + 1 + 1 + 1 * i) old
  | _ => Ok old
  end.

(** * Part II: properties *)

(** ** Arithmetic of the machine integers *)

Lemma uint8_range x : 0 <= uint8 x < 256.
Proof. unfold uint8. apply Z.mod_pos_bound. reflexivity. Qed.

Lemma uint16_range x : 0 <= uint16 x < 65536.
Proof. unfold uint16. apply Z.mod_pos_bound. reflexivity. Qed.

Lemma uint32_range x : 0 <= uint32 x < 4294967296.
Proof. unfold uint32. apply Z.mod_pos_bound. reflexivity. Qed.

Lemma uint8_small x : 0 <= x < 256 -> uint8 x = x.
Proof. intros H. unfold uint8. apply Z.mod_small. exact H. Qed.

Lemma uint16_small x : 0 <= x < 65536 -> uint16 x = x.
Proof. intros H. unfold uint16. apply Z.mod_small. exact H. Qed.

Lemma uint32_small x : 0 <= x < 4294967296 -> uint32 x = x.
Proof. intros H. unfold uint32. apply Z.mod_small. exact H. Qed.

Lemma int32_small x : - 2147483648 <= x < 2147483648 -> int32 x = x.
Proof.
  intros H. unfold int32.
  rewrite Z.mod_small; change (2 ^ 31) with 2147483648;
    change (2 ^ 32) with 4294967296; lia.
Qed.

Lemma int32_range x : - 2147483648 <= int32 x < 2147483648.
Proof.
  unfold int32.
  pose proof (Z.mod_pos_bound (x + 2 ^ 31) (2 ^ 32) eq_refl) as H.
  change (2 ^ 31) with 2147483648 in *.
  change (2 ^ 32) with 4294967296 in *. lia.
Qed.

(** ** The colour channels *)

Lemma uint8_land x : uint8 x = Z.land x (Z.ones 8).
Proof. unfold uint8. rewrite Z.land_ones by lia. reflexivity. Qed.

Lemma GetA_MakeRGBA r g b a : GetA (MakeRGBA r g b a) = uint8 a.
Proof.
  unfold GetA, MakeRGBA. rewrite !uint8_land. Z.bitblast.
Qed.

Lemma GetB_MakeRGBA r g b a : GetB (MakeRGBA r g b a) = uint8 b.
Proof.
  unfold GetB, MakeRGBA. rewrite !uint8_land. Z.bitblast.
Qed.

Lemma GetG_MakeRGBA r g b a : GetG (MakeRGBA r g b a) = uint8 g.
Proof.
  unfold GetG, MakeRGBA. rewrite !uint8_land. Z.bitblast.
Qed.

Lemma GetR_MakeRGBA r g b a : GetR (MakeRGBA r g b a) = uint8 r.
Proof.
  unfold GetR, MakeRGBA. rewrite !uint8_land. Z.bitblast.
Qed.

Lemma GetR_range c : 0 <= GetR c < 256.
Proof. apply uint8_range. Qed.
Lemma GetG_range c : 0 <= GetG c < 256.
Proof. apply uint8_range. Qed.
Lemma GetB_range c : 0 <= GetB c < 256.
Proof. apply uint8_range. Qed.
Lemma GetA_range c : 0 <= GetA c < 256.
Proof. apply uint8_range. Qed.

(** ** Blending *)

Section BlendPixelsFacts.

Lemma blend_channel_zero c o :
  0 <= o < 256 -> uint8 (Z.shiftr (uint32 (c * 0 + o * (256 - 0))) 8) = o.
Proof.
  intros Ho. rewrite Z.mul_0_r, Z.add_0_l, Z.sub_0_r.
  rewrite uint32_small by lia.
  rewrite Z.shiftr_div_pow2 by lia. change (2 ^ 8) with 256.
  rewrite Z.div_mul by lia. apply uint8_small. exact Ho.
Qed.

Lemma blend_channel_opaque c o :
  0 <= c < 256 -> 0 <= o < 256 ->
  uint8 (Z.shiftr (uint32 (c * 255 + o * (256 - 255))) 8)
  = blend_opaque_channel c o.
Proof.
  intros Hc Ho. rewrite uint32_small by lia.
  rewrite Z.shiftr_div_pow2 by lia. change (2 ^ 8) with 256.
  unfold blend_opaque_channel.
  destruct (Z.ltb_spec o c) as [Hlt | Hge].
  - assert ((c * 255 + o * (256 - 255)) / 256 = c - 1) as ->.
    { symmetry. apply Z.div_unique with (r := 256 - c + o); lia. }
    apply uint8_small. lia.
  - assert ((c * 255 + o * (256 - 255)) / 256 = c) as ->.
    { symmetry. apply Z.div_unique with (r := o - c); lia. }
    apply uint8_small. lia.
Qed.

Lemma MakeRGBA_uint8 r g b a :
  MakeRGBA (uint8 r) (uint8 g) (uint8 b) (uint8 a) = MakeRGBA r g b a.
Proof.
  unfold MakeRGBA, uint8. rewrite !Z.mod_mod by lia. reflexivity.
Qed.

Lemma MakeRGBA_channels c :
  MakeRGBA (GetR c) (GetG c) (GetB c) (GetA c) = uint32 c.
Proof.
  unfold MakeRGBA, GetR, GetG, GetB, GetA, uint32.
  rewrite !uint8_land, !Z.land_ones by lia.
  rewrite <- !Z.land_ones by lia. Z.bitblast.
Qed.

Lemma BlendPixels_zero r g b old :
  BlendPixels r g b old 0
  = MakeRGBA (GetR old) (GetG old) (GetB old) OPAQUE.
Proof.
  unfold BlendPixels. cbv zeta.
  rewrite <- MakeRGBA_uint8.
  rewrite !blend_channel_zero by apply uint8_range.
  reflexivity.
Qed.

Lemma BlendPixels_opaque r g b old :
  0 <= r < 256 -> 0 <= g < 256 -> 0 <= b < 256 ->
  BlendPixels r g b old OPAQUE
  = MakeRGBA (blend_opaque_channel r (GetR old))
             (blend_opaque_channel g (GetG old))
             (blend_opaque_channel b (GetB old)) OPAQUE.
Proof.
  intros Hr Hg Hb. unfold BlendPixels, OPAQUE. cbv zeta.
  rewrite <- MakeRGBA_uint8.
  rewrite !blend_channel_opaque by (assumption || apply uint8_range).
  reflexivity.
Qed.

End BlendPixelsFacts.

Lemma GetA_uint32 c : GetA (uint32 c) = GetA c.
Proof.
  unfold GetA, uint8, uint32.
  apply Z.mod_mod_divide. exists (2 ^ 24). reflexivity.
Qed.

(** C6 (as stated, refuted): at the fully opaque opacity value a white
    source over a black background comes back with every channel at 254,
    not 255; and at opacity zero a background whose alpha channel is 0 comes
    back with alpha 255, so it is not returned unchanged. *)
Lemma BlendPixels_full_opacity_changes_source :
  GetR (BlendPixels 255 255 255 (MakeRGBA 0 0 0 OPAQUE) OPAQUE) = 254
  /\ BlendPixels 255 255 255 (MakeRGBA 0 0 0 OPAQUE) OPAQUE
     <> MakeRGBA 255 255 255 OPAQUE
  /\ BlendPixels 1 2 3 (MakeRGBA 10 20 30 0) 0 <> MakeRGBA 10 20 30 0.
Proof.
  split; [reflexivity | split; vm_compute; discriminate].
Qed.

(** C6 (amended): blending at opacity zero keeps the background's red,
    green and blue channels and sets its alpha channel to [OPAQUE], so
    that the background pixel is returned unchanged exactly when it is
    fully opaque; blending at the fully opaque opacity value 255 returns,
    in each channel, the source channel when the background channel is at
    least as large, and the source channel minus one otherwise. *)
Theorem BlendPixels_zero_and_full_opacity (r g b old : Z)
  (Hr : 0 <= r < 256) (Hg : 0 <= g < 256) (Hb : 0 <= b < 256) :
  BlendPixels r g b old 0 = MakeRGBA (GetR old) (GetG old) (GetB old) OPAQUE
  /\ (BlendPixels r g b old 0 = uint32 old <-> GetA old = OPAQUE)
  /\ BlendPixels r g b old OPAQUE
     = MakeRGBA (blend_opaque_channel r (GetR old))
                (blend_opaque_channel g (GetG old))
                (blend_opaque_channel b (GetB old)) OPAQUE.
Proof.
  split; [apply BlendPixels_zero | split].
  - rewrite BlendPixels_zero. split.
    + intros H. apply (f_equal GetA) in H.
      rewrite GetA_MakeRGBA, GetA_uint32 in H. rewrite <- H. reflexivity.
    + intros H. rewrite <- H. apply MakeRGBA_channels.
  - apply BlendPixels_opaque; assumption.
Qed.

Lemma BlendPixels_zero_and_full_opacity_witness :
  BlendPixels 200 0 7 (MakeRGBA 100 50 7 OPAQUE) 0
  = MakeRGBA (GetR (MakeRGBA 100 50 7 OPAQUE)) (GetG (MakeRGBA 100 50 7 OPAQUE))
             (GetB (MakeRGBA 100 50 7 OPAQUE)) OPAQUE
  /\ (BlendPixels 200 0 7 (MakeRGBA 100 50 7 OPAQUE) 0
      = uint32 (MakeRGBA 100 50 7 OPAQUE)
      <-> GetA (MakeRGBA 100 50 7 OPAQUE) = OPAQUE)
  /\ BlendPixels 200 0 7 (MakeRGBA 100 50 7 OPAQUE) OPAQUE
     = MakeRGBA (blend_opaque_channel 200 (GetR (MakeRGBA 100 50 7 OPAQUE)))
                (blend_opaque_channel 0 (GetG (MakeRGBA 100 50 7 OPAQUE)))
                (blend_opaque_channel 7 (GetB (MakeRGBA 100 50 7 OPAQUE)))
                OPAQUE.
Proof.
  apply (BlendPixels_zero_and_full_opacity 200 0 7 (MakeRGBA 100 50 7 OPAQUE));
    lia.
Defined.

(** C10: whatever the source colour, the background and the opacity, the
    pixel [BlendPixels] returns has alpha [OPAQUE]; at opacity zero its
    red, green and blue channels are the background's, and its alpha can
    differ from the background's. *)
Theorem BlendPixels_always_opaque (r g b old opacity : Z) :
  GetA (BlendPixels r g b old opacity) = OPAQUE
  /\ GetR (BlendPixels r g b old 0) = GetR old
  /\ GetG (BlendPixels r g b old 0) = GetG old
  /\ GetB (BlendPixels r g b old 0) = GetB old
  /\ exists bg, GetA bg <> GetA (BlendPixels r g b bg 0).
Proof.
  split.
  { unfold BlendPixels. cbv zeta. rewrite GetA_MakeRGBA. reflexivity. }
  rewrite BlendPixels_zero.
  rewrite GetR_MakeRGBA, GetG_MakeRGBA, GetB_MakeRGBA.
  rewrite !uint8_small by apply uint8_range.
  repeat split.
  exists 0. rewrite BlendPixels_zero, GetA_MakeRGBA. vm_compute. discriminate.
Qed.

(** ** The byte source *)

Lemma file_pos_GetUInt16 rcd :
  file_pos (snd (GetUInt16 rcd)) = file_pos rcd + 2.
Proof. unfold GetUInt16, GetUInt8, advance. simpl. lia. Qed.

Lemma file_pos_GetInt16 rcd :
  file_pos (snd (GetInt16 rcd)) = file_pos rcd + 2.
Proof. unfold GetInt16, GetUInt16, GetUInt8, advance. simpl. lia. Qed.

Lemma file_pos_GetUInt32 rcd :
  file_pos (snd (GetUInt32 rcd)) = file_pos rcd + 4.
Proof. unfold GetUInt32, GetUInt16, GetUInt8, advance. simpl. lia. Qed.

(** ** [LoadSizes] *)

(** C7 (as stated, refuted): with 5 bytes announced, [LoadSizes] fails and
    the byte source is where it was, not 8 bytes further. *)
Lemma LoadSizes_short_block_reads_nothing :
  let rcd_file := of_bytes "8PXL" 2 [2; 0; 1; 0; 0] in
  fst (fst (LoadSizes ImageData_new rcd_file 5)) = false
  /\ file_pos (snd (LoadSizes ImageData_new rcd_file 5)) = file_pos rcd_file
  /\ file_pos (snd (LoadSizes ImageData_new rcd_file 5))
     <> file_pos rcd_file + 8.
Proof.
  cbv zeta. split; [reflexivity | split; [reflexivity | ]].
  vm_compute. discriminate.
Qed.

(** C7 (amended): [LoadSizes] advances the byte source by exactly 8 bytes
    on every path on which at least 8 bytes are announced, the failures on
    the limits of width, height and payload included; when fewer than 8
    bytes are announced it fails at once and leaves the byte source and
    the image as they were. *)
Theorem LoadSizes_consumes_header (this : ImageData) (rcd_file : RcdFileReader)
  (length : Z) :
  file_pos (snd (LoadSizes this rcd_file length))
  = file_pos rcd_file + (if length <? 8 then 0 else 8)
  /\ (if length <? 8
      then LoadSizes this rcd_file length = (false, this, rcd_file)
      else True).
Proof.
  unfold LoadSizes.
  destruct (length <? 8); [split; [simpl; lia | reflexivity] | ].
  split; [ | exact I].
  destruct (GetUInt16 rcd_file) as [w r1] eqn:E1.
  destruct (GetUInt16 r1) as [h r2] eqn:E2.
  destruct (GetInt16 r2) as [xo r3] eqn:E3.
  destruct (GetInt16 r3) as [yo r4] eqn:E4.
  assert (file_pos r4 = file_pos rcd_file + 8) as Hpos.
  { pose proof (file_pos_GetUInt16 rcd_file) as H1. rewrite E1 in H1.
    pose proof (file_pos_GetUInt16 r1) as H2. rewrite E2 in H2.
    pose proof (file_pos_GetInt16 r2) as H3. rewrite E3 in H3.
    pose proof (file_pos_GetInt16 r3) as H4. rewrite E4 in H4.
    simpl in *. lia. }
  destruct ((w =? 0) || (w >? 300) || (h =? 0) || (h >? 500)); exact Hpos.
Qed.

(** A header of width 2 and height 1 with offsets -1 and 3. *)
Example LoadSizes_small_header :
  let '(ok, this, rcd_file') :=
    LoadSizes ImageData_new (of_bytes "8PXL" 2 [2; 0; 1; 0; 255; 255; 3; 0]) 8 in
  (ok, width this, height this, xoffset this, yoffset this, file_pos rcd_file')
  = (true, 2, 1, -1, 3, 8).
Proof. vm_compute. reflexivity. Qed.

(** ** [LoadImage] *)

Lemma LoadImage_one_pixel_record nm :
  String.eqb nm "8PXL" = false ->
  exists s,
    loaded_sprite (LoadImage (of_bytes nm 1 (one_pixel_record 10 20 30)) [])
    = Some s.
Proof.
  intros Hnm. unfold LoadImage.
  change (name (of_bytes nm 1 (one_pixel_record 10 20 30))) with nm.
  rewrite Hnm. eexists. vm_compute. reflexivity.
Qed.

(** C3 (as stated, refuted): whichever tag stands for true-colour images,
    some record with another tag, and not the indexed one, is decoded and
    stored: a record tagged [ABCD] or [WXYZ] with version 1. *)
Lemma LoadImage_accepts_unknown_tag :
  ~ exists tag32, rejects_unrecognized tag32.
Proof.
  intros [tag32 H].
  assert (forall nm, nm <> tag32 -> String.eqb nm "8PXL" = false -> False) as K.
  { intros nm Hne Hnm.
    destruct (H (of_bytes nm 1 (one_pixel_record 10 20 30)) []) as [rcd' E].
    - intros [[Hn _] | [Hn _]]; simpl in Hn.
      + subst nm. discriminate Hnm.
      + exact (Hne Hn).
    - destruct (LoadImage_one_pixel_record nm Hnm) as [s Hs].
      rewrite E in Hs. discriminate Hs. }
  destruct (string_dec "ABCD" tag32) as [Heq | Hne].
  - apply (K "WXYZ"%string); [ | reflexivity].
    intros Heq'. rewrite <- Heq' in Heq. discriminate Heq.
  - apply (K "ABCD"%string); [exact Hne | reflexivity].
Qed.

(** C3 (amended): [LoadImage] rejects a record whose version is not the
    one expected for its tag, 2 for the tag [8PXL] and 1 for every other
    tag, and it does so before it reads a byte of the record: it returns
    no sprite and leaves the byte source and the store untouched.  The tag
    is compared with [8PXL] only. *)
Theorem LoadImage_rejects_wrong_version (rcd_file : RcdFileReader)
  (_sprites : list Sprite) :
  version rcd_file <> (if String.eqb (name rcd_file) "8PXL" then 2 else 1) ->
  LoadImage rcd_file _sprites = Ok (None, rcd_file, _sprites).
Proof.
  intros Hv. unfold LoadImage.
  destruct (Z.eqb_spec (version rcd_file)
              (if String.eqb (name rcd_file) "8PXL" then 2 else 1)) as [E | _].
  - contradiction.
  - reflexivity.
Qed.

Lemma LoadImage_rejects_wrong_version_witness :
  LoadImage (of_bytes "8PXL" 1 (one_pixel_record 10 20 30)) []
  = Ok (None, of_bytes "8PXL" 1 (one_pixel_record 10 20 30), []).
Proof.
  apply (LoadImage_rejects_wrong_version
           (of_bytes "8PXL" 1 (one_pixel_record 10 20 30)) []).
  vm_compute. discriminate.
Defined.

(** ** [BlitPixel] *)

Lemma stores_app colour ws1 ws2 mem :
  stores colour (ws1 ++ ws2) mem = stores colour ws2 (stores colour ws1 mem).
Proof. unfold stores. apply fold_left_app. Qed.

Section BlitPixelFacts.

Variable cr : ClippedRectangle.t.
Variables xmin xend yend width height colour : Z.

Hypothesis width_range : 0 <= width < 65536.
Hypothesis height_range : 0 <= height < 65536.
Hypothesis cw_bound : ClippedRectangle.width cr + 65536 <= 2147483648.
Hypothesis ch_bound : ClippedRectangle.height cr + 65536 <= 2147483648.

(** The tiles of one row: the loop returns, and what it does to the
    screen is a sequence of stores, each at the pixel of a tile column [k]
    whose [x] is inside the rectangle. *)
Lemma BlitPixel_row_spec (fuel : nat) :
  forall x scr,
    - 2147483648 <= x ->
    (x < xend -> 0 < width) ->
    1 <= Z.of_nat fuel -> ClippedRectangle.width cr - x < Z.of_nat fuel ->
    exists writes,
      (forall mem,
         BlitPixel_row fuel cr xend width colour x scr mem
         = Ok (stores colour writes mem))
      /\ Forall (fun a => exists k, 0 <= k /\ a = scr + k * width
                            /\ 0 <= x + k * width < ClippedRectangle.width cr
                            /\ x + k * width < xend) writes.
Proof.
  induction fuel as [ | fuel IH]; intros x scr Hx Hw Hf1 Hf;
    [simpl in Hf1; lia | ].
  cbn [BlitPixel_row].
  destruct (Z.ltb_spec x xend) as [Hlt | Hge].
  2: { exists []. split; [reflexivity | constructor]. }
  destruct (Z.geb_spec x (ClippedRectangle.width cr)) as [Hout | Hin].
  { exists []. split; [reflexivity | constructor]. }
  specialize (Hw Hlt).
  rewrite int32_small by lia.
  destruct (IH (x + width) (scr + width)) as [writes [E F]]; try lia.
  assert (Forall (fun a => exists k, 0 <= k /\ a = scr + k * width
                             /\ 0 <= x + k * width < ClippedRectangle.width cr
                             /\ x + k * width < xend) writes) as F'.
  { eapply Forall_impl; [ | exact F]. cbv beta.
    intros a [k [Hk [Ha [Hr Hr']]]]. exists (k + 1). repeat split; lia. }
  destruct (Z.geb_spec x 0) as [Hx0 | Hx0].
  - exists (scr :: writes). split; [intros mem; apply E | ].
    constructor; [ | exact F']. exists 0. repeat split; lia.
  - exists writes. split; [exact E | exact F'].
Qed.

(** The rows of tiles: the loop returns, and its stores are at pixels of
    tiles [(i, j)] that lie inside the rectangle. *)
Lemma BlitPixel_rows_spec (fuel : nat) :
  forall ymin scr_base,
    - 2147483648 <= xmin ->
    (xmin < xend -> 0 < width) ->
    - 2147483648 <= ymin ->
    (ymin < yend -> 0 < height) ->
    1 <= Z.of_nat fuel -> ClippedRectangle.height cr - ymin < Z.of_nat fuel ->
    exists writes,
      (forall mem,
         BlitPixel_rows fuel cr xmin xend yend width height colour ymin
           scr_base mem
         = Ok (stores colour writes mem))
      /\ Forall (fun a => exists i j, 0 <= i /\ 0 <= j
                   /\ a = scr_base + i * width
                          + j * int32 (height * ClippedRectangle.pitch cr)
                   /\ 0 <= xmin + i * width < ClippedRectangle.width cr
                   /\ xmin + i * width < xend
                   /\ 0 <= ymin + j * height < ClippedRectangle.height cr
                   /\ ymin + j * height < yend)
           writes.
Proof.
  induction fuel as [ | fuel IH]; intros ymin scr_base Hx Hw Hy Hh Hf1 Hf;
    [simpl in Hf1; lia | ].
  cbn [BlitPixel_rows].
  destruct (Z.ltb_spec ymin yend) as [Hlt | Hge].
  2: { exists []. split; [reflexivity | constructor]. }
  destruct (Z.geb_spec ymin (ClippedRectangle.height cr)) as [Hout | Hin].
  { exists []. split; [reflexivity | constructor]. }
  specialize (Hh Hlt).
  rewrite int32_small by lia.
  assert (exists writes1,
    (forall mem,
       (if ymin >=? 0
        then BlitPixel_row (row_fuel cr xmin) cr xend width colour xmin
               scr_base mem
        else Ok mem) = Ok (stores colour writes1 mem))
    /\ Forall (fun a => 0 <= ymin /\ exists k, 0 <= k /\ a = scr_base + k * width
                 /\ 0 <= xmin + k * width < ClippedRectangle.width cr
                 /\ xmin + k * width < xend)
         writes1)
    as [writes1 [E1 F1]].
  { destruct (Z.geb_spec ymin 0) as [Hy0 | Hy0].
    - destruct (BlitPixel_row_spec (row_fuel cr xmin) xmin scr_base)
        as [writes1 [E F]]; try assumption; try (unfold row_fuel; lia).
      exists writes1. split; [exact E | ].
      eapply Forall_impl; [ | exact F]. cbv beta.
      intros a Ha. split; [lia | exact Ha].
    - exists []. split; [reflexivity | constructor]. }
  destruct (IH (ymin + height)
              (scr_base + int32 (height * ClippedRectangle.pitch cr)))
    as [writes2 [E2 F2]];
    try assumption; try lia.
  exists (writes1 ++ writes2). split.
  - intros mem. rewrite E1. cbn [bind]. rewrite E2, stores_app. reflexivity.
  - apply Forall_app. split.
    + eapply Forall_impl; [ | exact F1]. cbv beta.
      intros a [Hy0 [k [Hk [Ha [Hr Hr']]]]]. exists k, 0. repeat split; lia.
    + eapply Forall_impl; [ | exact F2]. cbv beta.
      intros a [i [j [Hi [Hj [Ha [Hr [Hr' [Hs Hs']]]]]]]].
      exists i, (j + 1). repeat split; lia.
Qed.

End BlitPixelFacts.

(** C5: [BlitPixel] returns, and what it does to the screen is a sequence
    of stores of the colour, each at the pixel of a tile placement
    [(i, j)] whose position [(xmin + i * width, ymin + j * height)] lies
    inside the clipped rectangle, [0 <= x < cr.width] and
    [0 <= y < cr.height]; placements outside are skipped.  When [scr_base]
    is the address of [(xmin, ymin)], the pixel stored to is the pixel of
    that position in the rectangle. *)
Theorem BlitPixel_writes_inside_clip (cr : ClippedRectangle.t)
  (scr_base xmin ymin numx numy width height colour : Z) :
  - 2147483648 <= xmin < 2147483648 ->
  - 2147483648 <= ymin < 2147483648 ->
  0 <= width < 65536 ->
  0 <= height < 65536 ->
  ClippedRectangle.width cr + 65536 <= 2147483648 ->
  ClippedRectangle.height cr + 65536 <= 2147483648 ->
  exists writes,
    (forall mem,
       BlitPixel cr scr_base xmin ymin numx numy width height colour mem
       = Ok (stores colour writes mem))
    /\ Forall (fun a =>
         exists i j,
           0 <= i /\ 0 <= j
           /\ 0 <= xmin + i * width < ClippedRectangle.width cr
           /\ 0 <= ymin + j * height < ClippedRectangle.height cr
           /\ a = scr_base + i * width
                  + j * int32 (height * ClippedRectangle.pitch cr)
           /\ (scr_base = pixel_address cr xmin ymin ->
               int32 (height * ClippedRectangle.pitch cr)
               = height * ClippedRectangle.pitch cr ->
               a = pixel_address cr (xmin + i * width) (ymin + j * height)))
         writes.
Proof.
  intros Hxmin Hymin Hw Hh Hcw Hch. unfold BlitPixel.
  destruct (BlitPixel_rows_spec cr xmin (int32 (xmin + numx * width))
              (int32 (ymin + numy * height)) width height colour Hw Hh Hcw Hch
              (S (Z.to_nat (ClippedRectangle.height cr - ymin)))
              ymin scr_base) as [writes [E F]]; try lia.
  - intros Hlt. destruct (Z.eq_dec width 0) as [-> | Hne]; [ | lia].
    rewrite Z.mul_0_r, Z.add_0_r, int32_small in Hlt; lia.
  - intros Hlt. destruct (Z.eq_dec height 0) as [-> | Hne]; [ | lia].
    rewrite Z.mul_0_r, Z.add_0_r, int32_small in Hlt; lia.
  - exists writes. split; [exact E | ].
    eapply Forall_impl; [ | exact F]. cbv beta.
    intros a [i [j [Hi [Hj [Ha [Hr [_ [Hs _]]]]]]]].
    exists i, j. repeat split; try lia.
    intros Hbase Hstep. unfold pixel_address in *. rewrite Hstep in Ha.
    rewrite Ha, Hbase. ring.
Qed.

Lemma BlitPixel_writes_inside_clip_witness :
  let cr := ClippedRectangle.mk 3 2 4 100 in
  exists writes,
    (forall mem,
       BlitPixel cr 99 (-1) 0 3 2 2 1 7 mem = Ok (stores 7 writes mem))
    /\ Forall (fun a =>
         exists i j,
           0 <= i /\ 0 <= j
           /\ 0 <= -1 + i * 2 < ClippedRectangle.width cr
           /\ 0 <= 0 + j * 1 < ClippedRectangle.height cr
           /\ a = 99 + i * 2 + j * int32 (1 * ClippedRectangle.pitch cr)
           /\ (99 = pixel_address cr (-1) 0 ->
               int32 (1 * ClippedRectangle.pitch cr)
               = 1 * ClippedRectangle.pitch cr ->
               a = pixel_address cr (-1 + i * 2) (0 + j * 1)))
         writes.
Proof.
  intros cr.
  apply (BlitPixel_writes_inside_clip cr 99 (-1) 0 3 2 2 1 7); simpl; lia.
Defined.

(** The screen after the blit of the witness: of the six placements, the
    two at [x = 1] are written, those at [x = -1] and [x = 3] are not. *)
Example BlitPixel_small_screen :
  match BlitPixel (ClippedRectangle.mk 3 2 4 100) 99 (-1) 0 3 2 2 1 7
          (fun _ => 0) with
  | Ok mem' => map mem' [99; 100; 101; 102; 103; 104; 105; 106; 107]
  | _ => []
  end = [0; 0; 7; 0; 0; 0; 7; 0; 0].
Proof. vm_compute. reflexivity. Qed.

(** ** The concrete indexed image *)

(** C8 (as stated, refuted), with pixels 5 and 9 and a palette that tells
    the indices apart.  Read as file values, the jump table [[0]] marks the
    row as empty: the image loads, and the pixel at (0, 0) is the colour
    of index 0, not of index 5.  Read as the rebased table (file value 4),
    the control byte [0x81] skips one column, the row covers three columns
    of a width of 2, and the load fails. *)
Lemma indexed_scenario_as_stated_fails :
  let _palette := fun i => 1000 + i in
  let this := ImageData8bpp.new (sized 1 2 1) in
  (exists imd rcd_file',
     ImageData8bpp.LoadData this
       (of_bytes "8PXL" 2 (one_row_payload 0 129 5 9)) 8
     = Ok (true, imd, rcd_file')
     /\ ImageData8bpp.GetPixel _palette imd 0 0 None tt = Ok (_palette 0)
     /\ _palette 0 <> _palette 5)
  /\ (exists imd rcd_file',
        ImageData8bpp.LoadData this
          (of_bytes "8PXL" 2 (one_row_payload 4 129 5 9)) 8
        = Ok (false, imd, rcd_file')).
Proof.
  cbv zeta. split.
  - eexists. eexists. split; [vm_compute; reflexivity | ].
    split; [vm_compute; reflexivity | vm_compute; discriminate].
  - eexists. eexists. vm_compute. reflexivity.
Qed.

(** C8 (amended): the indexed image of width 2 and height 1 whose
    jump-table entry points at the row (file value 4, rebased to offset 0)
    and whose row data is [[0x80, 0x02, idx0, idx1]] (skip 0, two pixels,
    last run) passes the validation of [LoadData]; on the loaded image the
    pixel at (0, 0) is the palette colour of [idx0], the pixel at (1, 0)
    that of [idx1], and the pixel at (2, 0) the colour of index 0.  With
    the control byte [0x81] the run skips one column and the load is
    rejected; with the jump-table file value 0 the row is empty, the load
    succeeds and the pixels of the row have the colour of index 0. *)
Theorem indexed_two_pixel_scenario {GradientShift : Type}
  (shift : GradientShift) (_palette : Z -> Z) (idx0 idx1 : Z) :
  0 <= idx0 < 256 -> 0 <= idx1 < 256 ->
  let this := ImageData8bpp.new (sized 1 2 1) in
  (exists imd rcd_file',
     ImageData8bpp.LoadData this
       (of_bytes "8PXL" 2 (one_row_payload 4 128 idx0 idx1)) 8
     = Ok (true, imd, rcd_file')
     /\ ImageData8bpp.GetPixel _palette imd 0 0 None shift = Ok (_palette idx0)
     /\ ImageData8bpp.GetPixel _palette imd 1 0 None shift = Ok (_palette idx1)
     /\ ImageData8bpp.GetPixel _palette imd 2 0 None shift = Ok (_palette 0))
  /\ (exists imd rcd_file',
        ImageData8bpp.LoadData this
          (of_bytes "8PXL" 2 (one_row_payload 4 129 idx0 idx1)) 8
        = Ok (false, imd, rcd_file'))
  /\ (exists imd rcd_file',
        ImageData8bpp.LoadData this
          (of_bytes "8PXL" 2 (one_row_payload 0 129 idx0 idx1)) 8
        = Ok (true, imd, rcd_file')
        /\ ImageData8bpp.GetPixel _palette imd 0 0 None shift = Ok (_palette 0)
        /\ ImageData8bpp.GetPixel _palette imd 1 0 None shift = Ok (_palette 0)).
Proof.
  intros H0 H1. cbv zeta.
  split; [ | split].
  - exists (ImageData8bpp.mk (sized 1 2 1) [0] [128; 2; idx0; idx1]).
    eexists. split; [ | repeat split; vm_compute; reflexivity].
    rewrite <- (uint8_small idx0 H0) at 2.
    rewrite <- (uint8_small idx1 H1) at 2.
    vm_compute. reflexivity.
  - eexists. eexists. vm_compute. reflexivity.
  - exists (ImageData8bpp.mk (sized 1 2 1) [INVALID_JUMP] [129; 2; idx0; idx1]).
    eexists. split; [ | repeat split; vm_compute; reflexivity].
    rewrite <- (uint8_small idx0 H0) at 2.
    rewrite <- (uint8_small idx1 H1) at 2.
    vm_compute. reflexivity.
Qed.

Lemma indexed_two_pixel_scenario_witness :
  let _palette := fun i => 1000 + i in
  let this := ImageData8bpp.new (sized 1 2 1) in
  (exists imd rcd_file',
     ImageData8bpp.LoadData this
       (of_bytes "8PXL" 2 (one_row_payload 4 128 5 9)) 8
     = Ok (true, imd, rcd_file')
     /\ ImageData8bpp.GetPixel _palette imd 0 0 None tt = Ok (_palette 5)
     /\ ImageData8bpp.GetPixel _palette imd 1 0 None tt = Ok (_palette 9)
     /\ ImageData8bpp.GetPixel _palette imd 2 0 None tt = Ok (_palette 0))
  /\ (exists imd rcd_file',
        ImageData8bpp.LoadData this
          (of_bytes "8PXL" 2 (one_row_payload 4 129 5 9)) 8
        = Ok (false, imd, rcd_file'))
  /\ (exists imd rcd_file',
        ImageData8bpp.LoadData this
          (of_bytes "8PXL" 2 (one_row_payload 0 129 5 9)) 8
        = Ok (true, imd, rcd_file')
        /\ ImageData8bpp.GetPixel _palette imd 0 0 None tt = Ok (_palette 0)
        /\ ImageData8bpp.GetPixel _palette imd 1 0 None tt = Ok (_palette 0)).
Proof.
  intros _palette this.
  apply (indexed_two_pixel_scenario tt _palette 5 9); lia.
Defined.

(** ** The concrete true-colour image *)

(** C9 (as stated, refuted), with the colour (10, 20, 30): the payload
    with length word 5, followed by a length word 0, does not pass the
    validation of [LoadData]. *)
Lemma true_colour_scenario_as_stated_fails :
  exists imd rcd_file',
    ImageData32bpp.LoadData (ImageData32bpp.new (sized 0 1 1))
      (of_bytes "32PX" 1 (one_pixel_payload 5 10 20 30 [0; 0])) 9
    = Ok (false, imd, rcd_file').
Proof. eexists. eexists. vm_compute. reflexivity. Qed.

(** C9 (amended): the true-colour image of width 1 and height 1 whose
    payload is the single line of mode byte 1 (kind 0, count 1), three
    colour bytes and the mode byte 0, behind a length word of 7 (the
    length of the line counted from the length word itself) or of 0 (last
    line), passes the validation of [LoadData].  With the length word 5
    the line is rejected, and a length word 0 after the line is a second
    line, which an image of height 1 does not have. *)
Theorem true_colour_one_pixel_scenario (r g b : Z) :
  let this := ImageData32bpp.new (sized 0 1 1) in
  (exists imd rcd_file',
     ImageData32bpp.LoadData this
       (of_bytes "32PX" 1 (one_pixel_payload 7 r g b [])) 7
     = Ok (true, imd, rcd_file'))
  /\ (exists imd rcd_file',
        ImageData32bpp.LoadData this
          (of_bytes "32PX" 1 (one_pixel_payload 0 r g b [])) 7
        = Ok (true, imd, rcd_file'))
  /\ (exists imd rcd_file',
        ImageData32bpp.LoadData this
          (of_bytes "32PX" 1 (one_pixel_payload 5 r g b [0; 0])) 9
        = Ok (false, imd, rcd_file'))
  /\ (exists imd rcd_file',
        ImageData32bpp.LoadData this
          (of_bytes "32PX" 1 (one_pixel_payload 7 r g b [0; 0])) 9
        = Ok (false, imd, rcd_file')).
Proof.
  cbv zeta. repeat split; eexists; eexists; vm_compute; reflexivity.
Qed.

(** The pixel query of a true-colour image at column 0 of line 0 never
    enters its loop over the runs (line 380) and answers with the colour
    of index 0, whatever the image holds. *)
Lemma GetPixel32_first_pixel {GradientShift : Type} (_palette : Z -> Z)
  (GetGradientShiftFunc : GradientShift -> Z -> Z) (this : ImageData32bpp.t)
  (recolour : option (Recolouring GradientShift)) (shift : GradientShift) :
  ImageData32bpp.GetPixel _palette GetGradientShiftFunc this 0 0 recolour shift
  = Ok (_palette 0).
Proof.
  unfold ImageData32bpp.GetPixel.
  destruct (0 >=? width (ImageData32bpp.base this)); [reflexivity | ].
  destruct (0 >=? height (ImageData32bpp.base this)); reflexivity.
Qed.

(** On a line of one run of two opaque pixels, the query at column 1 gives
    the second pixel. *)
Example GetPixel32_second_pixel :
  ImageData32bpp.GetPixel (fun i => 1000 + i) (fun (_ : unit) c => c)
    (ImageData32bpp.mk (sized 0 2 1) [0; 0; 2; 10; 20; 30; 40; 50; 60; 0])
    1 0 None tt
  = Ok (MakeRGBA 40 50 60 OPAQUE).
Proof. vm_compute. reflexivity. Qed.

(** ** Buffers *)

Lemma read_Ok buf i v :
  read buf i = Ok v -> 0 <= i < Z.of_nat (List.length buf) /\ In v buf.
Proof.
  unfold read. destruct (Z.ltb_spec i 0) as [Hneg | Hpos]; [discriminate | ].
  destruct (nth_error buf (Z.to_nat i)) as [v' | ] eqn:E; [ | discriminate].
  intros H. injection H as <-. split.
  - assert (Z.to_nat i < List.length buf)%nat as Hlt
      by (apply nth_error_Some; rewrite E; discriminate).
    lia.
  - eapply nth_error_In. exact E.
Qed.

Lemma read_in_range buf i :
  0 <= i < Z.of_nat (List.length buf) -> exists v, read buf i = Ok v /\ In v buf.
Proof.
  intros Hi. unfold read.
  destruct (Z.ltb_spec i 0) as [Hneg | Hpos]; [lia | ].
  destruct (nth_error buf (Z.to_nat i)) as [v | ] eqn:E.
  - exists v. split; [reflexivity | eapply nth_error_In; exact E].
  - apply nth_error_None in E. lia.
Qed.

Lemma read_middle (pre : list Z) v post :
  read (pre ++ v :: post) (Z.of_nat (List.length pre)) = Ok v.
Proof.
  unfold read. destruct (Z.ltb_spec (Z.of_nat (List.length pre)) 0); [lia | ].
  rewrite Nat2Z.id, nth_error_app2 by lia.
  rewrite Nat.sub_diag. reflexivity.
Qed.

Lemma bytes_In buf v : bytes buf -> In v buf -> 0 <= v < 256.
Proof. intros Hb Hin. exact (proj1 (Forall_forall _ _) Hb v Hin). Qed.

Lemma land_127_range b : 0 <= Z.land b 127 < 128.
Proof.
  change 127 with (Z.ones 7). rewrite Z.land_ones by lia.
  apply Z.mod_pos_bound. reflexivity.
Qed.

Lemma land_63_range b : 0 <= Z.land b 63 < 64.
Proof.
  change 63 with (Z.ones 6). rewrite Z.land_ones by lia.
  apply Z.mod_pos_bound. reflexivity.
Qed.

Lemma GetBlob_bytes_length n rcd : List.length (GetBlob_bytes n rcd) = n.
Proof.
  revert rcd. induction n as [ | n IH]; intros rcd; [reflexivity | ].
  cbn [GetBlob_bytes GetUInt8]. cbn [List.length]. rewrite IH. reflexivity.
Qed.

Lemma GetBlob_bytes_bytes n rcd : bytes (GetBlob_bytes n rcd).
Proof.
  revert rcd. induction n as [ | n IH]; intros rcd; [constructor | ].
  cbn [GetBlob_bytes GetUInt8]. constructor; [apply uint8_range | apply IH].
Qed.

(** ** Validation of indexed images *)

Section IndexedRows.

Variables (data : list Z) (length width : Z).

Hypothesis data_bytes : bytes data.
Hypothesis data_length : length = Z.of_nat (List.length data).
Hypothesis length_bound : length + 512 <= 4294967296.
Hypothesis width_range : 0 <= width < 65536.

(** The header of a run whose first byte is inside the buffer and which
    has a byte behind it. *)
Lemma run_header offset :
  0 <= offset -> offset + 2 < length ->
  exists rel_pos count,
    read data offset = Ok rel_pos /\ read data (offset + 1) = Ok count
    /\ 0 <= rel_pos < 256 /\ 0 <= count < 256.
Proof.
  intros H0 H2.
  destruct (read_in_range data offset) as [rel_pos [E1 I1]]; [lia | ].
  destruct (read_in_range data (offset + 1)) as [count [E2 I2]]; [lia | ].
  exists rel_pos, count. repeat split; try assumption;
    eapply bytes_In; eassumption.
Qed.

(** One iteration of the validation loop, without wrap-around. *)
Lemma verify_row_step fuel offset xpos rel_pos count :
  0 <= offset < length -> 0 <= xpos <= width ->
  offset + 2 < length ->
  read data offset = Ok rel_pos -> read data (offset + 1) = Ok count ->
  0 <= rel_pos < 256 -> 0 <= count < 256 ->
  ImageData8bpp.verify_row (S fuel) data length width offset xpos
  = if Z.land rel_pos 128 =? 0 then
      if (xpos + (Z.land rel_pos 127 + count) >=? width)
         || (offset + (2 + count) >=? length)
      then Ok false
      else ImageData8bpp.verify_row fuel data length width
             (offset + (2 + count)) (xpos + (Z.land rel_pos 127 + count))
    else
      if (xpos + (Z.land rel_pos 127 + count) >? width)
         || (offset + (2 + count) >? length)
      then Ok false
      else Ok true.
Proof.
  intros Ho Hx H2 E1 E2 Hr Hc.
  pose proof (land_127_range rel_pos) as Hs.
  cbn [ImageData8bpp.verify_row].
  rewrite (uint32_small (offset + 2)) by lia.
  destruct (Z.geb_spec (offset + 2) length) as [Hge | _]; [lia | ].
  rewrite (uint32_small (offset + 1)) by lia.
  rewrite E1, E2. cbn [bind].
  rewrite (uint32_small (xpos + _)) by lia.
  rewrite (uint32_small (offset + _)) by lia.
  reflexivity.
Qed.

(** The validation of a row returns, and it returns [true] exactly for
    the rows of [row_accepted]. *)
Lemma verify_row_spec fuel :
  forall offset xpos,
    0 <= offset < length -> 0 <= xpos <= width ->
    length - offset < 2 * Z.of_nat fuel ->
    exists ok,
      ImageData8bpp.verify_row fuel data length width offset xpos = Ok ok
      /\ (ok = true <-> row_accepted data length width offset xpos).
Proof.
  induction fuel as [ | fuel IH]; intros offset xpos Ho Hx Hf; [lia | ].
  destruct (Z.lt_ge_cases (offset + 2) length) as [H2 | H2].
  2: { exists false. split.
       - cbn [ImageData8bpp.verify_row].
         rewrite (uint32_small (offset + 2)) by lia.
         destruct (Z.geb_spec (offset + 2) length); [reflexivity | lia].
       - split; [discriminate | ]. intros Hacc. inversion Hacc; lia. }
  destruct (run_header offset) as [rel_pos [count [E1 [E2 [Hr Hc]]]]]; try lia.
  pose proof (land_127_range rel_pos) as Hs.
  rewrite (verify_row_step fuel offset xpos rel_pos count) by assumption.
  destruct (Z.eqb_spec (Z.land rel_pos 128) 0) as [Hbit | Hbit].
  - destruct (Z.geb_spec (xpos + (Z.land rel_pos 127 + count)) width) as [Hxw | Hxw].
    { exists false. split; [reflexivity | ]. split; [discriminate | ].
      intros Hacc. inversion Hacc; subst; same_reads; try contradiction; lia. }
    destruct (Z.geb_spec (offset + (2 + count)) length) as [Hol | Hol].
    { exists false. split; [reflexivity | ]. split; [discriminate | ].
      intros Hacc. inversion Hacc; subst; same_reads; try contradiction; lia. }
    cbn [orb].
    destruct (IH (offset + (2 + count)) (xpos + (Z.land rel_pos 127 + count)))
      as [ok [E K]]; try lia.
    exists ok. split; [exact E | ]. rewrite K. split.
    + intros Hacc. eapply accepted_more; eassumption || lia.
    + intros Hacc. inversion Hacc; subst; same_reads; try contradiction; assumption.
  - destruct (Z.gtb_spec (xpos + (Z.land rel_pos 127 + count)) width) as [Hxw | Hxw].
    { exists false. split; [reflexivity | ]. split; [discriminate | ].
      intros Hacc. inversion Hacc; subst; same_reads; try contradiction; lia. }
    destruct (Z.gtb_spec (offset + (2 + count)) length) as [Hol | Hol].
    { exists false. split; [reflexivity | ]. split; [discriminate | ].
      intros Hacc. inversion Hacc; subst; same_reads; try contradiction; lia. }
    exists true. split; [reflexivity | ]. split; [ | reflexivity].
    intros _. eapply accepted_last; eassumption || lia.
Qed.

End IndexedRows.

Section IndexedImages.

Variables (data : list Z) (length width : Z).

Hypothesis data_bytes : bytes data.
Hypothesis data_length : length = Z.of_nat (List.length data).
Hypothesis length_bound : length + 512 <= 4294967296.
Hypothesis width_range : 0 <= width < 65536.

(** The validation of the rows returns, and it returns [true] exactly
    when every row that is not empty is accepted. *)
Lemma verify_rows_spec (rest : list Z) :
  forall pre,
    Forall (table_entry length) rest ->
    exists ok,
      ImageData8bpp.verify_rows (List.length rest) (pre ++ rest) data length
        width (Z.of_nat (List.length pre)) = Ok ok
      /\ (ok = true <->
          Forall (fun offset => offset = INVALID_JUMP
                                \/ row_accepted data length width offset 0) rest).
Proof.
  induction rest as [ | offset rest IH]; intros pre Hentries.
  { exists true. split; [reflexivity | split; [constructor | reflexivity]]. }
  pose proof (Forall_inv Hentries) as Hentry.
  pose proof (Forall_inv_tail Hentries) as Hrest.
  cbn [List.length ImageData8bpp.verify_rows].
  rewrite read_middle. cbn [bind].
  specialize (IH (pre ++ [offset]) Hrest).
  rewrite <- app_assoc in IH. cbn [app] in IH.
  rewrite length_app in IH. cbn [List.length] in IH.
  replace (Z.of_nat (List.length pre + 1)) with (Z.of_nat (List.length pre) + 1)
    in IH by lia.
  destruct IH as [ok [E K]].
  destruct (Z.eqb_spec offset INVALID_JUMP) as [Hinv | Hinv].
  - exists ok. split; [exact E | ]. rewrite K. split.
    + intros H. constructor; [left; exact Hinv | exact H].
    + intros H. exact (Forall_inv_tail H).
  - destruct Hentry as [Hinv' | Hoff]; [contradiction | ].
    destruct (verify_row_spec data length width data_bytes data_length
                length_bound width_range (S (List.length data)) offset 0)
      as [ok1 [E1 K1]]; try lia.
    rewrite E1. cbn [bind]. destruct ok1.
    + exists ok. split; [exact E | ]. rewrite K. split.
      * intros H. constructor; [right; apply K1; reflexivity | exact H].
      * intros H. exact (Forall_inv_tail H).
    + exists false. split; [reflexivity | ]. split; [discriminate | ].
      intros H. destruct (Forall_inv H) as [Hx | Hx]; [contradiction | ].
      apply K1 in Hx. discriminate Hx.
Qed.

Variable _palette : Z -> Z.

(** The pixel query walks an accepted row inside the buffer and returns. *)
Lemma GetPixel_walk_accepted (recolour_table : option (Z -> Z)) (xoffset : Z)
  offset xpos :
  row_accepted data length width offset xpos ->
  forall fuel,
    0 <= offset -> 0 <= xpos ->
    length - offset < 2 * Z.of_nat fuel ->
    exists v,
      ImageData8bpp.GetPixel_walk _palette fuel data xoffset recolour_table
        offset xpos = Ok v.
Proof.
  induction 1 as [offset xpos rel_pos count H2 E1 E2 Hbit Hx Ho
                 | offset xpos rel_pos count H2 E1 E2 Hbit Hx Ho Hacc IH];
    intros fuel Hoff Hxpos Hf; (destruct fuel as [ | fuel]; [lia | ]);
    pose proof (land_127_range rel_pos) as Hs;
    pose proof (bytes_In data rel_pos data_bytes (proj2 (read_Ok _ _ _ E1))) as Hr;
    pose proof (bytes_In data count data_bytes (proj2 (read_Ok _ _ _ E2))) as Hc;
    cbn [ImageData8bpp.GetPixel_walk];
    (destruct (Z.leb_spec xpos xoffset) as [Hle | Hgt];
     [ | eexists; reflexivity]);
    rewrite (uint32_small (offset + 1)) by lia;
    rewrite E1, E2; cbn [bind];
    rewrite (uint16_small (xpos + _)) by lia;
    (destruct (Z.gtb_spec (xpos + Z.land rel_pos 127) xoffset) as [Hpast | Hin];
     [eexists; reflexivity | ]);
    (destruct (Z.ltb_spec (xoffset - (xpos + Z.land rel_pos 127)) count)
       as [Hrun | Hnext];
     [ rewrite uint32_small by lia;
       destruct (read_in_range data
                   (offset + 2 + xoffset - (xpos + Z.land rel_pos 127)))
         as [pixel [Ep _]]; [lia | ];
       rewrite Ep; cbn [bind]; eexists; reflexivity | ]);
    rewrite (uint16_small (_ + count)) by lia;
    rewrite (uint32_small (offset + _)) by lia.
  - destruct (Z.eqb_spec (Z.land rel_pos 128) 0) as [Hz | _]; [contradiction | ].
    eexists. reflexivity.
  - rewrite Hbit. cbn [Z.eqb negb].
    replace (xpos + Z.land rel_pos 127 + count)
      with (xpos + (Z.land rel_pos 127 + count)) by lia.
    apply IH; lia.
Qed.

End IndexedImages.

(** ** Loading an indexed image *)

Lemma load_table_spec n :
  forall jmp_table length rcd_file acc loaded table rcd_file',
    ImageData8bpp.load_table n jmp_table length rcd_file acc
    = (Some loaded, table, rcd_file') ->
    Forall (table_entry length) acc ->
    table = loaded
    /\ List.length loaded = (List.length acc + n)%nat
    /\ Forall (table_entry length) loaded.
Proof.
  induction n as [ | n IH]; intros jmp_table length rcd_file acc loaded table
    rcd_file' E Hacc; cbn [ImageData8bpp.load_table] in E.
  { injection E as <- <- _. repeat split; [lia | exact Hacc]. }
  destruct (GetUInt32 rcd_file) as [dest rcd1].
  destruct (dest =? 0).
  - apply IH in E.
    + rewrite length_app in E. cbn [List.length] in E.
      destruct E as [E1 [E2 E3]]. repeat split; [exact E1 | lia | exact E3].
    + apply Forall_app. split; [exact Hacc | ].
      constructor; [left; reflexivity | constructor].
  - destruct (Z.geb_spec (uint32 (dest - jmp_table)) length) as [Hge | Hlt];
      [discriminate E | ].
    apply IH in E.
    + rewrite length_app in E. cbn [List.length] in E.
      destruct E as [E1 [E2 E3]]. repeat split; [exact E1 | lia | exact E3].
    + apply Forall_app. split; [exact Hacc | ].
      constructor; [ | constructor].
      right. pose proof (uint32_range (dest - jmp_table)). lia.
Qed.

(** [LoadData] behind a jump table that has loaded: the data is read and
    the result is the result of the validation of the rows. *)
Lemma LoadData8_validation (this : ImageData8bpp.t) rcd_file length table rcd1 :
  let h := height (ImageData8bpp.base this) in
  4 * h < length ->
  ImageData8bpp.load_table (Z.to_nat h) (4 * h) (length - 4 * h) rcd_file []
  = (Some table, table, rcd1) ->
  ImageData8bpp.LoadData this rcd_file length
  = (ok <- ImageData8bpp.verify_rows (Z.to_nat h) table
             (fst (GetBlob rcd1 (length - 4 * h))) (length - 4 * h)
             (width (ImageData8bpp.base this)) 0 ;;
     Ok (ok,
         ImageData8bpp.mk (ImageData8bpp.base this) table
           (fst (GetBlob rcd1 (length - 4 * h))),
         snd (GetBlob rcd1 (length - 4 * h)))).
Proof.
  intros h Hlong Et. unfold ImageData8bpp.LoadData. fold h.
  destruct (Z.leb_spec length (4 * h)) as [Hshort | _]; [lia | ].
  rewrite Et. reflexivity.
Qed.

Lemma LoadData8_loaded (this : ImageData8bpp.t) rcd_file length imd rcd_file' :
  0 <= width (ImageData8bpp.base this) < 65536 ->
  0 <= height (ImageData8bpp.base this) ->
  length + 512 <= 4294967296 ->
  ImageData8bpp.LoadData this rcd_file length = Ok (true, imd, rcd_file') ->
  loaded8 imd /\ ImageData8bpp.base imd = ImageData8bpp.base this.
Proof.
  intros Hw Hh Hlen E. unfold ImageData8bpp.LoadData in E.
  cbv zeta in E. cbn [ImageData8bpp.base] in E.
  set (h := height (ImageData8bpp.base this)) in *.
  destruct (Z.leb_spec length (4 * h)) as [Hshort | Hlong]; [discriminate E | ].
  destruct (ImageData8bpp.load_table (Z.to_nat h) (4 * h) (length - 4 * h)
              rcd_file []) as [[loaded table] rcd1] eqn:Et.
  destruct loaded as [loaded | ]; [ | discriminate E].
  apply load_table_spec in Et; [ | constructor].
  destruct Et as [-> [Hn Hentries]]. cbn [List.length Nat.add] in Hn.
  unfold GetBlob in E. cbn [fst snd] in E.
  set (data := GetBlob_bytes (Z.to_nat (length - 4 * h)) rcd1) in *.
  assert (length - 4 * h = Z.of_nat (List.length data)) as Hdata.
  { unfold data. rewrite GetBlob_bytes_length. lia. }
  assert (bytes data) as Hbytes by apply GetBlob_bytes_bytes.
  destruct (verify_rows_spec data (length - 4 * h)
              (width (ImageData8bpp.base this)) Hbytes Hdata ltac:(lia) Hw
              loaded [] Hentries) as [ok [Ev K]].
  cbn [app List.length Z.of_nat] in Ev. rewrite Hn in Ev.
  rewrite Ev in E. cbn [bind] in E.
  injection E as -> <- _. cbn [ImageData8bpp.base].
  split; [ | reflexivity].
  unfold loaded8. cbn [ImageData8bpp.base ImageData8bpp.table ImageData8bpp.data].
  rewrite <- Hdata. repeat split; try assumption; try lia.
  assert (Forall (fun offset => offset = INVALID_JUMP
                   \/ row_accepted data (length - 4 * h)
                        (width (ImageData8bpp.base this)) offset 0) loaded)
    as Hacc by (apply K; reflexivity).
  clear - Hacc Hentries Hlen Hlong.
  induction loaded as [ | offset loaded IH]; constructor.
  - destruct (Forall_inv Hacc) as [Hinv | Hrow]; [left; exact Hinv | ].
    destruct (Forall_inv Hentries) as [Hinv | Hoff]; [left; exact Hinv | ].
    right. split; assumption.
  - apply IH; [exact (Forall_inv_tail Hentries) | exact (Forall_inv_tail Hacc)].
Qed.

Lemma GetUInt16_nonneg rcd : 0 <= fst (GetUInt16 rcd).
Proof.
  unfold GetUInt16, GetUInt8. cbn [fst].
  apply Z.lor_nonneg. split; [apply uint8_range | ].
  apply Z.shiftl_nonneg. apply uint8_range.
Qed.

Lemma LoadSizes_true this rcd_file length this' rcd_file' :
  LoadSizes this rcd_file length = (true, this', rcd_file') ->
  8 <= length <= 8 + 100 * 1024
  /\ 1 <= width this' <= 300 /\ 1 <= height this' <= 500
  /\ flags this' = flags this.
Proof.
  unfold LoadSizes.
  destruct (Z.ltb_spec length 8) as [Hshort | Hlong]; [discriminate | ].
  pose proof (GetUInt16_nonneg rcd_file) as Hw.
  destruct (GetUInt16 rcd_file) as [w r1].
  pose proof (GetUInt16_nonneg r1) as Hh.
  destruct (GetUInt16 r1) as [h r2].
  destruct (GetInt16 r2) as [xo r3].
  destruct (GetInt16 r3) as [yo r4].
  cbn [fst] in Hw, Hh.
  destruct (Z.eqb_spec w 0); [discriminate | ].
  destruct (Z.gtb_spec w 300); [discriminate | ].
  destruct (Z.eqb_spec h 0); [discriminate | ].
  destruct (Z.gtb_spec h 500); [discriminate | ].
  cbn [orb]. destruct (Z.leb_spec (length - 8) (100 * 1024)); [ | discriminate].
  intros E. injection E as <- _. cbn [width height flags]. lia.
Qed.

(** ** Pixel queries on indexed images *)

Lemma GetPixel8_outside {GradientShift : Type} (_palette : Z -> Z)
  (imd : ImageData8bpp.t) (xoffset yoffset : Z)
  (recolour : option (Recolouring GradientShift)) (shift : GradientShift) :
  width (ImageData8bpp.base imd) <= xoffset
  \/ height (ImageData8bpp.base imd) <= yoffset ->
  ImageData8bpp.GetPixel _palette imd xoffset yoffset recolour shift
  = Ok (_palette 0).
Proof.
  intros Hout. unfold ImageData8bpp.GetPixel.
  destruct (Z.geb_spec xoffset (width (ImageData8bpp.base imd))) as [Hx | Hx];
    [reflexivity | ].
  destruct (Z.geb_spec yoffset (height (ImageData8bpp.base imd))) as [Hy | Hy];
    [reflexivity | lia].
Qed.

Lemma GetPixel8_inside {GradientShift : Type} (_palette : Z -> Z)
  (imd : ImageData8bpp.t) (xoffset yoffset : Z)
  (recolour : option (Recolouring GradientShift)) (shift : GradientShift) :
  loaded8 imd ->
  0 <= xoffset < width (ImageData8bpp.base imd) ->
  0 <= yoffset < height (ImageData8bpp.base imd) ->
  exists v,
    ImageData8bpp.GetPixel _palette imd xoffset yoffset recolour shift = Ok v.
Proof.
  intros [Hbytes [Hlen [Hw [Hrows Hacc]]]] Hx Hy. unfold ImageData8bpp.GetPixel.
  destruct (Z.geb_spec xoffset (width (ImageData8bpp.base imd))); [lia | ].
  destruct (Z.geb_spec yoffset (height (ImageData8bpp.base imd))); [lia | ].
  destruct (read_in_range (ImageData8bpp.table imd) yoffset) as [offset [E Hin]];
    [lia | ].
  rewrite E. cbn [bind].
  destruct (Z.eqb_spec offset INVALID_JUMP) as [Hinv | Hinv];
    [eexists; reflexivity | ].
  destruct (proj1 (Forall_forall _ _) Hacc offset Hin) as [Hinv' | [Hoff Hrow]];
    [contradiction | ].
  eapply GetPixel_walk_accepted; try eassumption; try reflexivity; lia.
Qed.

Lemma LoadSizes_size this rcd_file length :
  size (snd (LoadSizes this rcd_file length)) = size rcd_file.
Proof.
  unfold LoadSizes. destruct (length <? 8); [reflexivity | ].
  unfold GetInt16, GetUInt16, GetUInt8, advance. cbn [fst snd size].
  match goal with |- context [if ?c then _ else _] => destruct c end;
    reflexivity.
Qed.

Lemma LoadImage_Sprite8 rcd_file _sprites imd rcd_file' _sprites' :
  LoadImage rcd_file _sprites = Ok (Some (Sprite8 imd), rcd_file', _sprites') ->
  loaded8 imd.
Proof.
  unfold LoadImage. intros E.
  destruct (negb (version rcd_file =?
                  (if String.eqb (name rcd_file) "8PXL" then 2 else 1)));
    [discriminate E | ].
  destruct (LoadSizes _ rcd_file (size rcd_file)) as [[sizes_ok base] rcd1] eqn:Es.
  destruct sizes_ok; [ | discriminate E].
  pose proof (LoadSizes_size (mkImageData
                (if String.eqb (name rcd_file) "8PXL"
                 then Z.shiftl 1 IFG_IS_8BPP else 0) 0 0 0 0)
                rcd_file (size rcd_file)) as Hsame.
  rewrite Es in Hsame. cbn [snd] in Hsame. rewrite Hsame in E.
  apply LoadSizes_true in Es. destruct Es as [Hsize [Hw [Hh _]]].
  unfold Sprite_LoadData in E.
  destruct (String.eqb (name rcd_file) "8PXL").
  - destruct (ImageData8bpp.LoadData (ImageData8bpp.new base) rcd1
                (uint32 (size rcd_file - 8))) as [[[ok imd1] rcd2] | | ] eqn:Ed;
      cbn in E; try discriminate E.
    destruct ok; [ | discriminate E].
    injection E as <- _ _.
    rewrite uint32_small in Ed by lia.
    apply LoadData8_loaded in Ed; cbn [ImageData8bpp.new ImageData8bpp.base];
      try lia.
    exact (proj1 Ed).
  - destruct (ImageData32bpp.LoadData (ImageData32bpp.new base) rcd1
                (uint32 (size rcd_file - 8))) as [[[ok imd1] rcd2] | | ];
      cbn in E; try discriminate E.
    destruct ok; discriminate E.
Qed.

(** C4: on an indexed image that [LoadImage] returned, that is, one that
    passed the validation of [LoadData], the pixel query at a position
    inside the image returns a value (it terminates and reads inside its
    buffers), and at a position with [x >= width] or [y >= height] it
    returns the colour of index 0. *)
Theorem GetPixel8_on_loaded_image {GradientShift : Type} (_palette : Z -> Z)
  (rcd_file rcd_file' : RcdFileReader) (_sprites _sprites' : list Sprite)
  (imd : ImageData8bpp.t) (xoffset yoffset : Z)
  (recolour : option (Recolouring GradientShift)) (shift : GradientShift) :
  LoadImage rcd_file _sprites = Ok (Some (Sprite8 imd), rcd_file', _sprites') ->
  (0 <= xoffset < width (ImageData8bpp.base imd) ->
   0 <= yoffset < height (ImageData8bpp.base imd) ->
   exists v,
     ImageData8bpp.GetPixel _palette imd xoffset yoffset recolour shift = Ok v)
  /\ (width (ImageData8bpp.base imd) <= xoffset
      \/ height (ImageData8bpp.base imd) <= yoffset ->
      ImageData8bpp.GetPixel _palette imd xoffset yoffset recolour shift
      = Ok (_palette 0)).
Proof.
  intros E. apply LoadImage_Sprite8 in E. split.
  - intros Hx Hy. apply GetPixel8_inside; assumption.
  - apply GetPixel8_outside.
Qed.

Lemma GetPixel8_on_loaded_image_witness :
  let rcd_file :=
    of_bytes "8PXL" 2 ([2; 0; 1; 0; 0; 0; 0; 0] ++ one_row_payload 4 128 5 9) in
  let imd := ImageData8bpp.mk (sized 1 2 1) [0] [128; 2; 5; 9] in
  let _palette := fun i => 1000 + i in
  (0 <= 1 < width (ImageData8bpp.base imd) ->
   0 <= 0 < height (ImageData8bpp.base imd) ->
   exists v, ImageData8bpp.GetPixel _palette imd 1 0 None tt = Ok v)
  /\ (width (ImageData8bpp.base imd) <= 1
      \/ height (ImageData8bpp.base imd) <= 0 ->
      ImageData8bpp.GetPixel _palette imd 1 0 None tt = Ok (_palette 0)).
Proof.
  intros rcd_file imd _palette.
  apply (GetPixel8_on_loaded_image _palette rcd_file (advance rcd_file 16)
           [] [Sprite8 imd] imd 1 0 None tt).
  vm_compute. reflexivity.
Defined.

(** ** The sums of the rows of an indexed image *)

Lemma row_accepted_sums data length width offset xpos :
  row_accepted data length width offset xpos ->
  exists total, row_sums_to data length offset xpos total /\ total <= width.
Proof.
  induction 1 as [offset xpos rel_pos count H2 E1 E2 Hbit Hx Ho
                 | offset xpos rel_pos count H2 E1 E2 Hbit Hx Ho Hacc IH].
  - exists (xpos + (Z.land rel_pos 127 + count)). split; [ | exact Hx].
    eapply sums_last; eassumption.
  - destruct IH as [total [Hsum Hle]]. exists total. split; [ | exact Hle].
    eapply sums_more; eassumption.
Qed.

Lemma row_sums_to_functional data length offset sum total1 total2 :
  row_sums_to data length offset sum total1 ->
  row_sums_to data length offset sum total2 ->
  total1 = total2.
Proof.
  intros H1. revert total2.
  induction H1 as [offset sum rel_pos count E1 E2 Hbit Ho
                  | offset sum rel_pos count total E1 E2 Hbit Hrest IH];
    intros total2 H2; inversion H2; subst; same_reads;
    try contradiction; try reflexivity.
  apply IH. assumption.
Qed.

(** C2 (as stated, refuted).  First: the row [[0x80, 0x01]] with one
    pixel, in a buffer of four bytes, sums to 1 in an image of width 2 (it
    is the valid row [[0x80, 0x02, 5, 9]] with its count byte changed), and
    [LoadData] succeeds.  Second: the row [[0x85, 0x00]] sums to exactly
    the width 5 and ends with a run with the high bit that lies within the
    buffer, and [LoadData] fails. *)
Lemma indexed_validation_as_stated_fails :
  (row_sums_to [128; 1; 5; 9] 4 0 0 1
   /\ exists imd rcd_file',
        ImageData8bpp.LoadData (ImageData8bpp.new (sized 1 2 1))
          (of_bytes "8PXL" 2 ([4; 0; 0; 0] ++ [128; 1; 5; 9])) 8
        = Ok (true, imd, rcd_file')
        /\ ImageData8bpp.data imd = [128; 1; 5; 9])
  /\ (row_sums_to [133; 0] 2 0 0 5
      /\ exists imd rcd_file',
           ImageData8bpp.LoadData (ImageData8bpp.new (sized 1 5 1))
             (of_bytes "8PXL" 2 ([4; 0; 0; 0] ++ [133; 0])) 6
           = Ok (false, imd, rcd_file')
           /\ ImageData8bpp.data imd = [133; 0]).
Proof.
  split; split.
  - apply (sums_last [128; 1; 5; 9] 4 0 0 128 1); vm_compute;
      reflexivity || discriminate.
  - eexists. eexists. split; vm_compute; reflexivity.
  - apply (sums_last [133; 0] 2 0 0 133 0); vm_compute;
      reflexivity || discriminate.
  - eexists. eexists. split; vm_compute; reflexivity.
Qed.

(** C2 (amended): the validation of the rows of an indexed image returns,
    and it succeeds exactly when every row that is not empty is accepted
    in the sense of [row_accepted]: every run header has a byte after it
    inside the buffer, a run without the high bit leaves the sum of skips
    and counts below the width and ends inside the buffer, and the run
    with the high bit leaves the sum at most at the width and ends within
    the buffer.  So the rows of a payload that loads sum to at most the
    width, and a payload with a row that sums to more than the width is
    rejected. *)
Theorem indexed_validation_accepts_exactly (table data : list Z)
  (length width : Z) :
  bytes data ->
  length = Z.of_nat (List.length data) ->
  length + 512 <= 4294967296 ->
  0 <= width < 65536 ->
  Forall (table_entry length) table ->
  exists ok,
    ImageData8bpp.verify_rows (List.length table) table data length width 0
    = Ok ok
    /\ (ok = true <->
        Forall (fun offset => offset = INVALID_JUMP
                              \/ row_accepted data length width offset 0) table)
    /\ (ok = true ->
        forall offset, In offset table -> offset <> INVALID_JUMP ->
          exists total, row_sums_to data length offset 0 total /\ total <= width)
    /\ (forall offset total,
          In offset table -> offset <> INVALID_JUMP ->
          row_sums_to data length offset 0 total -> width < total ->
          ok = false).
Proof.
  intros Hbytes Hlen Hbound Hwidth Hentries.
  destruct (verify_rows_spec data length width Hbytes Hlen Hbound Hwidth
              table [] Hentries) as [ok [E K]].
  cbn [app List.length Z.of_nat] in E.
  assert (ok = true ->
          forall offset, In offset table -> offset <> INVALID_JUMP ->
            exists total, row_sums_to data length offset 0 total /\ total <= width)
    as Hsums.
  { intros Hok offset Hin Hinv.
    destruct (proj1 (Forall_forall _ _) (proj1 K Hok) offset Hin) as [Hi | Hrow];
      [contradiction | ].
    apply row_accepted_sums. exact Hrow. }
  exists ok. split; [exact E | split; [exact K | split; [exact Hsums | ]]].
  intros offset total Hin Hinv Hsum Hwide.
  destruct ok; [ | reflexivity].
  destruct (Hsums eq_refl offset Hin Hinv) as [total' [Hsum' Hle]].
  rewrite (row_sums_to_functional _ _ _ _ _ _ Hsum Hsum') in Hwide. lia.
Qed.

Lemma indexed_validation_accepts_exactly_witness :
  let table := [0; INVALID_JUMP] in
  let data := [128; 2; 5; 9] in
  exists ok,
    ImageData8bpp.verify_rows (List.length table) table data 4 2 0 = Ok ok
    /\ (ok = true <->
        Forall (fun offset => offset = INVALID_JUMP
                              \/ row_accepted data 4 2 offset 0) table)
    /\ (ok = true ->
        forall offset, In offset table -> offset <> INVALID_JUMP ->
          exists total, row_sums_to data 4 offset 0 total /\ total <= 2)
    /\ (forall offset total,
          In offset table -> offset <> INVALID_JUMP ->
          row_sums_to data 4 offset 0 total -> 2 < total ->
          ok = false).
Proof.
  intros table data.
  apply (indexed_validation_accepts_exactly table data 4 2).
  - repeat constructor; lia.
  - reflexivity.
  - lia.
  - lia.
  - constructor; [right; lia | constructor; [left; reflexivity | constructor]].
Defined.

(** ** Validation of true-colour images *)

Lemma skip_run_payload mode ptr :
  ImageData32bpp.skip_run mode ptr = ptr + run_payload mode.
Proof.
  unfold ImageData32bpp.skip_run, run_payload.
  destruct (Z.shiftr mode 6) as [ | [[p | p | ] | [p | p | ] | ] | p]; lia.
Qed.

Lemma run_payload_nonneg mode : 0 <= run_payload mode.
Proof.
  unfold run_payload. pose proof (land_63_range mode).
  destruct (Z.shiftr mode 6) as [ | [[p | p | ] | [p | p | ] | ] | p]; lia.
Qed.

Lemma line_length_at_range data ptr len :
  ImageData32bpp.line_length_at data ptr = Ok len -> 0 <= len < 65536.
Proof.
  unfold ImageData32bpp.line_length_at.
  destruct (read data ptr) as [b0 | | ]; cbn [bind]; try discriminate.
  destruct (read data (ptr + 1)) as [b1 | | ]; cbn [bind]; try discriminate.
  intros E. injection E as <-. apply uint16_range.
Qed.

Section TrueColourLines.

Variables (data : list Z) (abs_end width : Z).

Hypothesis data_length : abs_end = Z.of_nat (List.length data).
Hypothesis no_wrap : 63 * abs_end < 4294967296.

(** The loop over the runs of a line returns. *)
Lemma read_line_total end_ fuel :
  forall ptr xpos,
    0 <= ptr -> end_ <= abs_end ->
    1 <= Z.of_nat fuel -> end_ - ptr < Z.of_nat fuel ->
    exists ptr' xpos' finished_line,
      ImageData32bpp.read_line fuel data end_ ptr xpos
      = Ok (ptr', xpos', finished_line).
Proof.
  induction fuel as [ | fuel IH]; intros ptr xpos Hp He Hf1 Hf; [simpl in Hf1; lia | ].
  cbn [ImageData32bpp.read_line].
  destruct (Z.ltb_spec ptr end_) as [Hlt | Hge]; [ | do 3 eexists; reflexivity].
  destruct (read_in_range data ptr) as [mode [E _]]; [lia | ].
  rewrite E. cbn [bind].
  destruct (mode =? 0); [do 3 eexists; reflexivity | ].
  rewrite skip_run_payload. pose proof (run_payload_nonneg mode).
  apply IH; lia.
Qed.

(** On a line whose runs reach the mode byte 0, the loop leaves with the
    sum of the counts in [xpos]. *)
Lemma read_line_sums end_ ptr sum total :
  line_sums_to data end_ ptr sum total ->
  forall fuel,
    0 <= ptr -> end_ <= abs_end -> 0 <= sum ->
    sum + 63 * (end_ - ptr) < 4294967296 ->
    end_ - ptr < Z.of_nat fuel ->
    exists ptr',
      ImageData32bpp.read_line fuel data end_ ptr sum = Ok (ptr', total, true).
Proof.
  induction 1 as [ptr sum Hlt E | ptr sum mode total Hlt E Hmode Hrest IH];
    intros fuel Hp He Hs Hw Hf; (destruct fuel as [ | fuel]; [lia | ]);
    cbn [ImageData32bpp.read_line];
    (destruct (Z.ltb_spec ptr end_) as [_ | Hge]; [ | lia]);
    rewrite E; cbn [bind].
  - eexists. reflexivity.
  - destruct (Z.eqb_spec mode 0) as [Hz | _]; [contradiction | ].
    pose proof (land_63_range mode) as Hc.
    pose proof (run_payload_nonneg mode) as Hpay.
    rewrite uint32_small by lia. rewrite skip_run_payload.
    apply IH; lia.
Qed.

Lemma line_start_reached ptr :
  line_start data abs_end ptr -> 0 <= ptr /\ reaches data abs_end width ptr.
Proof.
  unfold reaches.
  induction 1 as [ | ptr len Hstart [Hp IH] Hlt Elen Hlen].
  { split; [lia | ]. right. exists (S (List.length data)), 0.
    split; [lia | reflexivity]. }
  pose proof (line_length_at_range data ptr len Elen) as Hrange.
  split; [lia | ].
  destruct IH as [Hfail | [fuel [line_count [Hf E]]]]; [left; exact Hfail | ].
  destruct fuel as [ | fuel]; [lia | ].
  rewrite E. cbn [ImageData32bpp.read_lines].
  destruct (Z.ltb_spec ptr abs_end) as [_ | Hge]; [ | lia].
  cbn [andb negb]. rewrite Elen. cbn [bind].
  destruct (Z.eqb_spec len 0) as [Hz | _]; [contradiction | ].
  cbn [negb andb].
  destruct (Z.gtb_spec (ptr + len) abs_end) as [Hover | Hfit];
    [left; reflexivity | ].
  destruct (read_line_total (ptr + len) (S (List.length data)) (ptr + 2) 0)
    as [ptr' [xpos' [finished_line Er]]]; try lia.
  rewrite Er. cbn [bind].
  destruct (xpos' >? width); [left; reflexivity | ].
  destruct finished_line; cbn [negb]; [ | left; reflexivity].
  destruct (Z.eqb_spec ptr' (ptr + len)) as [-> | _]; cbn [negb];
    [ | left; reflexivity].
  right. exists fuel, (line_count + 1). split; [lia | reflexivity].
Qed.

(** A line whose counts sum to more than the width makes the validation
    fail. *)
Lemma verify_wide_line height ptr len total :
  line_start data abs_end ptr -> ptr < abs_end ->
  ImageData32bpp.line_length_at data ptr = Ok len ->
  line_sums_to data (line_end abs_end ptr len) (ptr + 2) 0 total ->
  width < total ->
  ImageData32bpp.verify data abs_end width height = Ok false.
Proof.
  intros Hstart Hlt Elen Hsum Hwide. unfold ImageData32bpp.verify.
  destruct (line_start_reached ptr Hstart)
    as [Hp [Hfail | [fuel [line_count [Hf E]]]]]; unfold reaches in *.
  { rewrite Hfail. reflexivity. }
  pose proof (line_length_at_range data ptr len Elen) as Hrange.
  destruct fuel as [ | fuel]; [lia | ].
  rewrite E. cbn [ImageData32bpp.read_lines].
  destruct (Z.ltb_spec ptr abs_end) as [_ | Hge]; [ | lia].
  cbn [andb negb]. rewrite Elen. cbn [bind].
  unfold line_end in Hsum.
  destruct (negb (len =? 0) && ((if len =? 0 then abs_end else ptr + len) >? abs_end))
    eqn:Hover; [reflexivity | ].
  assert ((if len =? 0 then abs_end else ptr + len) <= abs_end) as Hfit.
  { destruct (Z.eqb_spec len 0); [lia | ]. cbn [negb andb] in Hover.
    destruct (Z.gtb_spec (ptr + len) abs_end); [discriminate | lia]. }
  destruct (read_line_sums _ _ _ _ Hsum (S (List.length data))) as [ptr' Er];
    try lia.
  rewrite Er. cbn [bind].
  destruct (Z.gtb_spec total width); [reflexivity | lia].
Qed.

End TrueColourLines.

(** C1 (as stated, refuted): in an image of width 2 the single line
    [[0, 0, 1, 10, 20, 30, 0]] has one run of count 1, so its counts sum to
    1 and not to the width, and [LoadData] succeeds. *)
Lemma true_colour_short_line_loads :
  let data := [0; 0; 1; 10; 20; 30; 0] in
  line_start data 7 0
  /\ ImageData32bpp.line_length_at data 0 = Ok 0
  /\ line_sums_to data (line_end 7 0 0) 2 0 1
  /\ 1 <> width (sized 0 2 1)
  /\ exists imd rcd_file',
       ImageData32bpp.LoadData (ImageData32bpp.new (sized 0 2 1))
         (of_bytes "32PX" 1 data) 7
       = Ok (true, imd, rcd_file')
       /\ ImageData32bpp.data imd = data.
Proof.
  cbv zeta. split; [constructor | split; [reflexivity | split; [ | split]]].
  - apply (line_run _ _ 2 0 1 1); try (vm_compute; reflexivity || discriminate).
    apply line_done; vm_compute; reflexivity.
  - vm_compute. discriminate.
  - eexists. eexists. split; vm_compute; reflexivity.
Qed.

(** C1 (amended): when the six-bit counts of the runs of some line of a
    true-colour payload sum to more than the image's width at the mode
    byte 0 that ends the line, [LoadData] returns failure.  (A line whose
    counts sum to less than the width does not make the load fail.) *)
Theorem true_colour_wide_line_rejected (this : ImageData32bpp.t)
  (rcd_file : RcdFileReader) (length ptr len total : Z) :
  0 <= length ->
  63 * length < 4294967296 ->
  let data := fst (GetBlob rcd_file length) in
  line_start data length ptr ->
  ptr < length ->
  ImageData32bpp.line_length_at data ptr = Ok len ->
  line_sums_to data (line_end length ptr len) (ptr + 2) 0 total ->
  width (ImageData32bpp.base this) < total ->
  exists imd rcd_file',
    ImageData32bpp.LoadData this rcd_file length = Ok (false, imd, rcd_file').
Proof.
  intros Hlen Hwrap data Hstart Hlt Elen Hsum Hwide.
  unfold ImageData32bpp.LoadData.
  destruct (GetBlob rcd_file length) as [data' rcd1] eqn:Eb.
  cbn [fst] in data. subst data. cbn [ImageData32bpp.base].
  assert (length = Z.of_nat (List.length data')) as Hdata.
  { unfold GetBlob in Eb. injection Eb as <- _.
    rewrite GetBlob_bytes_length. lia. }
  rewrite (verify_wide_line data' length (width (ImageData32bpp.base this))
             Hdata Hwrap (height (ImageData32bpp.base this)) ptr len total)
    by assumption.
  cbn [bind]. eexists. eexists. reflexivity.
Qed.

Lemma true_colour_wide_line_rejected_witness :
  exists imd rcd_file',
    ImageData32bpp.LoadData (ImageData32bpp.new (sized 0 1 1))
      (of_bytes "32PX" 1 [0; 0; 2; 10; 20; 30; 40; 50; 60; 0]) 10
    = Ok (false, imd, rcd_file').
Proof.
  apply (true_colour_wide_line_rejected (ImageData32bpp.new (sized 0 1 1))
           (of_bytes "32PX" 1 [0; 0; 2; 10; 20; 30; 40; 50; 60; 0])
           10 0 0 2).
  - lia.
  - lia.
  - constructor.
  - lia.
  - reflexivity.
  - apply (line_run _ _ 2 0 2 2); try (vm_compute; reflexivity || discriminate).
    apply line_done; vm_compute; reflexivity.
  - simpl. lia.
Defined.

(** * Part III: the rest of the sprite code *)

(** ** Decoded rows of indexed images *)

Lemma read_nth buf i v : read buf i = Ok v -> nth (Z.to_nat i) buf 0 = v.
Proof.
  unfold read. destruct (i <? 0); [discriminate | ].
  destruct (nth_error buf (Z.to_nat i)) as [v' | ] eqn:E; [ | discriminate].
  intros H. injection H as <-. apply nth_error_nth. exact E.
Qed.

Lemma nth_error_skip_run (n : nat) (pix : list Z) (rest : list (option Z))
  (d : nat) :
  nth_error (repeat None n ++ map Some pix ++ rest) d
  = if (d <? n)%nat then Some None
    else if (d <? n + List.length pix)%nat
         then option_map Some (nth_error pix (d - n))
         else nth_error rest (d - n - List.length pix).
Proof.
  rewrite nth_error_app, repeat_length.
  destruct (Nat.ltb_spec d n) as [Hlt | Hge].
  - apply nth_error_repeat. exact Hlt.
  - rewrite nth_error_app, length_map.
    destruct (Nat.ltb_spec (d - n) (List.length pix)) as [Hin | Hout].
    + destruct (Nat.ltb_spec d (n + List.length pix)); [ | lia].
      apply nth_error_map.
    + destruct (Nat.ltb_spec d (n + List.length pix)); [lia | reflexivity].
Qed.

Lemma run_pixels_length (data : list Z) (o c : nat) :
  (o + c <= List.length data)%nat ->
  List.length (firstn c (skipn o data)) = c.
Proof. intros H. rewrite length_firstn, length_skipn. lia. Qed.

Lemma run_pixels_nth (data : list Z) (o c k : nat) :
  (k < c)%nat ->
  nth_error (firstn c (skipn o data)) k = nth_error data (o + k).
Proof.
  intros Hk. rewrite nth_error_firstn.
  destruct (Nat.ltb_spec k c); [ | lia].
  apply nth_error_skipn.
Qed.

Lemma read_nth_error buf i v :
  read buf i = Ok v -> nth_error buf (Z.to_nat i) = Some v.
Proof.
  unfold read. destruct (i <? 0); [discriminate | ].
  destruct (nth_error buf (Z.to_nat i)) as [v' | ]; [ | discriminate].
  intros H. injection H as <-. reflexivity.
Qed.

Section IndexedDecoding.

Variables (data : list Z) (length width : Z).

Hypothesis data_bytes : bytes data.
Hypothesis data_length : length = Z.of_nat (List.length data).
Hypothesis length_bound : length + 512 <= 4294967296.
Hypothesis width_range : 0 <= width < 65536.

Variable _palette : Z -> Z.

(** On an accepted row the pixel query answers with the pixel the
    decoding of the row has at the column, counted from the columns
    covered so far. *)
Lemma GetPixel_walk_decodes (recolour_table : option (Z -> Z)) (xoffset : Z)
  offset xpos :
  row_accepted data length width offset xpos ->
  forall fuel,
    0 <= offset -> 0 <= xpos <= xoffset ->
    length - offset < 2 * Z.of_nat fuel ->
    ImageData8bpp.GetPixel_walk _palette fuel data xoffset recolour_table
      offset xpos
    = Ok (_palette
            (shown_index recolour_table
               (match nth_error (row_pixels fuel data offset)
                        (Z.to_nat (xoffset - xpos)) with
                | Some (Some pixel) => Some pixel
                | _ => None
                end))).
Proof.
  induction 1 as [offset xpos rel_pos count H2 E1 E2 Hbit Hx Ho
                 | offset xpos rel_pos count H2 E1 E2 Hbit Hx Ho Hacc IH];
    intros fuel Hoff Hxpos Hf; (destruct fuel as [ | fuel]; [lia | ]);
    pose proof (land_127_range rel_pos) as Hs;
    pose proof (bytes_In data rel_pos data_bytes (proj2 (read_Ok _ _ _ E1))) as Hr;
    pose proof (bytes_In data count data_bytes (proj2 (read_Ok _ _ _ E2))) as Hc;
    cbn [ImageData8bpp.GetPixel_walk row_pixels];
    rewrite (read_nth _ _ _ E1), (read_nth _ _ _ E2);
    rewrite nth_error_skip_run;
    rewrite run_pixels_length by lia;
    (destruct (Z.leb_spec xpos xoffset) as [_ | Hgt]; [ | lia]);
    rewrite (uint32_small (offset + 1)) by lia;
    rewrite E1, E2; cbn [bind];
    rewrite (uint16_small (xpos + _)) by lia;
    (destruct (Z.gtb_spec (xpos + Z.land rel_pos 127) xoffset) as [Hpast | Hin];
     [ destruct (Nat.ltb_spec (Z.to_nat (xoffset - xpos))
                   (Z.to_nat (Z.land rel_pos 127))); [reflexivity | lia] | ]);
    (destruct (Nat.ltb_spec (Z.to_nat (xoffset - xpos))
                (Z.to_nat (Z.land rel_pos 127))); [lia | ]);
    (destruct (Z.ltb_spec (xoffset - (xpos + Z.land rel_pos 127)) count)
       as [Hrun | Hnext];
     [ destruct (Nat.ltb_spec (Z.to_nat (xoffset - xpos))
                   (Z.to_nat (Z.land rel_pos 127) + Z.to_nat count)); [ | lia];
       rewrite uint32_small by lia;
       destruct (read_in_range data
                   (offset + 2 + xoffset - (xpos + Z.land rel_pos 127)))
         as [pixel [Ep _]]; [lia | ];
       rewrite Ep; cbn [bind];
       rewrite run_pixels_nth by lia;
       replace (Z.to_nat (offset + 2)
                + (Z.to_nat (xoffset - xpos) - Z.to_nat (Z.land rel_pos 127)))%nat
         with (Z.to_nat (offset + 2 + xoffset - (xpos + Z.land rel_pos 127)))
         by lia;
       rewrite (read_nth_error _ _ _ Ep); reflexivity | ]);
    (destruct (Nat.ltb_spec (Z.to_nat (xoffset - xpos))
                (Z.to_nat (Z.land rel_pos 127) + Z.to_nat count)); [lia | ]);
    rewrite (uint16_small (_ + count)) by lia;
    rewrite (uint32_small (offset + _)) by lia.
  - destruct (Z.eqb_spec (Z.land rel_pos 128) 0) as [Hz | _]; [contradiction | ].
    cbn [negb]. destruct (_ - _ - _)%nat; reflexivity.
  - rewrite Hbit. cbn [Z.eqb negb].
    replace (xpos + Z.land rel_pos 127 + count)
      with (xpos + (Z.land rel_pos 127 + count)) by lia.
    rewrite IH by lia.
    replace (Z.to_nat (xoffset - (xpos + (Z.land rel_pos 127 + count))))
      with (Z.to_nat (xoffset - xpos) - Z.to_nat (Z.land rel_pos 127)
            - Z.to_nat count)%nat by lia.
    reflexivity.
Qed.

End IndexedDecoding.

Lemma GetPixel8_pixel_at {GradientShift : Type} (_palette : Z -> Z)
  (imd : ImageData8bpp.t) (xoffset yoffset : Z)
  (recolour : option (Recolouring GradientShift)) (shift : GradientShift) :
  loaded8 imd ->
  0 <= xoffset < width (ImageData8bpp.base imd) ->
  0 <= yoffset < height (ImageData8bpp.base imd) ->
  ImageData8bpp.GetPixel _palette imd xoffset yoffset recolour shift
  = Ok (_palette
          (shown_index (option_map (fun rc => GetPalette rc shift) recolour)
             (pixel_at imd xoffset yoffset))).
Proof.
  intros [Hbytes [Hlen [Hw [Hrows Hacc]]]] Hx Hy.
  unfold ImageData8bpp.GetPixel, pixel_at.
  destruct (Z.geb_spec xoffset (width (ImageData8bpp.base imd))); [lia | ].
  destruct (Z.geb_spec yoffset (height (ImageData8bpp.base imd))); [lia | ].
  destruct (read_in_range (ImageData8bpp.table imd) yoffset) as [offset [E Hin]];
    [lia | ].
  rewrite E, (read_nth_error _ _ _ E). cbn [bind].
  destruct (Z.eqb_spec offset INVALID_JUMP) as [Hinv | Hinv]; [reflexivity | ].
  destruct (proj1 (Forall_forall _ _) Hacc offset Hin) as [Hinv' | [Hoff Hrow]];
    [contradiction | ].
  rewrite (GetPixel_walk_decodes (ImageData8bpp.data imd) _ _ Hbytes eq_refl
             Hlen Hw _palette _ xoffset offset 0 Hrow) by lia.
  rewrite Z.sub_0_r. reflexivity.
Qed.

(** X1: on an indexed image that [LoadImage] returned, the pixel query
    inside the image answers with the palette colour of the index that
    the run-length decoding of the row has at the column, sent through
    the recolouring table if one is given, and with the colour of index 0
    where the row stores no pixel. *)
Theorem GetPixel8_decodes_rows {GradientShift : Type} (_palette : Z -> Z)
  (rcd_file rcd_file' : RcdFileReader) (_sprites _sprites' : list Sprite)
  (imd : ImageData8bpp.t) (xoffset yoffset : Z)
  (recolour : option (Recolouring GradientShift)) (shift : GradientShift) :
  LoadImage rcd_file _sprites = Ok (Some (Sprite8 imd), rcd_file', _sprites') ->
  0 <= xoffset < width (ImageData8bpp.base imd) ->
  0 <= yoffset < height (ImageData8bpp.base imd) ->
  ImageData8bpp.GetPixel _palette imd xoffset yoffset recolour shift
  = Ok (_palette
          (shown_index (option_map (fun rc => GetPalette rc shift) recolour)
             (pixel_at imd xoffset yoffset))).
Proof.
  intros E Hx Hy. apply LoadImage_Sprite8 in E.
  apply GetPixel8_pixel_at; assumption.
Qed.

Lemma GetPixel8_decodes_rows_witness :
  let rcd_file :=
    of_bytes "8PXL" 2
      ([3; 0; 1; 0; 0; 0; 0; 0] ++ [4; 0; 0; 0] ++ [1; 1; 7; 128; 1; 9]) in
  let imd := ImageData8bpp.mk (sized 1 3 1) [0] [1; 1; 7; 128; 1; 9] in
  let _palette := fun i => 1000 + i in
  pixel_at imd 2 0 = Some 9
  /\ ImageData8bpp.GetPixel _palette imd 2 0 None tt
     = Ok (_palette (shown_index None (pixel_at imd 2 0))).
Proof.
  intros rcd_file imd _palette. split; [reflexivity | ].
  apply (GetPixel8_decodes_rows _palette rcd_file (advance rcd_file 18)
           [] [Sprite8 imd] imd 2 0 None tt).
  - vm_compute. reflexivity.
  - simpl. lia.
  - simpl. lia.
Defined.

(** ** Blitting an indexed image *)

Lemma pstores_app ws1 ws2 mem :
  pstores (ws1 ++ ws2) mem = pstores ws2 (pstores ws1 mem).
Proof. unfold pstores. apply fold_left_app. Qed.

Lemma stores_pstores colour ws mem :
  stores colour ws mem = pstores (map (fun a => (a, colour)) ws) mem.
Proof.
  revert mem. induction ws as [ | a ws IH]; intros mem; [reflexivity | ].
  cbn [map]. unfold stores, pstores in *. cbn [fold_left fst snd]. apply IH.
Qed.

Lemma pixel_address_shift cr x y dx :
  pixel_address cr x y + dx = pixel_address cr (x + dx) y.
Proof. unfold pixel_address. ring. Qed.

Lemma pixel_address_next_row cr x y :
  pixel_address cr x y + ClippedRectangle.pitch cr = pixel_address cr x (y + 1).
Proof. unfold pixel_address. ring. Qed.

(** What [BlitPixel] does when it is given the address of its position:
    stores of the colour at pixels inside the clipped rectangle. *)
Lemma BlitPixel_effect (cr : ClippedRectangle.t)
  (xmin ymin numx numy width height colour : Z) :
  - 2147483648 <= xmin < 2147483648 ->
  - 2147483648 <= ymin < 2147483648 ->
  0 <= width < 65536 ->
  0 <= height < 65536 ->
  ClippedRectangle.width cr + 65536 <= 2147483648 ->
  ClippedRectangle.height cr + 65536 <= 2147483648 ->
  int32 (height * ClippedRectangle.pitch cr) = height * ClippedRectangle.pitch cr ->
  exists writes,
    (forall mem,
       BlitPixel cr (pixel_address cr xmin ymin) xmin ymin numx numy width
         height colour mem
       = Ok (pstores writes mem))
    /\ Forall (fun w => inside_clip cr (fst w)) writes.
Proof.
  intros Hxmin Hymin Hw Hh Hcw Hch Hstep. unfold BlitPixel.
  destruct (BlitPixel_rows_spec cr xmin (int32 (xmin + numx * width))
              (int32 (ymin + numy * height)) width height colour Hw Hh Hcw Hch
              (S (Z.to_nat (ClippedRectangle.height cr - ymin)))
              ymin (pixel_address cr xmin ymin)) as [writes [E F]]; try lia.
  - intros Hlt. destruct (Z.eq_dec width 0) as [-> | Hne]; [ | lia].
    rewrite Z.mul_0_r, Z.add_0_r, int32_small in Hlt; lia.
  - intros Hlt. destruct (Z.eq_dec height 0) as [-> | Hne]; [ | lia].
    rewrite Z.mul_0_r, Z.add_0_r, int32_small in Hlt; lia.
  - exists (map (fun a => (a, colour)) writes). split.
    + intros mem. rewrite E. rewrite stores_pstores. reflexivity.
    + apply Forall_map. cbn [fst].
      eapply Forall_impl; [ | exact F]. cbv beta.
      intros a [i [j [Hi [Hj [Ha [Hr [_ [Hs _]]]]]]]].
      exists (xmin + i * width), (ymin + j * height).
      repeat split; try lia.
      rewrite Ha, Hstep. unfold pixel_address. ring.
Qed.

Section BlitIndexed.

Context {GradientShift : Type}.
Variable _palette : Z -> Z.
Variable cr : ClippedRectangle.t.
Variables numx numy : Z.
Variable this : ImageData8bpp.t.
Variable recoloured : Z -> Z.

Local Notation "'image_width'" := (width (ImageData8bpp.base this)).
Local Notation "'image_height'" := (height (ImageData8bpp.base this)).
Local Notation "'image_data'" := (ImageData8bpp.data this).

Hypothesis image_loaded : loaded8 this.
Hypothesis height_range : 0 <= image_height < 65536.
Hypothesis cw_bound : ClippedRectangle.width cr + 65536 <= 2147483648.
Hypothesis ch_bound : ClippedRectangle.height cr + 65536 <= 2147483648.
Hypothesis step_fits :
  int32 (image_height * ClippedRectangle.pitch cr)
  = image_height * ClippedRectangle.pitch cr.

Lemma BlitImages_pixels_spec (count : nat) :
  forall pixels xpos ypos mem,
    0 <= pixels ->
    pixels + Z.of_nat count <= Z.of_nat (List.length image_data) ->
    - 2147483648 <= xpos -> xpos + Z.of_nat count < 2147483648 ->
    - 2147483648 <= ypos < 2147483648 ->
    exists writes,
      Blit8bpp.BlitImages_pixels _palette cr numx numy count this recoloured
        pixels xpos ypos (pixel_address cr xpos ypos) mem
      = Ok (xpos + Z.of_nat count,
            pixel_address cr (xpos + Z.of_nat count) ypos,
            pstores writes mem)
      /\ Forall (fun w => inside_clip cr (fst w)) writes.
Proof.
  destruct image_loaded as [_ [_ [Hw _]]].
  induction count as [ | count IH]; intros pixels xpos ypos mem Hp Hlen Hx Hx' Hy.
  { exists []. split; [ | constructor].
    cbn [Blit8bpp.BlitImages_pixels Z.of_nat]. rewrite Z.add_0_r. reflexivity. }
  cbn [Blit8bpp.BlitImages_pixels].
  destruct (read_in_range image_data pixels) as [pixel [Ep _]]; [lia | ].
  rewrite Ep. cbn [bind].
  match goal with
  | |- context [BlitPixel cr _ xpos ypos numx numy _ _ ?c mem] =>
      destruct (BlitPixel_effect cr xpos ypos numx numy image_width
                  image_height c) as [ws1 [E1 F1]]; try assumption; try lia
  end.
  rewrite E1. cbn [bind].
  rewrite int32_small by lia. rewrite pixel_address_shift.
  destruct (IH (pixels + 1) (xpos + 1) ypos (pstores ws1 mem))
    as [ws2 [E2 F2]]; try lia.
  exists (ws1 ++ ws2). split.
  - rewrite E2, pstores_app.
    replace (xpos + 1 + Z.of_nat count) with (xpos + Z.of_nat (S count)) by lia.
    reflexivity.
  - apply Forall_app. split; assumption.
Qed.

Lemma BlitImages_row_spec offset covered :
  row_accepted image_data (Z.of_nat (List.length image_data)) image_width
    offset covered ->
  forall fuel xpos ypos mem,
    0 <= offset -> 0 <= covered ->
    Z.of_nat (List.length image_data) - offset < 2 * Z.of_nat fuel ->
    - 2147483648 <= xpos -> xpos + (image_width - covered) < 2147483648 ->
    - 2147483648 <= ypos < 2147483648 ->
    exists writes,
      Blit8bpp.BlitImages_row _palette cr numx numy fuel this recoloured ypos
        offset xpos (pixel_address cr xpos ypos) mem
      = Ok (pstores writes mem)
      /\ Forall (fun w => inside_clip cr (fst w)) writes.
Proof.
  destruct image_loaded as [Hbytes [Hlen [Hw _]]]. cbv zeta in Hbytes, Hlen.
  induction 1 as [offset covered rel_off count H2 E1 E2 Hbit Hx Ho
                 | offset covered rel_off count H2 E1 E2 Hbit Hx Ho Hacc IH];
    intros fuel xpos ypos mem Hoff Hcov Hf Hxpos Hxpos' Hypos;
    (destruct fuel as [ | fuel]; [lia | ]);
    pose proof (land_127_range rel_off) as Hs;
    pose proof (bytes_In _ rel_off Hbytes (proj2 (read_Ok _ _ _ E1))) as Hr;
    pose proof (bytes_In _ count Hbytes (proj2 (read_Ok _ _ _ E2))) as Hc;
    cbn [Blit8bpp.BlitImages_row];
    rewrite (uint32_small (offset + 1)) by lia;
    rewrite E1, E2; cbn [bind];
    rewrite (uint32_small (offset + 2)) by lia;
    rewrite (uint32_small (offset + (2 + count))) by lia;
    rewrite int32_small by lia;
    rewrite pixel_address_shift;
    destruct (BlitImages_pixels_spec (Z.to_nat count) (offset + 2)
                (xpos + Z.land rel_off 127) ypos mem)
      as [ws1 [E F1]]; try lia;
    rewrite E; cbn [bind].
  - destruct (Z.eqb_spec (Z.land rel_off 128) 0) as [Hz | _]; [contradiction | ].
    cbn [negb]. exists ws1. split; [reflexivity | exact F1].
  - rewrite Hbit. cbn [Z.eqb negb].
    destruct (IH fuel (xpos + Z.land rel_off 127 + Z.of_nat (Z.to_nat count))
                ypos (pstores ws1 mem)) as [ws2 [E' F2]]; try lia.
    exists (ws1 ++ ws2). split.
    + rewrite E', pstores_app. reflexivity.
    + apply Forall_app. split; assumption.
Qed.

Lemma BlitImages_rows_spec (rest : list Z) :
  forall pre x_base ypos mem,
    ImageData8bpp.table this = pre ++ rest ->
    - 2147483648 <= x_base -> x_base + image_width < 2147483648 ->
    - 2147483648 <= ypos ->
    ypos + Z.of_nat (List.length rest) < 2147483648 ->
    exists writes,
      Blit8bpp.BlitImages_rows _palette cr numx numy (List.length rest) this
        recoloured x_base (Z.of_nat (List.length pre))
        (pixel_address cr x_base ypos) ypos mem
      = Ok (pstores writes mem)
      /\ Forall (fun w => inside_clip cr (fst w)) writes.
Proof.
  destruct image_loaded as [Hbytes [Hlen [Hw [_ Hacc]]]].
  cbv zeta in Hbytes, Hlen, Hacc.
  induction rest as [ | offset rest IH]; intros pre x_base ypos mem Htable
    Hx Hx' Hy Hy'.
  { exists []. split; [reflexivity | constructor]. }
  cbn [List.length Blit8bpp.BlitImages_rows].
  assert (read (ImageData8bpp.table this) (Z.of_nat (List.length pre))
          = Ok offset) as Er by (rewrite Htable; apply read_middle).
  rewrite Er. cbn [bind].
  assert (exists ws1,
    (if negb (offset =? INVALID_JUMP)
     then Blit8bpp.BlitImages_row _palette cr numx numy
            (S (List.length image_data)) this recoloured ypos offset x_base
            (pixel_address cr x_base ypos) mem
     else Ok mem) = Ok (pstores ws1 mem)
    /\ Forall (fun w => inside_clip cr (fst w)) ws1) as [ws1 [E1 F1]].
  { destruct (Z.eqb_spec offset INVALID_JUMP) as [Hinv | Hinv]; cbn [negb].
    - exists []. split; [reflexivity | constructor].
    - assert (In offset (ImageData8bpp.table this)) as Hin
        by (rewrite Htable; apply in_elt).
      destruct (proj1 (Forall_forall _ _) Hacc offset Hin)
        as [Hinv' | [Hoff Hrow]]; [contradiction | ].
      apply (BlitImages_row_spec offset 0 Hrow); cbn [List.length] in *; lia. }
  rewrite E1. cbn [bind].
  rewrite int32_small by (cbn [List.length] in Hy'; lia).
  rewrite pixel_address_next_row.
  destruct (IH (pre ++ [offset]) x_base (ypos + 1) (pstores ws1 mem))
    as [ws2 [E2 F2]]; try assumption; try (cbn [List.length] in Hy'; lia).
  { rewrite <- app_assoc. exact Htable. }
  rewrite length_app in E2. cbn [List.length] in E2.
  replace (Z.of_nat (List.length pre + 1)) with (Z.of_nat (List.length pre) + 1)
    in E2 by lia.
  exists (ws1 ++ ws2). split.
  - rewrite E2, pstores_app. reflexivity.
  - apply Forall_app. split; assumption.
Qed.

End BlitIndexed.

(** ** What a successful [LoadImage] has done *)

Lemma LoadImage_success rcd_file _sprites sprite rcd_file' _sprites' :
  LoadImage rcd_file _sprites = Ok (Some sprite, rcd_file', _sprites') ->
  let is_8bpp := String.eqb (name rcd_file) "8PXL" in
  exists base rcd1,
    version rcd_file = (if is_8bpp then 2 else 1)
    /\ LoadSizes
         (mkImageData (if is_8bpp then Z.shiftl 1 IFG_IS_8BPP else 0) 0 0 0 0)
         rcd_file (size rcd_file) = (true, base, rcd1)
    /\ Sprite_LoadData is_8bpp base rcd1 (size rcd_file - 8)
       = Ok (true, sprite, rcd_file')
    /\ _sprites' = _sprites ++ [sprite].
Proof.
  intros E. cbv zeta. unfold LoadImage in E.
  set (is_8bpp := String.eqb (name rcd_file) "8PXL") in *.
  destruct (Z.eqb_spec (version rcd_file) (if is_8bpp then 2 else 1))
    as [Hv | Hv]; cbn [negb] in E; [ | discriminate E].
  destruct (LoadSizes _ rcd_file (size rcd_file)) as [[sizes_ok base] rcd1] eqn:Es.
  destruct sizes_ok; [ | discriminate E].
  pose proof (LoadSizes_size
                (mkImageData (if is_8bpp then Z.shiftl 1 IFG_IS_8BPP else 0)
                   0 0 0 0) rcd_file (size rcd_file)) as Hsame.
  rewrite Es in Hsame. cbn [snd] in Hsame. rewrite Hsame in E.
  pose proof (LoadSizes_true _ _ _ _ _ Es) as [Hsize _].
  rewrite uint32_small in E by lia.
  exists base, rcd1.
  destruct (Sprite_LoadData is_8bpp base rcd1 (size rcd_file - 8))
    as [[[ok s] rcd2] | | ]; cbn in E; try discriminate E.
  destruct ok; [ | discriminate E].
  inversion E; subst. repeat split; assumption || reflexivity.
Qed.

Lemma LoadImage_Sprite8_limits rcd_file _sprites imd rcd_file' _sprites' :
  LoadImage rcd_file _sprites = Ok (Some (Sprite8 imd), rcd_file', _sprites') ->
  1 <= width (ImageData8bpp.base imd) <= 300
  /\ 1 <= height (ImageData8bpp.base imd) <= 500.
Proof.
  intros E. apply LoadImage_success in E. cbv zeta in E.
  destruct E as [base [rcd1 [_ [Es [Ed _]]]]].
  apply LoadSizes_true in Es. destruct Es as [Hsize [Hw [Hh _]]].
  unfold Sprite_LoadData in Ed.
  destruct (String.eqb (name rcd_file) "8PXL").
  - destruct (ImageData8bpp.LoadData (ImageData8bpp.new base) rcd1
                (size rcd_file - 8)) as [[[ok imd1] rcd2] | | ] eqn:E8;
      cbn in Ed; try discriminate Ed.
    injection Ed as -> <- _.
    apply LoadData8_loaded in E8; cbn [ImageData8bpp.new ImageData8bpp.base];
      try lia.
    destruct E8 as [_ ->]. cbn [ImageData8bpp.new ImageData8bpp.base]. lia.
  - destruct (ImageData32bpp.LoadData (ImageData32bpp.new base) rcd1
                (size rcd_file - 8)) as [[[ok imd1] rcd2] | | ];
      cbn in Ed; discriminate Ed.
Qed.

(** X2: blitting an indexed image that [LoadImage] returned, at any
    position and with any tile counts, returns: it reads the jump table
    and the data inside their buffers, and what it does to the screen is
    a sequence of stores at pixels inside the clipped rectangle.  The
    hypotheses keep the positions and the pointer offsets inside
    [int32]. *)
Theorem BlitImages8_inside_clip {GradientShift : Type} (_palette : Z -> Z)
  (cr : ClippedRectangle.t) (numx numy : Z)
  (rcd_file rcd_file' : RcdFileReader) (_sprites _sprites' : list Sprite)
  (imd : ImageData8bpp.t) (x_base y_base : Z)
  (recolour : Recolouring GradientShift) (shift : GradientShift) :
  LoadImage rcd_file _sprites = Ok (Some (Sprite8 imd), rcd_file', _sprites') ->
  - 2147483648 <= x_base -> x_base + 65536 <= 2147483648 ->
  - 2147483648 <= y_base -> y_base + 65536 <= 2147483648 ->
  ClippedRectangle.width cr + 65536 <= 2147483648 ->
  ClippedRectangle.height cr + 65536 <= 2147483648 ->
  int32 (ClippedRectangle.pitch cr * y_base) = ClippedRectangle.pitch cr * y_base ->
  int32 (height (ImageData8bpp.base imd) * ClippedRectangle.pitch cr)
  = height (ImageData8bpp.base imd) * ClippedRectangle.pitch cr ->
  forall mem,
  exists writes,
    Blit8bpp.BlitImages _palette cr numx numy imd x_base y_base recolour shift
      mem
    = Ok (pstores writes mem)
    /\ Forall (fun w => inside_clip cr (fst w)) writes.
Proof.
  intros E Hx Hx' Hy Hy' Hcw Hch Hbase Hstep mem.
  pose proof (LoadImage_Sprite8_limits _ _ _ _ _ E) as [Hw Hh].
  apply LoadImage_Sprite8 in E.
  pose proof E as [_ [_ [_ [Hrows _]]]].
  unfold Blit8bpp.BlitImages. rewrite Hbase.
  change (ClippedRectangle.address cr + x_base + ClippedRectangle.pitch cr * y_base)
    with (pixel_address cr x_base y_base).
  replace (Z.to_nat (height (ImageData8bpp.base imd)))
    with (List.length (ImageData8bpp.table imd)) by lia.
  apply (BlitImages_rows_spec _palette cr numx numy imd (GetPalette recolour shift)
           E ltac:(lia) Hcw Hch Hstep (ImageData8bpp.table imd) []);
    try reflexivity; lia.
Qed.

Lemma BlitImages8_inside_clip_witness :
  let rcd_file :=
    of_bytes "8PXL" 2
      ([3; 0; 1; 0; 0; 0; 0; 0] ++ [4; 0; 0; 0] ++ [1; 1; 7; 128; 1; 9]) in
  let imd := ImageData8bpp.mk (sized 1 3 1) [0] [1; 1; 7; 128; 1; 9] in
  let cr := ClippedRectangle.mk 4 2 4 100 in
  exists writes,
    Blit8bpp.BlitImages (fun i => MakeRGBA i i i OPAQUE) cr 2 3 imd (-1) 0
      (mkRecolouring unit (fun _ i => i) (fun _ i => i)) tt (fun _ => 0)
    = Ok (pstores writes (fun _ => 0))
    /\ Forall (fun w => inside_clip cr (fst w)) writes.
Proof.
  intros rcd_file imd cr.
  apply (BlitImages8_inside_clip (fun i => MakeRGBA i i i OPAQUE) cr 2 3
           rcd_file (advance rcd_file 18) [] [Sprite8 imd] imd (-1) 0
           (mkRecolouring unit (fun _ i => i) (fun _ i => i)) tt);
    try (simpl; lia); vm_compute; reflexivity.
Defined.

(** ** Decoding the sizes *)

Lemma advance_advance rcd n m : advance (advance rcd n) m = advance rcd (n + m).
Proof. unfold advance. cbn. f_equal. lia. Qed.

Lemma next_bytes_tail rcd b bs :
  next_bytes rcd (b :: bs) ->
  contents rcd (file_pos rcd) = b /\ next_bytes (advance rcd 1) bs.
Proof.
  intros H. split.
  - specialize (H 0%nat). cbn in H. rewrite Z.add_0_r in H. apply H. lia.
  - intros k Hk. specialize (H (S k)). cbn [nth List.length] in H.
    unfold advance. cbn [contents file_pos].
    replace (file_pos rcd + 1 + Z.of_nat k) with (file_pos rcd + Z.of_nat (S k))
      by lia.
    apply H. lia.
Qed.

Lemma le16_value v :
  0 <= v < 65536 ->
  Z.lor (uint8 (v mod 256)) (Z.shiftl (uint8 ((v / 256) mod 256)) 8) = v.
Proof.
  intros Hv. rewrite !uint8_small by (apply Z.mod_pos_bound; lia).
  rewrite Z.or_to_plus.
  - rewrite Z.shiftl_mul_pow2 by lia. change (2 ^ 8) with 256.
    rewrite (Z.mod_small (v / 256)) by (Z.div_mod_to_equations; lia).
    Z.div_mod_to_equations; lia.
  - change 256 with (2 ^ 8). rewrite <- !Z.land_ones by lia. Z.bitblast.
Qed.

Lemma GetUInt16_le16 rcd v bs :
  0 <= v < 65536 ->
  next_bytes rcd (le16 v ++ bs) ->
  GetUInt16 rcd = (v, advance rcd 2) /\ next_bytes (advance rcd 2) bs.
Proof.
  intros Hv H. cbn [le16 app] in H.
  apply next_bytes_tail in H. destruct H as [E0 H].
  apply next_bytes_tail in H. destruct H as [E1 H].
  rewrite advance_advance in H. split; [ | exact H].
  unfold GetUInt16, GetUInt8. rewrite E0.
  cbn [contents file_pos advance] in E1 |- *. rewrite E1.
  rewrite le16_value by exact Hv.
  f_equal. unfold advance. cbn. f_equal. lia.
Qed.

Lemma le16_signed v : le16 v = le16 (v mod 65536).
Proof.
  unfold le16. f_equal; [ | f_equal].
  - symmetry. apply Z.mod_mod_divide. exists 256. reflexivity.
  - Z.div_mod_to_equations. lia.
Qed.

Lemma GetInt16_le16 rcd v bs :
  - 32768 <= v < 32768 ->
  next_bytes rcd (le16 v ++ bs) ->
  GetInt16 rcd = (v, advance rcd 2) /\ next_bytes (advance rcd 2) bs.
Proof.
  intros Hv H. rewrite le16_signed in H.
  apply GetUInt16_le16 in H; [ | apply Z.mod_pos_bound; lia].
  destruct H as [E H]. split; [ | exact H].
  unfold GetInt16. rewrite E. f_equal.
  unfold int16. change (2 ^ 15) with 32768. change (2 ^ 16) with 65536.
  Z.div_mod_to_equations. lia.
Qed.

(** X3: [LoadSizes] decodes the 8 bytes of a header: when at least 8
    bytes are announced and the byte source has the little-endian bytes of
    [w], [h] and of the signed [xo], [yo] at its position, the image gets
    exactly these sizes, the byte source is 8 bytes further, and the result
    is [true] exactly when the width is 1 to 300, the height 1 to 500 and
    the payload at most 100 KiB. *)
Theorem LoadSizes_decodes_header (this : ImageData) (rcd_file : RcdFileReader)
  (length w h xo yo : Z) :
  0 <= w < 65536 -> 0 <= h < 65536 ->
  - 32768 <= xo < 32768 -> - 32768 <= yo < 32768 ->
  8 <= length ->
  next_bytes rcd_file (header_bytes w h xo yo) ->
  LoadSizes this rcd_file length
  = ((1 <=? w) && (w <=? 300) && (1 <=? h) && (h <=? 500)
     && (length - 8 <=? 100 * 1024),
     mkImageData (flags this) w h xo yo,
     advance rcd_file 8).
Proof.
  intros Hw Hh Hxo Hyo Hlen Hbytes. unfold LoadSizes, header_bytes in *.
  destruct (Z.ltb_spec length 8); [lia | ].
  apply GetUInt16_le16 in Hbytes; [ | exact Hw]. destruct Hbytes as [-> Hbytes].
  apply GetUInt16_le16 in Hbytes; [ | exact Hh]. destruct Hbytes as [-> Hbytes].
  apply GetInt16_le16 in Hbytes; [ | exact Hxo]. destruct Hbytes as [-> Hbytes].
  rewrite <- (app_nil_r (le16 yo)) in Hbytes.
  apply GetInt16_le16 in Hbytes; [ | exact Hyo]. destruct Hbytes as [-> _].
  rewrite !advance_advance. cbn [Z.add Pos.add Pos.succ].
  destruct (Z.eqb_spec w 0), (Z.gtb_spec w 300), (Z.eqb_spec h 0),
    (Z.gtb_spec h 500), (Z.leb_spec 1 w), (Z.leb_spec w 300), (Z.leb_spec 1 h),
    (Z.leb_spec h 500); cbn [orb andb]; try lia; reflexivity.
Qed.

Lemma LoadSizes_decodes_header_witness :
  LoadSizes ImageData_new (of_bytes "8PXL" 2 (header_bytes 2 1 (-1) 3)) 8
  = ((1 <=? 2) && (2 <=? 300) && (1 <=? 1) && (1 <=? 500)
     && (8 - 8 <=? 100 * 1024),
     mkImageData (flags ImageData_new) 2 1 (-1) 3,
     advance (of_bytes "8PXL" 2 (header_bytes 2 1 (-1) 3)) 8).
Proof.
  apply (LoadSizes_decodes_header ImageData_new
           (of_bytes "8PXL" 2 (header_bytes 2 1 (-1) 3)) 8 2 1 (-1) 3);
    try lia.
  intros k Hk. cbn [of_bytes contents file_pos]. rewrite Z.add_0_l, Nat2Z.id.
  reflexivity.
Defined.

(** ** The byte source behind a load *)

Lemma GetUInt16_advance rcd : snd (GetUInt16 rcd) = advance rcd 2.
Proof. unfold GetUInt16, GetUInt8. cbn [snd]. apply advance_advance. Qed.

Lemma GetUInt32_advance rcd : snd (GetUInt32 rcd) = advance rcd 4.
Proof.
  unfold GetUInt32, GetUInt16, GetUInt8. cbn [snd].
  rewrite !advance_advance. reflexivity.
Qed.

Lemma advance_0 rcd : advance rcd 0 = rcd.
Proof. destruct rcd. unfold advance. cbn. f_equal. lia. Qed.

Lemma LoadSizes_advance this rcd_file length this' rcd_file' :
  LoadSizes this rcd_file length = (true, this', rcd_file') ->
  rcd_file' = advance rcd_file 8.
Proof.
  unfold LoadSizes. destruct (length <? 8); [discriminate | ].
  unfold GetInt16, GetUInt16, GetUInt8.
  match goal with |- context [if ?c then _ else _] => destruct c end;
    [discriminate | ].
  intros E. injection E as _ _ <-. rewrite !advance_advance. reflexivity.
Qed.

Lemma load_table_advance n :
  forall jmp_table length rcd_file acc loaded table rcd_file',
    ImageData8bpp.load_table n jmp_table length rcd_file acc
    = (Some loaded, table, rcd_file') ->
    rcd_file' = advance rcd_file (4 * Z.of_nat n).
Proof.
  induction n as [ | n IH]; intros jmp_table length rcd_file acc loaded table
    rcd_file' E; cbn [ImageData8bpp.load_table] in E.
  { injection E as _ _ <-. symmetry. apply advance_0. }
  pose proof (GetUInt32_advance rcd_file) as Ha.
  destruct (GetUInt32 rcd_file) as [dest rcd1]. cbn [snd] in Ha. subst rcd1.
  destruct (dest =? 0).
  - apply IH in E. rewrite E, advance_advance. f_equal. lia.
  - destruct (uint32 (dest - jmp_table) >=? length); [discriminate E | ].
    apply IH in E. rewrite E, advance_advance. f_equal. lia.
Qed.

Lemma LoadData8_advance (this : ImageData8bpp.t) rcd_file length imd rcd_file' :
  0 <= height (ImageData8bpp.base this) ->
  ImageData8bpp.LoadData this rcd_file length = Ok (true, imd, rcd_file') ->
  rcd_file' = advance rcd_file length.
Proof.
  intros Hh E. unfold ImageData8bpp.LoadData in E. cbv zeta in E.
  cbn [ImageData8bpp.base] in E.
  set (h := height (ImageData8bpp.base this)) in *.
  destruct (Z.leb_spec length (4 * h)) as [Hshort | Hlong]; [discriminate E | ].
  destruct (ImageData8bpp.load_table (Z.to_nat h) (4 * h) (length - 4 * h)
              rcd_file []) as [[loaded table] rcd1] eqn:Et.
  destruct loaded as [loaded | ]; [ | discriminate E].
  apply load_table_advance in Et. subst rcd1.
  unfold GetBlob in E.
  remember (4 * Z.of_nat (Z.to_nat h)) as read_table eqn:Hread.
  remember (Z.max 0 (length - 4 * h)) as read_data eqn:Hdata.
  destruct (ImageData8bpp.verify_rows _ _ _ _ _ _) as [ok | | ];
    cbn [bind] in E; try discriminate E.
  injection E as _ _ <-. rewrite advance_advance. f_equal. lia.
Qed.

Lemma LoadData32_advance (this : ImageData32bpp.t) rcd_file length ok imd
  rcd_file' :
  0 <= length ->
  ImageData32bpp.LoadData this rcd_file length = Ok (ok, imd, rcd_file') ->
  rcd_file' = advance rcd_file length
  /\ ImageData32bpp.base imd = ImageData32bpp.base this
  /\ ImageData32bpp.verify (ImageData32bpp.data imd) length
       (width (ImageData32bpp.base this)) (height (ImageData32bpp.base this))
     = Ok ok
  /\ length = Z.of_nat (List.length (ImageData32bpp.data imd))
  /\ bytes (ImageData32bpp.data imd).
Proof.
  intros Hlen E. unfold ImageData32bpp.LoadData, GetBlob in E.
  cbn [ImageData32bpp.base] in E.
  destruct (ImageData32bpp.verify _ _ _ _) as [ok' | | ] eqn:Ev;
    cbn [bind] in E; try discriminate E.
  injection E as -> <- <-. cbn [ImageData32bpp.base ImageData32bpp.data].
  repeat split.
  - f_equal. lia.
  - exact Ev.
  - rewrite GetBlob_bytes_length. lia.
  - apply GetBlob_bytes_bytes.
Qed.

(** X4: a successful [LoadImage] has read the block to its end: the byte
    source it leaves is the one it was given, [size] bytes further. *)
Theorem LoadImage_consumes_block (rcd_file rcd_file' : RcdFileReader)
  (_sprites _sprites' : list Sprite) (sprite : Sprite) :
  LoadImage rcd_file _sprites = Ok (Some sprite, rcd_file', _sprites') ->
  rcd_file' = advance rcd_file (size rcd_file).
Proof.
  intros E. apply LoadImage_success in E. cbv zeta in E.
  destruct E as [base [rcd1 [_ [Es [Ed _]]]]].
  pose proof (LoadSizes_advance _ _ _ _ _ Es) as ->.
  apply LoadSizes_true in Es. destruct Es as [Hsize [Hw [Hh _]]].
  unfold Sprite_LoadData in Ed.
  destruct (String.eqb (name rcd_file) "8PXL").
  - destruct (ImageData8bpp.LoadData (ImageData8bpp.new base)
                (advance rcd_file 8) (size rcd_file - 8))
      as [[[ok imd1] rcd2] | | ] eqn:E8; cbn in Ed; try discriminate Ed.
    injection Ed as -> _ <-.
    apply LoadData8_advance in E8; [ | cbn; lia].
    rewrite E8, advance_advance. f_equal. lia.
  - destruct (ImageData32bpp.LoadData (ImageData32bpp.new base)
                (advance rcd_file 8) (size rcd_file - 8))
      as [[[ok imd1] rcd2] | | ] eqn:E32; cbn in Ed; try discriminate Ed.
    injection Ed as -> _ <-.
    apply LoadData32_advance in E32; [ | lia].
    destruct E32 as [-> _]. rewrite advance_advance. f_equal. lia.
Qed.

Lemma LoadImage_consumes_block_witness :
  let rcd_file := of_bytes "ABCD" 1 (one_pixel_record 10 20 30) in
  advance rcd_file 15 = advance rcd_file (size rcd_file).
Proof.
  intros rcd_file.
  apply (LoadImage_consumes_block rcd_file (advance rcd_file 15) []
           [Sprite32 (ImageData32bpp.mk (sized 0 1 1) [0; 0; 1; 10; 20; 30; 0])]
           (Sprite32 (ImageData32bpp.mk (sized 0 1 1) [0; 0; 1; 10; 20; 30; 0]))).
  vm_compute. reflexivity.
Defined.

Lemma LoadImage_failure rcd_file _sprites rcd_file' _sprites' :
  LoadImage rcd_file _sprites = Ok (None, rcd_file', _sprites') ->
  _sprites' = _sprites.
Proof.
  unfold LoadImage. intros E.
  destruct (negb _); [injection E as _ <-; reflexivity | ].
  destruct (LoadSizes _ rcd_file (size rcd_file)) as [[sizes_ok base] rcd1].
  destruct sizes_ok; [ | injection E as _ <-; reflexivity].
  destruct (Sprite_LoadData _ _ _ _) as [[[ok s] rcd2] | | ]; cbn in E;
    try discriminate E.
  destruct ok; [discriminate E | injection E as _ <-; reflexivity].
Qed.

(** X5: what [LoadImage] does to the store and what it has checked.  When
    it returns no sprite the store is as it was.  When it returns a sprite,
    the store is the old store with that sprite added at the end; the
    block has 8 to 8 + 100 KiB bytes, the sprite is 1 to 300 pixels wide
    and 1 to 500 high; and it is an indexed image with the flag
    [IFG_IS_8BPP] exactly when the block is named [8PXL] (with version 2),
    a true-colour image without the flag otherwise (with version 1). *)
Theorem LoadImage_result (rcd_file rcd_file' : RcdFileReader)
  (_sprites _sprites' : list Sprite) (result : option Sprite) :
  LoadImage rcd_file _sprites = Ok (result, rcd_file', _sprites') ->
  match result with
  | None => _sprites' = _sprites
  | Some sprite =>
      _sprites' = _sprites ++ [sprite]
      /\ 8 <= size rcd_file <= 8 + 100 * 1024
      /\ 1 <= width (Sprite_base sprite) <= 300
      /\ 1 <= height (Sprite_base sprite) <= 500
      /\ match sprite with
         | Sprite8 _ =>
             name rcd_file = "8PXL"%string /\ version rcd_file = 2
             /\ flags (Sprite_base sprite) = Z.shiftl 1 IFG_IS_8BPP
         | Sprite32 _ =>
             name rcd_file <> "8PXL"%string /\ version rcd_file = 1
             /\ flags (Sprite_base sprite) = 0
         end
  end.
Proof.
  intros E. destruct result as [sprite | ];
    [ | exact (LoadImage_failure _ _ _ _ E)].
  apply LoadImage_success in E. cbv zeta in E.
  destruct E as [base [rcd1 [Hv [Es [Ed Hstore]]]]].
  apply LoadSizes_true in Es. destruct Es as [Hsize [Hw [Hh Hflags]]].
  cbn [flags] in Hflags.
  unfold Sprite_LoadData in Ed.
  destruct (String.eqb_spec (name rcd_file) "8PXL") as [Hname | Hname].
  - destruct (ImageData8bpp.LoadData (ImageData8bpp.new base) rcd1
                (size rcd_file - 8)) as [[[ok imd1] rcd2] | | ] eqn:E8;
      cbn in Ed; try discriminate Ed.
    injection Ed as -> <- _.
    apply LoadData8_loaded in E8; cbn [ImageData8bpp.new ImageData8bpp.base];
      try lia.
    destruct E8 as [_ Hbase]. cbn [Sprite_base]. rewrite Hbase.
    cbn [ImageData8bpp.new ImageData8bpp.base]. repeat split; assumption || lia.
  - destruct (ImageData32bpp.LoadData (ImageData32bpp.new base) rcd1
                (size rcd_file - 8)) as [[[ok imd1] rcd2] | | ] eqn:E32;
      cbn in Ed; try discriminate Ed.
    injection Ed as -> <- _.
    apply LoadData32_advance in E32; [ | lia].
    destruct E32 as [_ [Hbase _]]. cbn [Sprite_base]. rewrite Hbase.
    cbn [ImageData32bpp.new ImageData32bpp.base].
    repeat split; assumption || lia.
Qed.

Lemma LoadImage_result_witness :
  let rcd_file := of_bytes "ABCD" 1 (one_pixel_record 10 20 30) in
  let sprite :=
    Sprite32 (ImageData32bpp.mk (sized 0 1 1) [0; 0; 1; 10; 20; 30; 0]) in
  [sprite] = [] ++ [sprite]
  /\ 8 <= size rcd_file <= 8 + 100 * 1024
  /\ 1 <= width (Sprite_base sprite) <= 300
  /\ 1 <= height (Sprite_base sprite) <= 500
  /\ name rcd_file <> "8PXL"%string /\ version rcd_file = 1
  /\ flags (Sprite_base sprite) = 0.
Proof.
  intros rcd_file sprite.
  apply (LoadImage_result rcd_file (advance rcd_file 15) [] [sprite]
           (Some sprite)).
  vm_compute. reflexivity.
Defined.

(** ** Accepted lines of true-colour images *)

Lemma line_accepted_inv data end_ width ptr sum :
  line_accepted data end_ width ptr sum ->
  exists mode,
    ptr < end_ /\ read data ptr = Ok mode
    /\ (mode = 0 -> ptr + 1 = end_ /\ sum <= width)
    /\ (mode <> 0 ->
        line_accepted data end_ width (ptr + 1 + run_payload mode)
          (sum + Z.land mode 63)).
Proof.
  intros Hacc. inversion Hacc as [? ? Hend Hr Hsum | ? ? mode Hlt Hr Hm Hrest];
    subst.
  - exists 0. repeat split; try assumption; lia.
  - exists mode. repeat split; intros; try contradiction; assumption.
Qed.

Section TrueColourAccepted.

Variables (data : list Z) (abs_end width : Z).

Hypothesis data_length : abs_end = Z.of_nat (List.length data).
Hypothesis no_wrap : 63 * abs_end < 4294967296.

(** The loop over the runs of a line returns, and its result passes the
    three tests behind the loop exactly on an accepted line. *)
Lemma read_line_spec end_ fuel :
  forall ptr sum,
    0 <= ptr -> end_ <= abs_end -> 0 <= sum ->
    sum + 63 * (end_ - ptr) < 4294967296 \/ end_ <= ptr ->
    1 <= Z.of_nat fuel -> end_ - ptr < Z.of_nat fuel ->
    exists ptr' xpos finished_line,
      ImageData32bpp.read_line fuel data end_ ptr sum
      = Ok (ptr', xpos, finished_line)
      /\ (((xpos >? width) = false /\ finished_line = true /\ ptr' = end_)
          <-> line_accepted data end_ width ptr sum).
Proof.
  induction fuel as [ | fuel IH]; intros ptr sum Hp He Hs Hw Hf1 Hf;
    [simpl in Hf1; lia | ].
  cbn [ImageData32bpp.read_line].
  destruct (Z.ltb_spec ptr end_) as [Hlt | Hge].
  2: { do 3 eexists. split; [reflexivity | ]. split.
       - intros [_ [Hfl _]]. discriminate Hfl.
       - intros Hacc. apply line_accepted_inv in Hacc.
         destruct Hacc as [mode [Hlt _]]. lia. }
  destruct (read_in_range data ptr) as [mode [E _]]; [lia | ].
  rewrite E. cbn [bind].
  destruct (Z.eqb_spec mode 0) as [-> | Hmode].
  - do 3 eexists. split; [reflexivity | ]. split.
    + intros [Hx [_ Hend]]. apply line_ends; try assumption. lia.
    + intros Hacc. apply line_accepted_inv in Hacc.
      destruct Hacc as [mode [_ [Hr [Hz _]]]]. rewrite E in Hr.
      injection Hr as <-. destruct (Hz eq_refl) as [Hend Hsum].
      repeat split; [ | assumption].
      destruct (Z.gtb_spec sum width); [lia | reflexivity].
  - pose proof (land_63_range mode) as Hc.
    pose proof (run_payload_nonneg mode) as Hpay.
    rewrite uint32_small by lia. rewrite skip_run_payload.
    destruct (IH (ptr + 1 + run_payload mode) (sum + Z.land mode 63))
      as [ptr' [xpos [fl [Er K]]]]; try lia.
    exists ptr', xpos, fl. split; [exact Er | ]. rewrite K. split.
    + intros Hacc. eapply line_goes_on; eassumption.
    + intros Hacc. apply line_accepted_inv in Hacc.
      destruct Hacc as [mode' [_ [Hr [_ Hnz]]]]. rewrite E in Hr.
      injection Hr as <-. exact (Hnz Hmode).
Qed.

End TrueColourAccepted.

Lemma lines_accepted_inv data abs_end width ptr count :
  lines_accepted data abs_end width ptr count ->
  (ptr = abs_end /\ count = 0)
  \/ (ptr < abs_end
      /\ exists len,
           ImageData32bpp.line_length_at data ptr = Ok len
           /\ ((len = 0 /\ count = 1
                /\ line_accepted data abs_end width (ptr + 2) 0)
               \/ (len <> 0 /\ ptr + len <= abs_end
                   /\ line_accepted data (ptr + len) width (ptr + 2) 0
                   /\ lines_accepted data abs_end width (ptr + len)
                        (count - 1)))).
Proof.
  intros H. inversion H as [ | ? Hlt El Hline | ? len n Hlt El Hlen Hfit Hline Hrest];
    subst.
  - left. split; reflexivity.
  - right. split; [exact Hlt | ]. exists 0. split; [exact El | ].
    left. repeat split. exact Hline.
  - right. split; [exact Hlt | ]. exists len. split; [exact El | ].
    right. replace (n + 1 - 1) with n by lia. repeat split; assumption.
Qed.

Lemma line_length_at_Ok data ptr len :
  ImageData32bpp.line_length_at data ptr = Ok len ->
  0 <= ptr /\ ptr + 1 < Z.of_nat (List.length data).
Proof.
  unfold ImageData32bpp.line_length_at.
  destruct (read data ptr) as [b0 | | ] eqn:E0; cbn [bind]; try discriminate.
  destruct (read data (ptr + 1)) as [b1 | | ] eqn:E1; cbn [bind];
    try discriminate.
  intros _. apply read_Ok in E0. apply read_Ok in E1. lia.
Qed.

Section TrueColourValidation.

Variables (data : list Z) (abs_end width : Z).

Hypothesis data_length : abs_end = Z.of_nat (List.length data).
Hypothesis no_wrap : 63 * abs_end < 4294967296.

(** The loop over the lines leaves at the end of the buffer with [count]
    more lines counted exactly when [count] accepted lines fill the
    buffer from [ptr]. *)
Lemma read_lines_spec fuel :
  forall ptr line_count count,
    0 <= ptr <= abs_end ->
    1 <= Z.of_nat fuel -> abs_end - ptr < Z.of_nat fuel ->
    ImageData32bpp.read_lines fuel data abs_end width ptr line_count false
    = Ok (Some (abs_end, line_count + count))
    <-> lines_accepted data abs_end width ptr count.
Proof.
  induction fuel as [ | fuel IH]; intros ptr lc n Hp Hf1 Hf; [simpl in Hf1; lia | ].
  cbn [ImageData32bpp.read_lines].
  destruct (Z.ltb_spec ptr abs_end) as [Hlt | Hge]; cbn [andb negb].
  2: { split.
       - intros E. injection E as E1 E2.
         replace n with 0 by lia. replace ptr with abs_end by lia. constructor.
       - intros H. apply lines_accepted_inv in H.
         destruct H as [[_ ->] | [Hlt _]]; [ | lia].
         rewrite Z.add_0_r. do 3 f_equal. lia. }
  destruct (ImageData32bpp.line_length_at data ptr) as [len | | ] eqn:El;
    cbn [bind].
  2, 3: split; [discriminate | ];
    intros H; apply lines_accepted_inv in H;
    destruct H as [[Habs _] | [_ [len [El' _]]]];
    [lia | rewrite El in El'; discriminate El'].
  pose proof (line_length_at_range _ _ _ El) as Hrange.
  pose proof (line_length_at_Ok _ _ _ El) as Hin.
  destruct fuel as [ | fuel']; [lia | ].
  destruct (Z.eqb_spec len 0) as [-> | Hlen]; cbn [negb andb].
  - destruct (read_line_spec data abs_end width data_length abs_end
                (S (List.length data)) (ptr + 2) 0)
      as [ptr' [xpos [fl [Er K]]]]; try lia.
    rewrite Er. cbn [bind].
    destruct (xpos >? width) eqn:Hx.
    { split; [discriminate | ]. intros H. apply lines_accepted_inv in H.
      destruct H as [[Habs _] | [_ [len [El' [[_ [_ Hl]] | [Hl _]]]]]];
        [lia | | rewrite El in El'; injection El' as <-; contradiction].
      apply K in Hl. destruct Hl as [Hx' _]. discriminate Hx'. }
    destruct fl; cbn [negb].
    2: { split; [discriminate | ]. intros H. apply lines_accepted_inv in H.
         destruct H as [[Habs _] | [_ [len [El' [[_ [_ Hl]] | [Hl _]]]]]];
           [lia | | rewrite El in El'; injection El' as <-; contradiction].
         apply K in Hl. destruct Hl as [_ [Hfl _]]. discriminate Hfl. }
    destruct (Z.eqb_spec ptr' abs_end) as [-> | Hne]; cbn [negb].
    2: { split; [discriminate | ]. intros H. apply lines_accepted_inv in H.
         destruct H as [[Habs _] | [_ [len [El' [[_ [_ Hl]] | [Hl _]]]]]];
           [lia | | rewrite El in El'; injection El' as <-; contradiction].
         apply K in Hl. destruct Hl as [_ [_ He]]. contradiction. }
    cbn [ImageData32bpp.read_lines]. rewrite andb_false_r. split.
    + intros E. injection E as E. replace n with 1 by lia.
      apply last_line; try assumption. apply K. repeat split.
    + intros H. apply lines_accepted_inv in H.
      destruct H as [[Habs _] | [_ [len [El' [[_ [-> _]] | [Hl _]]]]]];
        [lia | reflexivity | rewrite El in El'; injection El' as <-; contradiction].
  - destruct (Z.gtb_spec (ptr + len) abs_end) as [Hover | Hfit].
    { split; [discriminate | ]. intros H. apply lines_accepted_inv in H.
      destruct H as [[Habs _] | [_ [len' [El' [[Hz _] | [_ [Hfit' _]]]]]]];
        try (rewrite El in El'; injection El' as <-); lia. }
    destruct (read_line_spec data abs_end width data_length (ptr + len)
                (S (List.length data)) (ptr + 2) 0)
      as [ptr' [xpos [fl [Er K]]]]; try lia.
    rewrite Er. cbn [bind].
    assert (lines_accepted data abs_end width ptr n ->
            line_accepted data (ptr + len) width (ptr + 2) 0
            /\ lines_accepted data abs_end width (ptr + len) (n - 1)) as Hinv.
    { intros H. apply lines_accepted_inv in H.
      destruct H as [[Habs _] | [_ [len' [El' [[Hz _] | [_ [_ [Hl Hr]]]]]]]];
        try (rewrite El in El'; injection El' as <-); try lia.
      split; assumption. }
    destruct (xpos >? width) eqn:Hx.
    { split; [discriminate | ]. intros H. apply Hinv in H.
      destruct H as [Hl _]. apply K in Hl. destruct Hl as [Hx' _].
      discriminate Hx'. }
    destruct fl; cbn [negb].
    2: { split; [discriminate | ]. intros H. apply Hinv in H.
         destruct H as [Hl _]. apply K in Hl. destruct Hl as [_ [Hfl _]].
         discriminate Hfl. }
    destruct (Z.eqb_spec ptr' (ptr + len)) as [-> | Hne]; cbn [negb].
    2: { split; [discriminate | ]. intros H. apply Hinv in H.
         destruct H as [Hl _]. apply K in Hl. destruct Hl as [_ [_ He]].
         contradiction. }
    replace (lc + n) with (lc + 1 + (n - 1)) by lia.
    rewrite IH by lia. split.
    + intros H. replace n with (n - 1 + 1) by lia.
      eapply more_lines; try eassumption. apply K. repeat split.
    + intros H. apply Hinv in H. exact (proj2 H).
Qed.

(** The validation succeeds exactly when [height] accepted lines fill the
    buffer. *)
Lemma verify_spec height :
  ImageData32bpp.verify data abs_end width height = Ok true
  <-> lines_accepted data abs_end width 0 height.
Proof.
  unfold ImageData32bpp.verify.
  pose proof (read_lines_spec (S (List.length data)) 0 0 height
                ltac:(lia) ltac:(lia) ltac:(lia)) as K.
  rewrite Z.add_0_l in K. rewrite <- K.
  destruct (ImageData32bpp.read_lines _ _ _ _ _ _ _) as [[[ptr lc] | ] | | ];
    cbn [bind]; try (split; discriminate).
  destruct (Z.eqb_spec lc height) as [-> | Hlc]; cbn [negb].
  2: { split; [discriminate | ]. intros E. injection E; intros; lia. }
  destruct (Z.eqb_spec ptr abs_end) as [-> | Hptr]; cbn [negb].
  - split; reflexivity.
  - split; [discriminate | ]. intros E. injection E; intros; lia.
Qed.

End TrueColourValidation.

(** X6: [ImageData32bpp::LoadData] succeeds exactly when the payload is
    [height] accepted lines that fill the buffer: every line ends where its
    length word says (a length word 0 standing for the end of the buffer),
    its runs end with the mode byte 0 as the last byte of the line, and
    their counts sum to at most the width. *)
Theorem LoadData32_accepts_exactly (this : ImageData32bpp.t)
  (rcd_file : RcdFileReader) (length : Z) :
  0 <= length ->
  63 * length < 4294967296 ->
  ImageData32bpp.LoadData this rcd_file length
  = Ok (true,
        ImageData32bpp.mk (ImageData32bpp.base this)
          (fst (GetBlob rcd_file length)),
        snd (GetBlob rcd_file length))
  <-> lines_accepted (fst (GetBlob rcd_file length)) length
        (width (ImageData32bpp.base this)) 0
        (height (ImageData32bpp.base this)).
Proof.
  intros Hlen Hwrap. unfold ImageData32bpp.LoadData.
  destruct (GetBlob rcd_file length) as [data rcd1] eqn:Eb.
  cbn [fst snd ImageData32bpp.base].
  assert (length = Z.of_nat (List.length data)) as Hdata.
  { unfold GetBlob in Eb. injection Eb as <- _.
    rewrite GetBlob_bytes_length. lia. }
  rewrite <- (verify_spec data length (width (ImageData32bpp.base this))
                Hdata Hwrap).
  destruct (ImageData32bpp.verify _ _ _ _) as [[ | ] | | ]; cbn [bind];
    split; intros E; try reflexivity; discriminate E.
Qed.

Lemma LoadData32_accepts_exactly_witness :
  let this := ImageData32bpp.new (sized 0 2 2) in
  let rcd_file :=
    of_bytes "32PX" 1 ([10; 0; 2; 1; 2; 3; 4; 5; 6; 0] ++ [0; 0; 130; 0]) in
  ImageData32bpp.LoadData this rcd_file 14
  = Ok (true,
        ImageData32bpp.mk (ImageData32bpp.base this) (fst (GetBlob rcd_file 14)),
        snd (GetBlob rcd_file 14))
  <-> lines_accepted (fst (GetBlob rcd_file 14)) 14
        (width (ImageData32bpp.base this)) 0
        (height (ImageData32bpp.base this)).
Proof.
  intros this rcd_file.
  apply (LoadData32_accepts_exactly this rcd_file 14); lia.
Defined.

(** The two lines of the witness are accepted, and the image loads. *)
Example LoadData32_two_lines :
  loaded_sprite
    (LoadImage
       (of_bytes "32PX" 1
          ([2; 0; 2; 0; 0; 0; 0; 0]
           ++ [10; 0; 2; 1; 2; 3; 4; 5; 6; 0] ++ [0; 0; 130; 0])) [])
  = Some (Sprite32
            (ImageData32bpp.mk (sized 0 2 2)
               ([10; 0; 2; 1; 2; 3; 4; 5; 6; 0] ++ [0; 0; 130; 0]))).
Proof. vm_compute. reflexivity. Qed.

Lemma LoadImage_Sprite32 rcd_file _sprites imd rcd_file' _sprites' :
  LoadImage rcd_file _sprites = Ok (Some (Sprite32 imd), rcd_file', _sprites') ->
  loaded32 imd.
Proof.
  intros E. apply LoadImage_success in E. cbv zeta in E.
  destruct E as [base [rcd1 [_ [Es [Ed _]]]]].
  apply LoadSizes_true in Es. destruct Es as [Hsize [Hw [Hh _]]].
  unfold Sprite_LoadData in Ed.
  destruct (String.eqb (name rcd_file) "8PXL").
  - destruct (ImageData8bpp.LoadData (ImageData8bpp.new base) rcd1
                (size rcd_file - 8)) as [[[ok imd1] rcd2] | | ];
      cbn in Ed; discriminate Ed.
  - destruct (ImageData32bpp.LoadData (ImageData32bpp.new base) rcd1
                (size rcd_file - 8)) as [[[ok imd1] rcd2] | | ] eqn:E32;
      cbn in Ed; try discriminate Ed.
    injection Ed as -> <- _.
    apply LoadData32_advance in E32; [ | lia].
    destruct E32 as [_ [Hbase [Hv [Hdata Hbytes]]]].
    cbn [ImageData32bpp.new ImageData32bpp.base] in Hbase, Hv.
    unfold loaded32. cbv zeta. rewrite Hbase, <- Hdata.
    repeat split; try assumption; try lia.
    apply (verify_spec _ _ _ Hdata ltac:(lia)). exact Hv.
Qed.

(** ** Pixel queries on true-colour images *)

Lemma skip_lines_accepted data abs_end width ptr count :
  lines_accepted data abs_end width ptr count ->
  forall k, Z.of_nat k < count ->
    exists ptr', ImageData32bpp.skip_lines k data ptr = Ok ptr'.
Proof.
  induction 1 as [ | ptr Hlt El Hline | ptr len n Hlt El Hlen Hfit Hline Hrest IH];
    intros k Hk.
  - lia.
  - destruct k as [ | k]; [ | lia]. eexists. reflexivity.
  - destruct k as [ | k]; [eexists; reflexivity | ].
    cbn [ImageData32bpp.skip_lines]. rewrite El. cbn [bind].
    apply IH. lia.
Qed.

(** X7: on a true-colour image that [LoadImage] returned, the pixel query
    at column 0 of any line of the image returns the colour of index 0,
    whatever the line holds there: the loop over the runs (line 380) is
    not entered for [xoffset = 0].  Outside the image the query returns
    the colour of index 0 as well. *)
Theorem GetPixel32_first_column {GradientShift : Type} (_palette : Z -> Z)
  (GetGradientShiftFunc : GradientShift -> Z -> Z)
  (rcd_file rcd_file' : RcdFileReader) (_sprites _sprites' : list Sprite)
  (imd : ImageData32bpp.t) (xoffset yoffset : Z)
  (recolour : option (Recolouring GradientShift)) (shift : GradientShift) :
  LoadImage rcd_file _sprites = Ok (Some (Sprite32 imd), rcd_file', _sprites') ->
  0 <= yoffset ->
  xoffset = 0
  \/ width (ImageData32bpp.base imd) <= xoffset
  \/ height (ImageData32bpp.base imd) <= yoffset ->
  ImageData32bpp.GetPixel _palette GetGradientShiftFunc imd xoffset yoffset
    recolour shift
  = Ok (_palette 0).
Proof.
  intros E Hy Hcase. apply LoadImage_Sprite32 in E.
  destruct E as [_ [_ [Hw [Hh Hlines]]]].
  unfold ImageData32bpp.GetPixel.
  destruct (Z.geb_spec xoffset (width (ImageData32bpp.base imd))) as [Hx | Hx];
    [reflexivity | ].
  destruct (Z.geb_spec yoffset (height (ImageData32bpp.base imd))) as [Hy' | Hy'];
    [reflexivity | ].
  destruct Hcase as [-> | [Hout | Hout]]; try lia.
  destruct (skip_lines_accepted _ _ _ _ _ Hlines (Z.to_nat yoffset))
    as [ptr Es]; [lia | ].
  rewrite Es. reflexivity.
Qed.

Lemma GetPixel32_first_column_witness :
  let rcd_file :=
    of_bytes "32PX" 1
      ([2; 0; 2; 0; 0; 0; 0; 0]
       ++ [10; 0; 2; 1; 2; 3; 4; 5; 6; 0] ++ [0; 0; 2; 7; 8; 9; 10; 11; 12; 0]) in
  let imd :=
    ImageData32bpp.mk (sized 0 2 2)
      ([10; 0; 2; 1; 2; 3; 4; 5; 6; 0] ++ [0; 0; 2; 7; 8; 9; 10; 11; 12; 0]) in
  ImageData32bpp.GetPixel (fun i => 1000 + i) (fun (_ : unit) c => c) imd 0 1
    None tt
  = Ok (1000 + 0).
Proof.
  intros rcd_file imd.
  apply (GetPixel32_first_column (fun i => 1000 + i) (fun (_ : unit) c => c)
           rcd_file (advance rcd_file 28) [] [Sprite32 imd] imd 0 1 None tt).
  - vm_compute. reflexivity.
  - lia.
  - left. reflexivity.
Defined.

(** ** Blitting a true-colour image *)

Lemma line_accepted_read data end_ width ptr sum :
  line_accepted data end_ width ptr sum ->
  0 <= ptr < Z.of_nat (List.length data).
Proof.
  intros H. destruct H as [ptr sum _ E _ | ptr sum mode _ E _ _];
    apply read_Ok in E; tauto.
Qed.

Lemma line_accepted_sum data end_ width ptr sum :
  line_accepted data end_ width ptr sum -> sum <= width.
Proof.
  induction 1 as [ | ptr sum mode _ _ _ _ IH]; [assumption | ].
  pose proof (land_63_range mode). lia.
Qed.

Lemma lines_accepted_count data abs_end width ptr count :
  lines_accepted data abs_end width ptr count -> 0 <= count.
Proof. induction 1; lia. Qed.

Section BlitTrueColour.

Context {GradientShift : Type}.
Variable OPACITY_SEMI_TRANSPARENT : Z.
Variable cr : ClippedRectangle.t.
Variables numx numy : Z.
Variable this : ImageData32bpp.t.
Variable recolour : Recolouring GradientShift.
Variable sf : Z -> Z.
Variable semi : bool.

Local Notation "'image_width'" := (width (ImageData32bpp.base this)).
Local Notation "'image_height'" := (height (ImageData32bpp.base this)).
Local Notation "'image_data'" := (ImageData32bpp.data this).

Hypothesis image_bytes : bytes image_data.
Hypothesis width_range : 0 <= image_width < 65536.
Hypothesis height_range : 0 <= image_height < 65536.
Hypothesis cw_bound : ClippedRectangle.width cr + 65536 <= 2147483648.
Hypothesis ch_bound : ClippedRectangle.height cr + 65536 <= 2147483648.
Hypothesis step_fits :
  int32 (image_height * ClippedRectangle.pitch cr)
  = image_height * ClippedRectangle.pitch cr.

Lemma BlitImages_run_spec (colour_at : Z -> Z -> outcome Z) (stride : Z)
  (count : nat) :
  forall src xpos ypos mem,
    (forall i old, 0 <= i < Z.of_nat count ->
       exists colour, colour_at (src + stride * i) old = Ok colour) ->
    - 2147483648 <= xpos -> xpos + Z.of_nat count < 2147483648 ->
    - 2147483648 <= ypos < 2147483648 ->
    exists writes,
      Blit32bpp.BlitImages_run cr numx numy count this colour_at stride src
        xpos ypos (pixel_address cr xpos ypos) mem
      = Ok (src + stride * Z.of_nat count, xpos + Z.of_nat count,
            pixel_address cr (xpos + Z.of_nat count) ypos, pstores writes mem)
      /\ Forall (fun w => inside_clip cr (fst w)) writes.
Proof.
  induction count as [ | count IH]; intros src xpos ypos mem Hc Hx Hx' Hy.
  { exists []. split; [ | constructor].
    cbn [Blit32bpp.BlitImages_run Z.of_nat].
    rewrite Z.mul_0_r, !Z.add_0_r. reflexivity. }
  cbn [Blit32bpp.BlitImages_run].
  destruct (Hc 0 (mem (pixel_address cr xpos ypos))) as [colour Ec]; [lia | ].
  rewrite Z.mul_0_r, Z.add_0_r in Ec. rewrite Ec. cbn [bind].
  destruct (BlitPixel_effect cr xpos ypos numx numy image_width image_height
              colour) as [ws1 [E1 F1]]; try assumption; try lia.
  rewrite E1. cbn [bind].
  rewrite int32_small by lia. rewrite pixel_address_shift.
  destruct (IH (src + stride) (xpos + 1) ypos (pstores ws1 mem))
    as [ws2 [E2 F2]]; try lia.
  { intros i old Hi. destruct (Hc (i + 1) old) as [c E]; [lia | ].
    exists c. rewrite <- E. f_equal. ring. }
  exists (ws1 ++ ws2). split.
  - rewrite E2, pstores_app.
    replace (src + stride + stride * Z.of_nat count)
      with (src + stride * Z.of_nat (S count)) by lia.
    replace (xpos + 1 + Z.of_nat count) with (xpos + Z.of_nat (S count)) by lia.
    reflexivity.
  - apply Forall_app. split; assumption.
Qed.

Lemma shifted_rgb_Ok src :
  0 <= src -> src + 2 < Z.of_nat (List.length image_data) ->
  exists rgb, Blit32bpp.shifted_rgb image_data sf src = Ok rgb.
Proof.
  intros H0 H2. unfold Blit32bpp.shifted_rgb.
  destruct (read_in_range image_data src) as [r [Er _]]; [lia | ].
  destruct (read_in_range image_data (src + 1)) as [g [Eg _]]; [lia | ].
  destruct (read_in_range image_data (src + 2)) as [b [Eb _]]; [lia | ].
  rewrite Er, Eg, Eb. cbn [bind]. eexists. reflexivity.
Qed.

Lemma BlitImages_line_spec end_ ptr sum :
  line_accepted image_data end_ image_width ptr sum ->
  forall fuel xpos ypos mem,
    0 <= sum ->
    Z.of_nat (List.length image_data) - ptr < Z.of_nat fuel ->
    - 2147483648 <= xpos -> xpos + (image_width - sum) < 2147483648 ->
    - 2147483648 <= ypos < 2147483648 ->
    exists writes,
      Blit32bpp.BlitImages_line OPACITY_SEMI_TRANSPARENT cr numx numy fuel this
        recolour sf semi ypos ptr xpos (pixel_address cr xpos ypos) mem
      = Ok (end_, pstores writes mem)
      /\ Forall (fun w => inside_clip cr (fst w)) writes.
Proof.
  induction 1 as [ptr sum Hend E Hsum | ptr sum mode Hlt E Hmode Hrest IH];
    intros fuel xpos ypos mem Hs Hf Hx Hx' Hy;
    (destruct fuel as [ | fuel]; [pose proof (proj1 (read_Ok _ _ _ E)); lia | ]);
    cbn [Blit32bpp.BlitImages_line]; rewrite E; cbn [bind].
  { exists []. split; [ | constructor]. cbn [Z.eqb]. rewrite Hend. reflexivity. }
  destruct (Z.eqb_spec mode 0) as [ | _]; [contradiction | ].
  pose proof (read_Ok _ _ _ E) as [Hptr Hin].
  pose proof (bytes_In _ _ image_bytes Hin) as Hbyte.
  pose proof (land_63_range mode) as Hcount.
  pose proof (line_accepted_read _ _ _ _ _ Hrest) as Hnext.
  pose proof (line_accepted_sum _ _ _ _ _ Hrest) as Hfit.
  assert (0 <= Z.shiftr mode 6 < 4) as Hkind.
  { rewrite Z.shiftr_div_pow2 by lia. change (2 ^ 6) with 64.
    split; [apply Z.div_pos; lia | apply Z.div_lt_upper_bound; lia]. }
  assert (exists ws1,
    match Z.shiftr mode 6 with
    | 0 =>
        if semi
        then Blit32bpp.BlitImages_run cr numx numy (Z.to_nat (Z.land mode 63))
               this
               (Blit32bpp.opaque_colour_at OPACITY_SEMI_TRANSPARENT image_data
                  sf semi) 0 (ptr + 1 + 3 * Z.land mode 63) xpos ypos
               (pixel_address cr xpos ypos) mem
        else Blit32bpp.BlitImages_run cr numx numy (Z.to_nat (Z.land mode 63))
               this
               (Blit32bpp.opaque_colour_at OPACITY_SEMI_TRANSPARENT image_data
                  sf semi) 3 (ptr + 1) xpos ypos (pixel_address cr xpos ypos)
               mem
    | 1 =>
        opacity <- read image_data (ptr + 1) ;;
        Blit32bpp.BlitImages_run cr numx numy (Z.to_nat (Z.land mode 63)) this
          (Blit32bpp.partial_colour_at image_data sf
             (Blit32bpp.capped OPACITY_SEMI_TRANSPARENT semi opacity)) 3
          (ptr + 1 + 1) xpos ypos (pixel_address cr xpos ypos) mem
    | 2 =>
        Ok (ptr + 1, int32 (xpos + Z.land mode 63),
            pixel_address cr xpos ypos + Z.land mode 63, mem)
    | 3 =>
        layer <- read image_data (ptr + 1) ;;
        opacity <- read image_data (ptr + 1 + 1) ;;
        Blit32bpp.BlitImages_run cr numx numy (Z.to_nat (Z.land mode 63)) this
          (Blit32bpp.recoloured_colour_at image_data sf
             (GetRecolourTable recolour (layer - 1))
             (Blit32bpp.capped OPACITY_SEMI_TRANSPARENT semi opacity)) 1
          (ptr + 1 + 1 + 1) xpos ypos (pixel_address cr xpos ypos) mem
    | _ => Ok (ptr + 1, xpos, pixel_address cr xpos ypos, mem)
    end
    = Ok (ptr + 1 + run_payload mode, xpos + Z.land mode 63,
          pixel_address cr (xpos + Z.land mode 63) ypos, pstores ws1 mem)
    /\ Forall (fun w => inside_clip cr (fst w)) ws1) as [ws1 [E1 F1]].
  { revert Hkind Hnext. unfold run_payload.
    destruct (Z.shiftr mode 6) as [ | [[p | p | ] | [p | p | ] | ] | p];
      intros Hkind Hnext; try lia.
    - (* Fully opaque pixels. *)
      destruct semi eqn:Esemi.
      + destruct (BlitImages_run_spec
                    (Blit32bpp.opaque_colour_at OPACITY_SEMI_TRANSPARENT
                       image_data sf true) 0 (Z.to_nat (Z.land mode 63))
                    (ptr + 1 + 3 * Z.land mode 63) xpos ypos mem)
          as [ws [Er Fr]]; try lia.
        { intros i old _. eexists. reflexivity. }
        exists ws. split; [ | exact Fr]. rewrite Er.
        rewrite Z2Nat.id by lia. rewrite Z.mul_0_l, Z.add_0_r. reflexivity.
      + destruct (BlitImages_run_spec
                    (Blit32bpp.opaque_colour_at OPACITY_SEMI_TRANSPARENT
                       image_data sf false) 3 (Z.to_nat (Z.land mode 63))
                    (ptr + 1) xpos ypos mem)
          as [ws [Er Fr]]; try lia.
        { intros i old Hi. unfold Blit32bpp.opaque_colour_at.
          destruct (shifted_rgb_Ok (ptr + 1 + 3 * i)) as [[[r g] b] Ergb];
            try lia.
          rewrite Ergb. cbn. eexists. reflexivity. }
        exists ws. split; [ | exact Fr]. rewrite Er.
        rewrite Z2Nat.id by lia. reflexivity.
    - (* Recoloured pixels. *)
      destruct (read_in_range image_data (ptr + 1)) as [layer [El _]];
        [lia | ].
      destruct (read_in_range image_data (ptr + 1 + 1)) as [opacity [Eo _]];
        [lia | ].
      rewrite El, Eo. cbn [bind].
      destruct (BlitImages_run_spec
                  (Blit32bpp.recoloured_colour_at image_data sf
                     (GetRecolourTable recolour (layer - 1))
                     (Blit32bpp.capped OPACITY_SEMI_TRANSPARENT semi opacity))
                  1 (Z.to_nat (Z.land mode 63)) (ptr + 1 + 1 + 1) xpos ypos mem)
        as [ws [Er Fr]]; try lia.
      { intros i old Hi. unfold Blit32bpp.recoloured_colour_at.
        destruct (read_in_range image_data (ptr + 1 + 1 + 1 + 1 * i))
          as [index [Ei _]]; [lia | ].
        rewrite Ei. cbn [bind]. eexists. reflexivity. }
      exists ws. split; [ | exact Fr]. rewrite Er.
      rewrite Z2Nat.id by lia. do 2 f_equal. f_equal. f_equal. lia.
    - (* Fully transparent pixels. *)
      exists []. split; [ | constructor].
      rewrite int32_small by lia. rewrite pixel_address_shift.
      rewrite Z.add_0_r. reflexivity.
    - (* Partially opaque pixels. *)
      destruct (read_in_range image_data (ptr + 1)) as [opacity [Eo _]];
        [lia | ].
      rewrite Eo. cbn [bind].
      destruct (BlitImages_run_spec
                  (Blit32bpp.partial_colour_at image_data sf
                     (Blit32bpp.capped OPACITY_SEMI_TRANSPARENT semi opacity))
                  3 (Z.to_nat (Z.land mode 63)) (ptr + 1 + 1) xpos ypos mem)
        as [ws [Er Fr]]; try lia.
      { intros i old Hi. unfold Blit32bpp.partial_colour_at.
        destruct (shifted_rgb_Ok (ptr + 1 + 1 + 3 * i)) as [[[r g] b] Ergb];
          try lia.
        rewrite Ergb. cbn. eexists. reflexivity. }
      exists ws. split; [ | exact Fr]. rewrite Er.
      rewrite Z2Nat.id by lia. do 2 f_equal. f_equal. f_equal. lia. }
  rewrite E1. cbn [bind].
  pose proof (run_payload_nonneg mode) as Hpay.
  destruct (IH fuel (xpos + Z.land mode 63) ypos (pstores ws1 mem))
    as [ws2 [E2 F2]]; try lia.
  exists (ws1 ++ ws2). split.
  - rewrite E2, pstores_app. reflexivity.
  - apply Forall_app. split; assumption.
Qed.

Lemma BlitImages_lines_spec abs_end ptr count :
  lines_accepted image_data abs_end image_width ptr count ->
  forall x_base ypos mem,
    - 2147483648 <= x_base -> x_base + image_width < 2147483648 ->
    - 2147483648 <= ypos -> ypos + count < 2147483648 ->
    exists writes,
      Blit32bpp.BlitImages_lines OPACITY_SEMI_TRANSPARENT cr numx numy
        (Z.to_nat count) this recolour sf semi x_base (ptr + 2)
        (pixel_address cr x_base ypos) ypos mem
      = Ok (pstores writes mem)
      /\ Forall (fun w => inside_clip cr (fst w)) writes.
Proof.
  induction 1 as [ | ptr Hlt El Hline | ptr len n Hlt El Hlen Hfit Hline Hrest IH];
    intros x_base ypos mem Hx Hx' Hy Hy'.
  - exists []. split; [reflexivity | constructor].
  - change (Z.to_nat 1) with 1%nat. cbn [Blit32bpp.BlitImages_lines].
    pose proof (line_accepted_read _ _ _ _ _ Hline) as Hptr.
    destruct (BlitImages_line_spec _ _ _ Hline (S (List.length image_data))
                x_base ypos mem) as [ws [E F]]; try lia.
    rewrite E. cbn [bind]. exists ws. split; [reflexivity | exact F].
  - pose proof (lines_accepted_count _ _ _ _ _ Hrest) as Hn.
    rewrite Z2Nat.inj_add by lia. change (Z.to_nat 1) with 1%nat.
    rewrite Nat.add_1_r. cbn [Blit32bpp.BlitImages_lines].
    pose proof (line_accepted_read _ _ _ _ _ Hline) as Hptr.
    destruct (BlitImages_line_spec _ _ _ Hline (S (List.length image_data))
                x_base ypos mem) as [ws1 [E1 F1]]; try lia.
    rewrite E1. cbn [bind].
    rewrite int32_small by lia. rewrite pixel_address_next_row.
    destruct (IH x_base (ypos + 1) (pstores ws1 mem)) as [ws2 [E2 F2]];
      try lia.
    exists (ws1 ++ ws2). split.
    + rewrite E2, pstores_app. reflexivity.
    + apply Forall_app. split; assumption.
Qed.

End BlitTrueColour.

(** X8: blitting a true-colour image that [LoadImage] returned, at any
    position, with any tile counts, any recolouring and any gradient
    shift, returns: every byte it reads lies inside the data of the image,
    the walk over the runs ends behind the last line, and what it does to
    the screen is a sequence of stores at pixels inside the clipped
    rectangle.  The hypotheses keep the positions and the pointer offsets
    inside [int32]. *)
Theorem BlitImages32_inside_clip {GradientShift : Type}
  (GetGradientShiftFunc : GradientShift -> Z -> Z)
  (is_GS_SEMI_TRANSPARENT : GradientShift -> bool)
  (OPACITY_SEMI_TRANSPARENT : Z)
  (cr : ClippedRectangle.t) (numx numy : Z)
  (rcd_file rcd_file' : RcdFileReader) (_sprites _sprites' : list Sprite)
  (imd : ImageData32bpp.t) (x_base y_base : Z)
  (recolour : Recolouring GradientShift) (shift : GradientShift) :
  LoadImage rcd_file _sprites = Ok (Some (Sprite32 imd), rcd_file', _sprites') ->
  - 2147483648 <= x_base -> x_base + 65536 <= 2147483648 ->
  - 2147483648 <= y_base -> y_base + 65536 <= 2147483648 ->
  ClippedRectangle.width cr + 65536 <= 2147483648 ->
  ClippedRectangle.height cr + 65536 <= 2147483648 ->
  int32 (ClippedRectangle.pitch cr * y_base) = ClippedRectangle.pitch cr * y_base ->
  int32 (height (ImageData32bpp.base imd) * ClippedRectangle.pitch cr)
  = height (ImageData32bpp.base imd) * ClippedRectangle.pitch cr ->
  forall mem,
  exists writes,
    Blit32bpp.BlitImages GetGradientShiftFunc is_GS_SEMI_TRANSPARENT
      OPACITY_SEMI_TRANSPARENT cr numx numy imd x_base y_base recolour shift mem
    = Ok (pstores writes mem)
    /\ Forall (fun w => inside_clip cr (fst w)) writes.
Proof.
  intros E Hx Hx' Hy Hy' Hcw Hch Hbase Hstep mem.
  apply LoadImage_Sprite32 in E.
  destruct E as [Hbytes [_ [Hw [Hh Hlines]]]]. cbv zeta in Hbytes, Hlines.
  unfold Blit32bpp.BlitImages. rewrite Hbase.
  change (ClippedRectangle.address cr + x_base + ClippedRectangle.pitch cr * y_base)
    with (pixel_address cr x_base y_base).
  change 2 with (0 + 2) at 1.
  apply (BlitImages_lines_spec OPACITY_SEMI_TRANSPARENT cr numx numy imd recolour
           (GetGradientShiftFunc shift) (is_GS_SEMI_TRANSPARENT shift) Hbytes
           ltac:(lia) ltac:(lia) Hcw Hch Hstep _ _ _ Hlines); lia.
Qed.

Lemma BlitImages32_inside_clip_witness :
  let rcd_file :=
    of_bytes "32PX" 1
      ([3; 0; 2; 0; 0; 0; 0; 0]
       ++ [13; 0; 1; 10; 20; 30; 129; 65; 128; 40; 50; 60; 0]
       ++ [0; 0; 193; 1; 200; 5; 0]) in
  let imd :=
    ImageData32bpp.mk (sized 0 3 2)
      ([13; 0; 1; 10; 20; 30; 129; 65; 128; 40; 50; 60; 0]
       ++ [0; 0; 193; 1; 200; 5; 0]) in
  let cr := ClippedRectangle.mk 4 2 4 100 in
  exists writes,
    Blit32bpp.BlitImages (fun (semi : bool) c => c) (fun semi => semi) 128
      cr 2 3 imd (-1) 0
      (mkRecolouring bool (fun _ i => i) (fun _ i => MakeRGBA i i i OPAQUE))
      true (fun _ => 0)
    = Ok (pstores writes (fun _ => 0))
    /\ Forall (fun w => inside_clip cr (fst w)) writes.
Proof.
  intros rcd_file imd cr.
  apply (BlitImages32_inside_clip (fun (semi : bool) c => c) (fun semi => semi)
           128 cr 2 3 rcd_file (advance rcd_file 28) [] [Sprite32 imd] imd (-1) 0
           (mkRecolouring bool (fun _ i => i) (fun _ i => MakeRGBA i i i OPAQUE))
           true);
    try (simpl; lia); vm_compute; reflexivity.
Defined.

(** ** Pixel queries inside the runs of a true-colour image *)

Lemma skip_lines_line data abs_end width ptr count :
  lines_accepted data abs_end width ptr count ->
  forall k line, Z.of_nat k < count ->
    ImageData32bpp.skip_lines k data ptr = Ok line ->
    exists end_, line_accepted data end_ width (line + 2) 0.
Proof.
  induction 1 as [ | ptr Hlt El Hline | ptr len n Hlt El Hlen Hfit Hline Hrest IH];
    intros k line Hk Es.
  - lia.
  - destruct k as [ | k]; [ | lia]. injection Es as <-.
    exists abs_end. exact Hline.
  - destruct k as [ | k].
    + injection Es as <-. exists (ptr + len). exact Hline.
    + cbn [ImageData32bpp.skip_lines] in Es. rewrite El in Es. cbn [bind] in Es.
      apply (IH k line); [lia | exact Es].
Qed.

Lemma column_in_run_le data ptr x skipped mode run i :
  column_in_run data ptr x skipped mode run i -> i <= x.
Proof.
  induction 1 as [ | ptr before x skipped mode run i _ _ _ IH]; [lia | ].
  pose proof (land_63_range before). lia.
Qed.

Lemma column_in_run_line data end_ width ptr x skipped mode run i :
  column_in_run data ptr x skipped mode run i ->
  forall sum,
    line_accepted data end_ width ptr sum ->
    0 < run /\ run + run_payload mode < Z.of_nat (List.length data).
Proof.
  induction 1 as [ptr mode i E Hm Hi | ptr before x skipped mode run i E Hb _ IH];
    intros sum Hacc;
    apply line_accepted_inv in Hacc;
    destruct Hacc as [mode' [_ [E' [_ Hrest]]]];
    rewrite E in E'; injection E' as <-.
  - apply read_Ok in E. apply Hrest in Hm.
    apply line_accepted_read in Hm. lia.
  - apply Hrest in Hb. exact (IH _ Hb).
Qed.

Lemma GetPixel_skip_run_payload mode ptr :
  Z.shiftr mode 6 <> 2 ->
  ImageData32bpp.GetPixel_skip_run mode ptr = ptr + run_payload mode.
Proof.
  unfold ImageData32bpp.GetPixel_skip_run, run_payload.
  destruct (Z.shiftr mode 6) as [ | [[p | p | ] | [p | p | ] | ] | p]; lia.
Qed.

Lemma GetPixel_walk_column {GradientShift : Type} (_palette : Z -> Z)
  (recolour : option (Recolouring GradientShift)) (sf : Z -> Z)
  data ptr x skipped mode run i :
  column_in_run data ptr x skipped mode run i ->
  Forall (fun before => Z.shiftr before 6 <> 2) skipped ->
  1 <= i ->
  0 <= Z.shiftr mode 6 < 4 ->
  x < 65536 ->
  forall fuel,
    Z.of_nat (List.length data) - ptr < Z.of_nat fuel ->
    ImageData32bpp.GetPixel_walk _palette fuel data recolour sf ptr x
    = run_pixel _palette data sf recolour mode run i.
Proof.
  induction 1 as [ptr mode i E Hm Hi | ptr before x skipped mode run i E Hb Hin IH];
    intros Hskipped Hfirst Hkind Hx fuel Hfuel;
    (destruct fuel as [ | fuel]; [pose proof (proj1 (read_Ok _ _ _ E)); lia | ]);
    cbn [ImageData32bpp.GetPixel_walk].
  - destruct (Z.gtb_spec i 0) as [_ | ]; [ | lia].
    rewrite E. cbn [bind].
    destruct (Z.eqb_spec mode 0) as [ | _]; [contradiction | ].
    destruct (Z.ltb_spec (Z.land mode 63) i) as [ | _]; [lia | ].
    unfold run_pixel.
    destruct (Z.shiftr mode 6) as [ | [[p | p | ] | [p | p | ] | ] | p];
      try lia; reflexivity.
  - pose proof (column_in_run_le _ _ _ _ _ _ _ Hin) as Hle.
    pose proof (land_63_range before) as Hcount.
    pose proof (run_payload_nonneg before) as Hpay.
    destruct (Z.gtb_spec (Z.land before 63 + x) 0) as [_ | ]; [ | lia].
    rewrite E. cbn [bind].
    destruct (Z.eqb_spec before 0) as [ | _]; [contradiction | ].
    destruct (Z.ltb_spec (Z.land before 63) (Z.land before 63 + x)) as [_ | ];
      [ | lia].
    replace (Z.land before 63 + x - Z.land before 63) with x by lia.
    rewrite uint16_small by lia.
    rewrite GetPixel_skip_run_payload by exact (Forall_inv Hskipped).
    apply IH; try assumption; try lia.
    exact (Forall_inv_tail Hskipped).
Qed.

Lemma run_pixel_Ok {GradientShift : Type} (_palette : Z -> Z)
  (recolour : option (Recolouring GradientShift)) (sf : Z -> Z)
  data mode run i :
  0 < run -> run + run_payload mode < Z.of_nat (List.length data) ->
  0 <= i < Z.land mode 63 ->
  0 <= Z.shiftr mode 6 < 4 ->
  exists colour, run_pixel _palette data sf recolour mode run i = Ok colour.
Proof.
  intros Hrun Hend Hi. unfold run_pixel. revert Hend. unfold run_payload.
  destruct (Z.shiftr mode 6) as [ | [[p | p | ] | [p | p | ] | ] | p];
    intros Hend Hkind; try lia.
  - destruct (read_in_range data (run + 3 * i)) as [r [Er _]]; [lia | ].
    destruct (read_in_range data (run + 3 * i + 1)) as [g [Eg _]]; [lia | ].
    destruct (read_in_range data (run + 3 * i + 2)) as [b [Eb _]]; [lia | ].
    rewrite Er, Eg, Eb. cbn [bind]. eexists. reflexivity.
  - destruct (read_in_range data (run + 1)) as [o [Eo _]]; [lia | ].
    rewrite Eo. cbn [bind]. destruct recolour as [rc | ].
    + destruct (read_in_range data run) as [l [El _]]; [lia | ].
      destruct (read_in_range data (run + (2 + i))) as [x [Ex _]]; [lia | ].
      rewrite El, Ex. cbn [bind]. eexists. reflexivity.
    + eexists. reflexivity.
  - eexists. reflexivity.
  - destruct (read_in_range data run) as [o [Eo _]]; [lia | ].
    destruct (read_in_range data (run + (1 + 3 * i))) as [r [Er _]]; [lia | ].
    destruct (read_in_range data (run + (1 + 3 * i) + 1)) as [g [Eg _]];
      [lia | ].
    destruct (read_in_range data (run + (1 + 3 * i) + 2)) as [b [Eb _]];
      [lia | ].
    rewrite Eo, Er, Eg, Eb. cbn [bind]. eexists. reflexivity.
Qed.

(** X9: on a true-colour image that [LoadImage] returned, let column
    [xoffset] of line [yoffset] be pixel [i] of a run, not the first pixel
    of that run ([1 <= i]), and let no run of fully transparent pixels
    stand before that run in the line.  Then the pixel query returns a
    colour, and it is the colour of that pixel of the run. *)
Theorem GetPixel32_inside_run {GradientShift : Type} (_palette : Z -> Z)
  (GetGradientShiftFunc : GradientShift -> Z -> Z)
  (rcd_file rcd_file' : RcdFileReader) (_sprites _sprites' : list Sprite)
  (imd : ImageData32bpp.t) (xoffset yoffset : Z)
  (recolour : option (Recolouring GradientShift)) (shift : GradientShift)
  (line : Z) (skipped : list Z) (mode run i : Z) :
  LoadImage rcd_file _sprites = Ok (Some (Sprite32 imd), rcd_file', _sprites') ->
  xoffset < width (ImageData32bpp.base imd) ->
  0 <= yoffset < height (ImageData32bpp.base imd) ->
  ImageData32bpp.skip_lines (Z.to_nat yoffset) (ImageData32bpp.data imd) 0
  = Ok line ->
  column_in_run (ImageData32bpp.data imd) (line + 2) xoffset skipped mode run i ->
  Forall (fun before => Z.shiftr before 6 <> 2) skipped ->
  1 <= i ->
  exists colour,
    run_pixel _palette (ImageData32bpp.data imd) (GetGradientShiftFunc shift)
      recolour mode run i = Ok colour
    /\ ImageData32bpp.GetPixel _palette GetGradientShiftFunc imd xoffset yoffset
         recolour shift
       = Ok colour.
Proof.
  intros E Hx Hy Es Hcol Hskipped Hfirst. apply LoadImage_Sprite32 in E.
  destruct E as [Hbytes [_ [Hw [Hh Hlines]]]]. cbv zeta in Hbytes, Hlines.
  destruct (skip_lines_line _ _ _ _ _ Hlines (Z.to_nat yoffset) line
              ltac:(lia) Es) as [end_ Hline].
  pose proof (column_in_run_line _ _ _ _ _ _ _ _ _ Hcol _ Hline) as [Hrun Hend].
  assert (0 <= Z.shiftr mode 6 < 4 /\ 0 <= i < Z.land mode 63) as [Hkind Hi].
  { clear - Hcol Hbytes. induction Hcol as [ptr mode i E Hm Hi | ]; [ | assumption].
    apply read_Ok in E. destruct E as [_ Hin].
    pose proof (bytes_In _ _ Hbytes Hin) as Hbyte.
    split; [ | exact Hi].
    rewrite Z.shiftr_div_pow2 by lia. change (2 ^ 6) with 64.
    split; [apply Z.div_pos; lia | apply Z.div_lt_upper_bound; lia]. }
  destruct (run_pixel_Ok _palette recolour (GetGradientShiftFunc shift)
              _ _ _ _ Hrun Hend Hi Hkind) as [colour Ec].
  exists colour. split; [exact Ec | ].
  unfold ImageData32bpp.GetPixel.
  destruct (Z.geb_spec xoffset (width (ImageData32bpp.base imd))) as [ | _];
    [lia | ].
  destruct (Z.geb_spec yoffset (height (ImageData32bpp.base imd))) as [ | _];
    [lia | ].
  rewrite Es. cbn [bind]. rewrite <- Ec.
  apply (GetPixel_walk_column _palette recolour (GetGradientShiftFunc shift)
           _ _ _ _ _ _ _ Hcol Hskipped Hfirst Hkind); [lia | ].
  apply line_accepted_read in Hline. lia.
Qed.

Lemma GetPixel32_inside_run_witness :
  let data := [0; 0; 2; 1; 2; 3; 4; 5; 6; 66; 128; 7; 8; 9; 10; 11; 12; 0] in
  let imd := ImageData32bpp.mk (sized 0 4 1) data in
  exists colour,
    run_pixel (fun i => 1000 + i) data (fun c => c) (@None (Recolouring unit))
      66 10 1 = Ok colour
    /\ ImageData32bpp.GetPixel (fun i => 1000 + i) (fun (_ : unit) c => c) imd
         3 0 None tt
       = Ok colour.
Proof.
  intros data imd.
  pose (rcd_file := of_bytes "32PX" 1 ([4; 0; 1; 0; 0; 0; 0; 0] ++ data)).
  apply (GetPixel32_inside_run (fun i => 1000 + i) (fun (_ : unit) c => c)
           rcd_file (advance rcd_file 26) [] [Sprite32 imd] imd 3 0 None tt
           0 [2] 66 10 1).
  - vm_compute. reflexivity.
  - simpl. lia.
  - simpl. lia.
  - reflexivity.
  - apply (column_later (ImageData32bpp.data imd) 2 2 1 [] 66 10 1).
    + reflexivity.
    + discriminate.
    + apply (column_here (ImageData32bpp.data imd) 9 66 1).
      * reflexivity.
      * discriminate.
      * change (0 <= 1 < 2). lia.
  - repeat constructor. discriminate.
  - lia.
Defined.

(** ** A pixel query that leaves the data *)

Lemma read_behind buf i : Z.of_nat (List.length buf) <= i -> read buf i = Fault.
Proof.
  intros H. unfold read.
  destruct (Z.ltb_spec i 0) as [ | _]; [reflexivity | ].
  destruct (nth_error buf (Z.to_nat i)) eqn:E; [ | reflexivity].
  assert (nth_error buf (Z.to_nat i) <> None) as Hn by congruence.
  apply nth_error_Some in Hn. lia.
Qed.

Lemma skip_lines_last_line data abs_end width ptr count :
  lines_accepted data abs_end width ptr count ->
  forall k line, Z.of_nat k = count - 1 ->
    ImageData32bpp.skip_lines k data ptr = Ok line ->
    line_accepted data abs_end width (line + 2) 0.
Proof.
  induction 1 as [ | ptr Hlt El Hline | ptr len n Hlt El Hlen Hfit Hline Hrest IH];
    intros k line Hk Es.
  - lia.
  - destruct k as [ | k]; [ | lia]. injection Es as <-. exact Hline.
  - destruct k as [ | k].
    + injection Es as <-.
      apply lines_accepted_inv in Hrest.
      destruct Hrest as [[<- _] | [_ [len' [_ [[_ [Hc _]] | [_ [_ [_ Hc]]]]]]]].
      * exact Hline.
      * lia.
      * apply lines_accepted_count in Hc. lia.
    + cbn [ImageData32bpp.skip_lines] in Es. rewrite El in Es. cbn [bind] in Es.
      apply (IH k line); [lia | exact Es].
Qed.

(** X10: on a true-colour image that [LoadImage] returned, let the last
    line hold one run of fully opaque pixels and nothing else, fewer
    pixels than the image is wide.  The pixel query for the column right
    behind that run, a column of the image, takes the run for the one
    that holds the column (line 383 compares with [<]) and reads the
    three bytes behind the run: the first is the byte 0 that ends the
    line, the other two lie behind the data. *)
Theorem GetPixel32_reads_behind_data {GradientShift : Type} (_palette : Z -> Z)
  (GetGradientShiftFunc : GradientShift -> Z -> Z)
  (rcd_file rcd_file' : RcdFileReader) (_sprites _sprites' : list Sprite)
  (imd : ImageData32bpp.t) (yoffset : Z)
  (recolour : option (Recolouring GradientShift)) (shift : GradientShift)
  (line mode : Z) :
  LoadImage rcd_file _sprites = Ok (Some (Sprite32 imd), rcd_file', _sprites') ->
  0 <= yoffset ->
  yoffset + 1 = height (ImageData32bpp.base imd) ->
  ImageData32bpp.skip_lines (Z.to_nat yoffset) (ImageData32bpp.data imd) 0
  = Ok line ->
  read (ImageData32bpp.data imd) (line + 2) = Ok mode ->
  mode <> 0 ->
  Z.shiftr mode 6 = 0 ->
  read (ImageData32bpp.data imd) (line + 2 + 1 + 3 * Z.land mode 63) = Ok 0 ->
  Z.land mode 63 < width (ImageData32bpp.base imd) ->
  ImageData32bpp.GetPixel _palette GetGradientShiftFunc imd (Z.land mode 63)
    yoffset recolour shift
  = Fault.
Proof.
  intros E Hy Hlast Es Em Hm Hkind Et Hx. apply LoadImage_Sprite32 in E.
  destruct E as [Hbytes [_ [Hw [Hh Hlines]]]]. cbv zeta in Hbytes, Hlines.
  pose proof (skip_lines_last_line _ _ _ _ _ Hlines (Z.to_nat yoffset) line
                ltac:(lia) Es) as Hline.
  apply line_accepted_inv in Hline.
  destruct Hline as [mode' [_ [Em' [_ Hrest]]]].
  rewrite Em in Em'. injection Em' as <-.
  apply Hrest in Hm as Hnext. unfold run_payload in Hnext.
  rewrite Hkind in Hnext.
  apply line_accepted_inv in Hnext.
  destruct Hnext as [zero [_ [Et' [Hend _]]]].
  rewrite Et in Et'. injection Et' as <-.
  destruct (Hend eq_refl) as [Hend' _].
  assert (1 <= Z.land mode 63) as Hcount.
  { pose proof (land_63_range mode) as Hr.
    destruct (Z.eq_dec (Z.land mode 63) 0) as [Hz | ]; [ | lia].
    exfalso. apply Hm. apply Z.bits_inj'. intros n Hn. rewrite Z.bits_0.
    destruct (Z.ltb_spec n 6) as [Hlt | Hge].
    - apply (f_equal (fun v => Z.testbit v n)) in Hz.
      rewrite Z.land_spec, Z.bits_0 in Hz.
      change 63 with (Z.ones 6) in Hz.
      rewrite Z.ones_spec_low in Hz by lia.
      rewrite andb_true_r in Hz. exact Hz.
    - apply (f_equal (fun v => Z.testbit v (n - 6))) in Hkind.
      rewrite Z.shiftr_spec, Z.bits_0 in Hkind by lia.
      replace (n - 6 + 6) with n in Hkind by lia. exact Hkind. }
  unfold ImageData32bpp.GetPixel.
  destruct (Z.geb_spec (Z.land mode 63) (width (ImageData32bpp.base imd)))
    as [ | _]; [lia | ].
  destruct (Z.geb_spec yoffset (height (ImageData32bpp.base imd))) as [ | _];
    [lia | ].
  rewrite Es. cbn [bind ImageData32bpp.GetPixel_walk].
  destruct (Z.gtb_spec (Z.land mode 63) 0) as [_ | ]; [ | lia].
  rewrite Em. cbn [bind].
  destruct (Z.eqb_spec mode 0) as [ | _]; [contradiction | ].
  rewrite Z.ltb_irrefl. rewrite Hkind. rewrite Et. cbn [bind].
  rewrite read_behind by lia. reflexivity.
Qed.

Lemma GetPixel32_reads_behind_data_witness :
  let data := [0; 0; 1; 10; 20; 30; 0] in
  let imd := ImageData32bpp.mk (sized 0 2 1) data in
  ImageData32bpp.GetPixel (fun i => 1000 + i) (fun (_ : unit) c => c) imd
    (Z.land 1 63) 0 None tt
  = Fault.
Proof.
  intros data imd.
  pose (rcd_file := of_bytes "32PX" 1 ([2; 0; 1; 0; 0; 0; 0; 0] ++ data)).
  apply (GetPixel32_reads_behind_data (fun i => 1000 + i)
           (fun (_ : unit) c => c) rcd_file (advance rcd_file 15) []
           [Sprite32 imd] imd 0 None tt 0 1).
  - vm_compute. reflexivity.
  - lia.
  - reflexivity.
  - reflexivity.
  - reflexivity.
  - discriminate.
  - reflexivity.
  - reflexivity.
  - simpl. lia.
Defined.

(** * Part IV: the calendar *)

Lemma days_per_month_read m :
  1 <= m <= 12 ->
  exists days, read Dates._days_per_month m = Ok days /\ 28 <= days <= 31.
Proof.
  intros H.
  assert (m = 1 \/ m = 2 \/ m = 3 \/ m = 4 \/ m = 5 \/ m = 6 \/ m = 7 \/ m = 8
          \/ m = 9 \/ m = 10 \/ m = 11 \/ m = 12) as Hm by lia.
  repeat (destruct Hm as [-> | Hm]); try subst m;
    eexists; (split; [reflexivity | lia]).
Qed.

Lemma valid_date_fields d :
  valid_date d <->
  1 <= Dates.month d <= 12
  /\ (exists days,
        read Dates._days_per_month (Dates.month d) = Ok days
        /\ 1 <= Dates.day d <= days)
  /\ 1 <= Dates.year d < 128
  /\ 0 <= Dates.frac d < 300.
Proof.
  unfold valid_date, Dates.Date_of_fields. destruct d as [dd mm yy ff].
  cbn [Dates.day Dates.month Dates.year Dates.frac].
  change (Z.shiftl 1 Dates.CDB_YEAR_LENGTH) with 128.
  change Dates.TICK_COUNT_PER_DAY with 300.
  split.
  - intros E.
    destruct (Z.gtb_spec dd 0) as [Hd | ]; [ | discriminate E].
    destruct (read Dates._days_per_month mm) as [days | | ] eqn:Er;
      cbn [bind] in E; try discriminate E.
    destruct (Z.leb_spec dd days) as [Hd' | ]; [ | discriminate E].
    destruct (Z.gtb_spec mm 0) as [Hm | ]; [ | discriminate E].
    destruct (Z.ltb_spec mm 13) as [Hm' | ]; [ | discriminate E].
    destruct (Z.gtb_spec yy 0) as [Hy | ]; [ | discriminate E].
    destruct (Z.ltb_spec yy 128) as [Hy' | ]; [ | discriminate E].
    destruct (Z.geb_spec ff 0) as [Hf | ]; [ | discriminate E].
    destruct (Z.ltb_spec ff 300) as [Hf' | ]; [ | discriminate E].
    repeat split; try lia. exists days. split; [reflexivity | lia].
  - intros [Hm [[days [Er Hd]] [Hy Hf]]]. rewrite Er. cbn [bind].
    destruct (Z.gtb_spec dd 0) as [_ | ]; [ | lia].
    destruct (Z.leb_spec dd days) as [_ | ]; [ | lia].
    destruct (Z.gtb_spec mm 0) as [_ | ]; [ | lia].
    destruct (Z.ltb_spec mm 13) as [_ | ]; [ | lia].
    destruct (Z.gtb_spec yy 0) as [_ | ]; [ | lia].
    destruct (Z.ltb_spec yy 128) as [_ | ]; [ | lia].
    destruct (Z.geb_spec ff 0) as [_ | ]; [ | lia].
    destruct (Z.ltb_spec ff 300) as [_ | ]; [ | lia].
    reflexivity.
Qed.

Lemma small_land x n : 0 <= n -> 0 <= x < 2 ^ n -> x = Z.land x (Z.ones n).
Proof.
  intros Hn Hx. rewrite Z.land_ones by lia. symmetry. apply Z.mod_small. lia.
Qed.

Lemma Compress_fields dd mm yy ff :
  0 <= dd < 32 -> 0 <= mm < 16 -> 0 <= yy < 128 -> 0 <= ff < 1024 ->
  let cd := Dates.Compress (Dates.mkDate dd mm yy ff) in
  Z.land (Z.shiftr cd Dates.CDB_DAY_START) (Z.ones Dates.CDB_DAY_LENGTH) = dd
  /\ Z.land (Z.shiftr cd Dates.CDB_MONTH_START) (Z.ones Dates.CDB_MONTH_LENGTH)
     = mm
  /\ Z.land (Z.shiftr cd Dates.CDB_YEAR_START) (Z.ones Dates.CDB_YEAR_LENGTH)
     = yy
  /\ Z.land (Z.shiftr cd Dates.CDB_FRAC_START) (Z.ones Dates.CDB_FRAC_LENGTH)
     = ff.
Proof.
  intros Hd Hm Hy Hf. cbv zeta. unfold Dates.Compress, uint32.
  cbn [Dates.day Dates.month Dates.year Dates.frac].
  change Dates.CDB_DAY_START with 0. change Dates.CDB_MONTH_START with 5.
  change Dates.CDB_YEAR_START with 9. change Dates.CDB_FRAC_START with 16.
  change Dates.CDB_DAY_LENGTH with 5. change Dates.CDB_MONTH_LENGTH with 4.
  change Dates.CDB_YEAR_LENGTH with 7. change Dates.CDB_FRAC_LENGTH with 10.
  rewrite <- (Z.land_ones _ 32) by lia.
  rewrite (small_land dd 5), (small_land mm 4), (small_land yy 7),
    (small_land ff 10) by lia.
  repeat split; Z.bitblast.
Qed.

(** X11: a date that the constructor accepts comes back from its
    compressed form: if [GB x s n] is the [n] bits of [x] from bit [s]
    on, the constructor from a compressed date, given [Compress] of the
    date, passes its assertions and gives the date. *)
Theorem Date_Compress_round_trip (GB : Z -> Z -> Z -> Z) (d : Dates.Date) :
  extracts_bits GB ->
  valid_date d ->
  Dates.Date_of_compressed GB (Dates.Compress d) = Ok d.
Proof.
  intros HGB Hvalid. unfold Dates.Date_of_compressed. rewrite !HGB.
  pose proof (proj1 (valid_date_fields d) Hvalid)
    as [Hm [[days [Er Hd]] [Hy Hf]]].
  destruct (days_per_month_read _ Hm) as [days' [Er' Hdays]].
  rewrite Er in Er'. injection Er' as <-.
  destruct d as [dd mm yy ff].
  cbn [Dates.day Dates.month Dates.year Dates.frac] in *.
  destruct (Compress_fields dd mm yy ff) as [-> [-> [-> ->]]]; try lia.
  exact Hvalid.
Qed.

Lemma Date_Compress_round_trip_witness :
  Dates.Date_of_compressed (fun x s n => Z.land (Z.shiftr x s) (Z.ones n))
    (Dates.Compress (Dates.mkDate 30 9 127 299))
  = Ok (Dates.mkDate 30 9 127 299).
Proof.
  apply (Date_Compress_round_trip
           (fun x s n => Z.land (Z.shiftr x s) (Z.ones n))
           (Dates.mkDate 30 9 127 299)).
  - intros x s n. reflexivity.
  - reflexivity.
Defined.

Lemma OnTick_cases d :
  valid_date d ->
  exists days,
    read Dates._days_per_month (Dates.month d) = Ok days
    /\ 28 <= days <= 31 /\ 1 <= Dates.day d <= days
    /\ Dates.OnTick d
       = Ok (if Dates.frac d + 1 <? 300
             then (Dates.mkDate (Dates.day d) (Dates.month d) (Dates.year d)
                     (Dates.frac d + 1), [])
             else if Dates.day d + 1 <=? days
             then (Dates.mkDate (Dates.day d + 1) (Dates.month d)
                     (Dates.year d) 0, Dates.OnNewDay)
             else if (Dates.month d =? 9) || (Dates.month d =? 12)
             then (Dates.mkDate 1 3 (Dates.year d + 1) 0,
                   Dates.OnNewDay ++ Dates.OnNewMonth ++ Dates.OnNewYear)
             else (Dates.mkDate 1 (Dates.month d + 1) (Dates.year d) 0,
                   Dates.OnNewDay ++ Dates.OnNewMonth ++ [])).
Proof.
  intros Hvalid.
  pose proof (proj1 (valid_date_fields d) Hvalid)
    as [Hm [[days [Er Hd]] [Hy Hf]]].
  destruct (days_per_month_read _ Hm) as [days' [Er' Hdays]].
  rewrite Er in Er'. injection Er' as <-.
  exists days. repeat split; try lia; try assumption.
  unfold Dates.OnTick. change Dates.TICK_COUNT_PER_DAY with 300.
  change Dates.LAST_MONTH with 9. change Dates.FIRST_MONTH with 3.
  rewrite !int32_small by lia.
  destruct (Z.ltb_spec (Dates.frac d + 1) 300) as [ | _]; [reflexivity | ].
  rewrite Er. cbn [bind].
  destruct (Z.gtb_spec (Dates.day d + 1) days) as [Hgt | Hle];
    destruct (Z.leb_spec (Dates.day d + 1) days) as [Hle' | Hgt']; try lia.
  - destruct (Z.eqb_spec (Dates.month d) 9) as [H9 | H9]; cbn [orb];
      [reflexivity | ].
    destruct (Z.gtb_spec (Dates.month d + 1) 12) as [H12 | H12];
      destruct (Z.eqb_spec (Dates.month d) 12) as [H12' | H12']; try lia;
      reflexivity.
  - reflexivity.
Qed.

(** X12: one tick on a date that the constructor accepts returns, and
    leaves the day, the month and the fraction as the constructor demands
    them; the year stays or grows by one, and it is not held below
    [1 << CDB_YEAR_LENGTH]: the date after the tick is one that the
    constructor accepts exactly if its year is below 128. *)
Theorem OnTick_keeps_date_valid (d : Dates.Date) :
  valid_date d ->
  exists d' calls,
    Dates.OnTick d = Ok (d', calls)
    /\ Dates.year d <= Dates.year d' <= Dates.year d + 1
    /\ (valid_date d' <-> Dates.year d' < 128).
Proof.
  intros Hvalid.
  destruct (OnTick_cases d Hvalid) as [days [Er [Hdays [Hd E]]]].
  pose proof (proj1 (valid_date_fields d) Hvalid) as [Hm [_ [Hy Hf]]].
  rewrite E.
  destruct (Z.ltb_spec (Dates.frac d + 1) 300) as [Hfrac | Hfrac];
    [ | destruct (Z.leb_spec (Dates.day d + 1) days) as [Hday | Hday];
        [ | destruct ((Dates.month d =? 9) || (Dates.month d =? 12)) eqn:Elast ] ];
    eexists; eexists; (split; [reflexivity | ]);
    cbn [Dates.year]; (split; [lia | ]);
    rewrite valid_date_fields;
    cbn [Dates.day Dates.month Dates.year Dates.frac].
  - split; [lia | ]. intros _. repeat split; try lia.
    exists days. split; [exact Er | lia].
  - split; [lia | ]. intros _. repeat split; try lia.
    exists days. split; [exact Er | lia].
  - split; [lia | ]. intros Hy'. repeat split; try lia.
    exists 31. split; [reflexivity | lia].
  - apply orb_false_iff in Elast. destruct Elast as [H9 H12].
    apply Z.eqb_neq in H9, H12.
    split; [lia | ]. intros _. repeat split; try lia.
    destruct (days_per_month_read (Dates.month d + 1)) as [days' [Er' Hdays']];
      [lia | ].
    exists days'. split; [exact Er' | lia].
Qed.

Lemma OnTick_keeps_date_valid_witness :
  exists d' calls,
    Dates.OnTick (Dates.mkDate 30 9 127 299) = Ok (d', calls)
    /\ Dates.year (Dates.mkDate 30 9 127 299) <= Dates.year d'
       <= Dates.year (Dates.mkDate 30 9 127 299) + 1
    /\ (valid_date d' <-> Dates.year d' < 128).
Proof.
  apply (OnTick_keeps_date_valid (Dates.mkDate 30 9 127 299)). reflexivity.
Defined.

(** X13: the tick that ends year 127 gives a date that does not come
    back from its compressed form: the year 128 does not fit the seven
    bits of its field, [Compress] puts its bit into the field of the
    fraction, and the constructor from the compressed date reads the year
    0 and fails its assertion.  [GB x s n] is taken to be the [n] bits of
    [x] from bit [s] on. *)
Theorem OnTick_year_leaves_compressed_date (GB : Z -> Z -> Z -> Z)
  (d d' : Dates.Date) (calls : list Dates.Call) :
  extracts_bits GB ->
  valid_date d ->
  Dates.OnTick d = Ok (d', calls) ->
  Dates.year d' = 128 ->
  d' = Dates.mkDate 1 3 128 0
  /\ Dates.Date_of_compressed GB (Dates.Compress d') = Fault.
Proof.
  intros HGB Hvalid E Hy'.
  destruct (OnTick_cases d Hvalid) as [days [Er [Hdays [Hd E']]]].
  pose proof (proj1 (valid_date_fields d) Hvalid) as [Hm [_ [Hy Hf]]].
  rewrite E in E'. injection E' as E'.
  destruct (Z.ltb_spec (Dates.frac d + 1) 300) as [Hfrac | Hfrac];
    [ | destruct (Z.leb_spec (Dates.day d + 1) days) as [Hday | Hday];
        [ | destruct ((Dates.month d =? 9) || (Dates.month d =? 12)) eqn:Elast ] ];
    injection E' as -> _; cbn [Dates.year] in Hy'; try lia.
  replace (Dates.year d + 1) with 128 by lia.
  split; [reflexivity | ].
  unfold Dates.Date_of_compressed. rewrite !HGB. reflexivity.
Qed.

Lemma OnTick_year_leaves_compressed_date_witness :
  Dates.mkDate 1 3 128 0 = Dates.mkDate 1 3 128 0
  /\ Dates.Date_of_compressed (fun x s n => Z.land (Z.shiftr x s) (Z.ones n))
       (Dates.Compress (Dates.mkDate 1 3 128 0))
     = Fault.
Proof.
  apply (OnTick_year_leaves_compressed_date
           (fun x s n => Z.land (Z.shiftr x s) (Z.ones n))
           (Dates.mkDate 30 9 127 299) (Dates.mkDate 1 3 128 0)
           (Dates.OnNewDay ++ Dates.OnNewMonth ++ Dates.OnNewYear)).
  - intros x s n. reflexivity.
  - reflexivity.
  - reflexivity.
  - reflexivity.
Defined.

(** X14: in the season, from [FIRST_MONTH] to [LAST_MONTH], one tick
    keeps the month in the season; the finances manager's [AdvanceMonth]
    is called exactly on the ticks that change the month, and the month
    is then the one that [GetNextMonth] gives. *)
Theorem OnTick_month_in_season (d d' : Dates.Date) (calls : list Dates.Call) :
  valid_date d ->
  Dates.FIRST_MONTH <= Dates.month d <= Dates.LAST_MONTH ->
  Dates.OnTick d = Ok (d', calls) ->
  Dates.FIRST_MONTH <= Dates.month d' <= Dates.LAST_MONTH
  /\ (In Dates.FinancesAdvanceMonth calls <-> Dates.month d' <> Dates.month d)
  /\ (In Dates.FinancesAdvanceMonth calls ->
      Dates.month d' = Dates.GetNextMonth d).
Proof.
  intros Hvalid Hseason E.
  destruct (OnTick_cases d Hvalid) as [days [Er [Hdays [Hd E']]]].
  rewrite E in E'. injection E' as E'.
  unfold Dates.GetNextMonth.
  change Dates.FIRST_MONTH with 3 in *. change Dates.LAST_MONTH with 9 in *.
  destruct (Z.ltb_spec (Dates.frac d + 1) 300) as [Hfrac | Hfrac];
    [ | destruct (Z.leb_spec (Dates.day d + 1) days) as [Hday | Hday];
        [ | destruct ((Dates.month d =? 9) || (Dates.month d =? 12)) eqn:Elast ] ];
    injection E' as -> ->; cbn [Dates.month].
  - split; [lia | ]. split; [ | intros []].
    split; [intros [] | intros H; contradiction H; reflexivity].
  - split; [lia | ]. split.
    + split; [ | intros H; contradiction H; reflexivity].
      cbn. intros H. repeat (destruct H as [H | H]; try discriminate H).
      contradiction.
    + cbn. intros H. repeat (destruct H as [H | H]; try discriminate H).
      contradiction.
  - apply orb_true_iff in Elast.
    assert (Dates.month d = 9) as H9
      by (destruct Elast as [H | H]; apply Z.eqb_eq in H; lia).
    split; [lia | ]. split.
    + split; [intros _; lia | intros _; cbn; tauto].
    + intros _. destruct (Z.ltb_spec (Dates.month d) 9); [lia | reflexivity].
  - apply orb_false_iff in Elast. destruct Elast as [H9 H12].
    apply Z.eqb_neq in H9, H12.
    split; [lia | ]. split.
    + split; [intros _; lia | intros _; cbn; tauto].
    + intros _. destruct (Z.ltb_spec (Dates.month d) 9); [ | lia].
      rewrite int32_small by lia. reflexivity.
Qed.

Lemma OnTick_month_in_season_witness :
  Dates.FIRST_MONTH <= Dates.month (Dates.mkDate 1 3 6 0) <= Dates.LAST_MONTH
  /\ (In Dates.FinancesAdvanceMonth
        (Dates.OnNewDay ++ Dates.OnNewMonth ++ Dates.OnNewYear)
      <-> Dates.month (Dates.mkDate 1 3 6 0)
          <> Dates.month (Dates.mkDate 30 9 5 299))
  /\ (In Dates.FinancesAdvanceMonth
        (Dates.OnNewDay ++ Dates.OnNewMonth ++ Dates.OnNewYear) ->
      Dates.month (Dates.mkDate 1 3 6 0)
      = Dates.GetNextMonth (Dates.mkDate 30 9 5 299)).
Proof.
  apply (OnTick_month_in_season (Dates.mkDate 30 9 5 299)
           (Dates.mkDate 1 3 6 0)
           (Dates.OnNewDay ++ Dates.OnNewMonth ++ Dates.OnNewYear)).
  - reflexivity.
  - simpl. unfold Dates.FIRST_MONTH, Dates.LAST_MONTH. lia.
  - reflexivity.
Defined.

(** X15: in the season, [GetPreviousMonth] and [GetNextMonth] stay in the
    season and undo each other. *)
Theorem season_months_round_trip (d : Dates.Date) :
  Dates.FIRST_MONTH <= Dates.month d <= Dates.LAST_MONTH ->
  Dates.FIRST_MONTH <= Dates.GetNextMonth d <= Dates.LAST_MONTH
  /\ Dates.FIRST_MONTH <= Dates.GetPreviousMonth d <= Dates.LAST_MONTH
  /\ Dates.GetPreviousMonth (with_month d (Dates.GetNextMonth d))
     = Dates.month d
  /\ Dates.GetNextMonth (with_month d (Dates.GetPreviousMonth d))
     = Dates.month d.
Proof.
  unfold Dates.GetNextMonth, Dates.GetPreviousMonth, with_month.
  cbn [Dates.month].
  change Dates.FIRST_MONTH with 3. change Dates.LAST_MONTH with 9.
  intros Hseason.
  rewrite (int32_small (Dates.month d + 1)), (int32_small (Dates.month d - 1))
    by lia.
  destruct (Z.ltb_spec (Dates.month d) 9) as [Hlt | Hge];
    destruct (Z.eqb_spec (Dates.month d) 3) as [H3 | H3].
  - repeat split; try lia.
    + destruct (Z.eqb_spec (Dates.month d + 1) 3); [lia | ].
      rewrite int32_small by lia. lia.
    + cbn. lia.
  - repeat split; try lia.
    + destruct (Z.eqb_spec (Dates.month d + 1) 3); [lia | ].
      rewrite int32_small by lia. lia.
    + destruct (Z.ltb_spec (Dates.month d - 1) 9); [ | lia].
      rewrite int32_small by lia. lia.
  - lia.
  - repeat split; try lia.
    + cbn. lia.
    + destruct (Z.ltb_spec (Dates.month d - 1) 9); [ | lia].
      rewrite int32_small by lia. lia.
Qed.

Lemma season_months_round_trip_witness :
  let d := Dates.mkDate 1 9 1 0 in
  Dates.FIRST_MONTH <= Dates.GetNextMonth d <= Dates.LAST_MONTH
  /\ Dates.FIRST_MONTH <= Dates.GetPreviousMonth d <= Dates.LAST_MONTH
  /\ Dates.GetPreviousMonth (with_month d (Dates.GetNextMonth d))
     = Dates.month d
  /\ Dates.GetNextMonth (with_month d (Dates.GetPreviousMonth d))
     = Dates.month d.
Proof.
  intros d. apply (season_months_round_trip d).
  unfold Dates.FIRST_MONTH, Dates.LAST_MONTH. simpl. lia.
Defined.

(** ** Days and years in ticks *)

Lemma ticks_add n m d :
  Dates.ticks (n + m) d
  = (' (d1, calls) <- Dates.ticks n d ;;
     ' (d2, later) <- Dates.ticks m d1 ;;
     Ok (d2, calls ++ later)).
Proof.
  revert d. induction n as [ | n IH]; intros d.
  - cbn [Nat.add Dates.ticks bind].
    destruct (Dates.ticks m d) as [[d2 later] | | ]; reflexivity.
  - cbn [Nat.add Dates.ticks].
    destruct (Dates.OnTick d) as [[d1 c1] | | ]; cbn [bind]; try reflexivity.
    rewrite IH.
    destruct (Dates.ticks n d1) as [[d2 c2] | | ]; cbn [bind]; try reflexivity.
    destruct (Dates.ticks m d2) as [[d3 c3] | | ]; cbn [bind]; try reflexivity.
    rewrite app_assoc. reflexivity.
Qed.

Lemma ticks_within_day k :
  forall d,
    valid_date d ->
    Dates.frac d + Z.of_nat k < 300 ->
    Dates.ticks k d
    = Ok (Dates.mkDate (Dates.day d) (Dates.month d) (Dates.year d)
            (Dates.frac d + Z.of_nat k), []).
Proof.
  induction k as [ | k IH]; intros d Hvalid Hk.
  - cbn [Dates.ticks Z.of_nat]. rewrite Z.add_0_r. destruct d; reflexivity.
  - cbn [Dates.ticks].
    destruct (OnTick_cases d Hvalid) as [days [Er [Hdays [Hd E]]]].
    rewrite E.
    destruct (Z.ltb_spec (Dates.frac d + 1) 300) as [_ | ]; [ | lia].
    cbn [bind].
    pose proof (proj1 (valid_date_fields d) Hvalid) as [Hm [_ [Hy Hf]]].
    rewrite IH; cbn [Dates.day Dates.month Dates.year Dates.frac]; try lia.
    + cbn [bind app]. do 3 f_equal. lia.
    + apply valid_date_fields.
      cbn [Dates.day Dates.month Dates.year Dates.frac].
      repeat split; try lia. exists days. split; [exact Er | lia].
Qed.

(** X16: a day is [TICK_COUNT_PER_DAY] ticks: from a date that the
    constructor accepts, the ticks before the end of the day add to the
    fraction alone and notify nobody, and the tick that ends the day sets
    the fraction to 0 and makes the calls of [OnNewDay], once. *)
Theorem ticks_of_a_day (d : Dates.Date) :
  valid_date d ->
  (forall k : nat,
     Dates.frac d + Z.of_nat k < Dates.TICK_COUNT_PER_DAY ->
     Dates.ticks k d
     = Ok (Dates.mkDate (Dates.day d) (Dates.month d) (Dates.year d)
             (Dates.frac d + Z.of_nat k), []))
  /\ exists d' rest,
       Dates.ticks (Z.to_nat (Dates.TICK_COUNT_PER_DAY - Dates.frac d)) d
       = Ok (d', Dates.OnNewDay ++ rest)
       /\ Dates.frac d' = 0
       /\ ~ In Dates.RidesOnNewDay rest.
Proof.
  intros Hvalid. change Dates.TICK_COUNT_PER_DAY with 300.
  split; [intros k Hk; apply ticks_within_day; assumption | ].
  pose proof (proj1 (valid_date_fields d) Hvalid)
    as [Hm [[days [Er Hd]] [Hy Hf]]].
  replace (Z.to_nat (300 - Dates.frac d))
    with (Z.to_nat (299 - Dates.frac d) + 1)%nat by lia.
  rewrite ticks_add, ticks_within_day by (assumption || lia).
  cbn [bind Dates.ticks app]. rewrite Z2Nat.id by lia.
  replace (Dates.frac d + (299 - Dates.frac d)) with 299 by lia.
  set (last := Dates.mkDate (Dates.day d) (Dates.month d) (Dates.year d) 299).
  assert (valid_date last) as Hlast.
  { apply valid_date_fields. subst last.
    cbn [Dates.day Dates.month Dates.year Dates.frac].
    repeat split; try lia. exists days. split; [exact Er | lia]. }
  destruct (OnTick_cases last Hlast) as [days' [_ [_ [_ E]]]].
  rewrite E. subst last. cbn [Dates.frac Dates.day Dates.month Dates.year].
  change (299 + 1 <? 300) with false. cbv iota.
  destruct (Dates.day d + 1 <=? days');
    [ | destruct ((Dates.month d =? 9) || (Dates.month d =? 12)) ];
    cbn [bind]; rewrite app_nil_r; eexists; eexists;
    (split; [reflexivity | ]); (split; [reflexivity | ]);
    cbn; intros H; repeat (destruct H as [H | H]; try discriminate H);
    contradiction.
Qed.

Lemma ticks_of_a_day_witness :
  let d := Dates.mkDate 31 3 1 298 in
  (forall k : nat,
     Dates.frac d + Z.of_nat k < Dates.TICK_COUNT_PER_DAY ->
     Dates.ticks k d
     = Ok (Dates.mkDate (Dates.day d) (Dates.month d) (Dates.year d)
             (Dates.frac d + Z.of_nat k), []))
  /\ exists d' rest,
       Dates.ticks (Z.to_nat (Dates.TICK_COUNT_PER_DAY - Dates.frac d)) d
       = Ok (d', Dates.OnNewDay ++ rest)
       /\ Dates.frac d' = 0
       /\ ~ In Dates.RidesOnNewDay rest.
Proof.
  intros d. apply (ticks_of_a_day d). reflexivity.
Defined.

Lemma OnTick_years_later k d :
  - 2147483648 <= Dates.year d -> Dates.year d + 1 < 2147483648 ->
  - 2147483648 <= Dates.year d + k -> Dates.year d + k + 1 < 2147483648 ->
  Dates.OnTick (years_later k d)
  = (' (d', calls) <- Dates.OnTick d ;; Ok (years_later k d', calls))
  /\ (forall d' calls, Dates.OnTick d = Ok (d', calls) ->
        Dates.year d <= Dates.year d' <= Dates.year d + 1).
Proof.
  intros H1 H2 H3 H4. unfold Dates.OnTick, years_later.
  cbn [Dates.day Dates.month Dates.year Dates.frac].
  rewrite (int32_small (Dates.year d + 1)),
    (int32_small (Dates.year d + k + 1)) by lia.
  replace (Dates.year d + k + 1) with (Dates.year d + 1 + k) by lia.
  destruct (int32 (Dates.frac d + 1) <? Dates.TICK_COUNT_PER_DAY).
  { cbn [bind Dates.day Dates.month Dates.year Dates.frac].
    split; [reflexivity | ]. intros d' calls E. injection E as <- _.
    cbn [Dates.year]. lia. }
  destruct (read Dates._days_per_month (Dates.month d)) as [days | | ];
    cbn [bind]; try (split; [reflexivity | discriminate]).
  destruct (int32 (Dates.day d + 1) >? days).
  - destruct ((Dates.month d =? Dates.LAST_MONTH)
              || (int32 (Dates.month d + 1) >? 12));
      cbn [bind Dates.day Dates.month Dates.year Dates.frac];
      (split; [reflexivity | ]); intros d' calls E; injection E as <- _;
      cbn [Dates.year]; lia.
  - cbn [bind Dates.day Dates.month Dates.year Dates.frac].
    split; [reflexivity | ]. intros d' calls E. injection E as <- _.
    cbn [Dates.year]. lia.
Qed.

Lemma ticks_years_later k n :
  forall d,
    - 2147483648 <= Dates.year d ->
    Dates.year d + Z.of_nat n < 2147483648 ->
    - 2147483648 <= Dates.year d + k ->
    Dates.year d + k + Z.of_nat n < 2147483648 ->
    Dates.ticks n (years_later k d)
    = (' (d', calls) <- Dates.ticks n d ;; Ok (years_later k d', calls)).
Proof.
  induction n as [ | n IH]; intros d H1 H2 H3 H4; [reflexivity | ].
  cbn [Dates.ticks].
  destruct (OnTick_years_later k d) as [E Hyear]; try lia.
  rewrite E.
  destruct (Dates.OnTick d) as [[d1 c1] | | ]; cbn [bind]; try reflexivity.
  specialize (Hyear d1 c1 eq_refl).
  rewrite IH by lia.
  destruct (Dates.ticks n d1) as [[d2 c2] | | ]; reflexivity.
Qed.

(** X17: a year of the game is the season alone, 214 days of 300 ticks:
    from the first tick of day 1 of [FIRST_MONTH] of any year that the
    constructor accepts, 64200 ticks lead to the first tick of day 1 of
    [FIRST_MONTH] of the next year, and the calls on the way are those of
    [OnNewDay] on every new day and those of [OnNewMonth] behind the last
    day of each of the seven months. *)
Theorem ticks_of_a_year (y : Z) :
  valid_date (Dates.mkDate 1 Dates.FIRST_MONTH y 0) ->
  Dates.ticks (Z.to_nat (214 * Dates.TICK_COUNT_PER_DAY))
    (Dates.mkDate 1 Dates.FIRST_MONTH y 0)
  = Ok (Dates.mkDate 1 Dates.FIRST_MONTH (y + 1) 0, season_calls).
Proof.
  intros Hvalid. apply valid_date_fields in Hvalid.
  cbn [Dates.day Dates.month Dates.year Dates.frac] in Hvalid.
  destruct Hvalid as [_ [_ [Hy _]]].
  assert (Dates.mkDate 1 Dates.FIRST_MONTH y 0
          = years_later (y - 1) (Dates.mkDate 1 Dates.FIRST_MONTH 1 0)) as ->
    by (unfold years_later; cbn [Dates.day Dates.month Dates.year Dates.frac];
        f_equal; lia).
  assert (Z.of_nat (Z.to_nat (214 * Dates.TICK_COUNT_PER_DAY)) = 64200) as Hn
    by (vm_compute; reflexivity).
  rewrite ticks_years_later
    by (cbn [Dates.year]; rewrite ?Hn; lia).
  assert (Dates.ticks (Z.to_nat (214 * Dates.TICK_COUNT_PER_DAY))
            (Dates.mkDate 1 Dates.FIRST_MONTH 1 0)
          = Ok (Dates.mkDate 1 Dates.FIRST_MONTH 2 0, season_calls)) as E
    by (vm_compute; reflexivity).
  rewrite E. cbn [bind]. unfold years_later.
  cbn [Dates.day Dates.month Dates.year Dates.frac].
  do 3 f_equal. lia.
Qed.

Lemma ticks_of_a_year_witness :
  Dates.ticks (Z.to_nat (214 * Dates.TICK_COUNT_PER_DAY))
    (Dates.mkDate 1 Dates.FIRST_MONTH 5 0)
  = Ok (Dates.mkDate 1 Dates.FIRST_MONTH (5 + 1) 0, season_calls).
Proof.
  apply (ticks_of_a_year 5). reflexivity.
Defined.

(** * Part V: what a blit of an indexed image paints *)

Lemma pstores_not_written ws :
  forall mem a, (forall w, In w ws -> fst w <> a) -> pstores ws mem a = mem a.
Proof.
  induction ws as [ | w ws IH]; intros mem a H; [reflexivity | ].
  unfold pstores in *. cbn [fold_left]. rewrite IH.
  - unfold store. destruct (Z.eqb_spec a (fst w)) as [E | ]; [ | reflexivity].
    exfalso. apply (H w); [left; reflexivity | congruence].
  - intros w' Hin. apply H. right. exact Hin.
Qed.

Lemma pstores_written ws :
  forall mem a v,
    (exists w, In w ws /\ fst w = a) ->
    (forall w, In w ws -> fst w = a -> snd w = v) ->
    pstores ws mem a = v.
Proof.
  induction ws as [ | w ws IH]; intros mem a v [w0 [Hin Ha]] Hv;
    [contradiction | ].
  change (pstores (w :: ws) mem) with (pstores ws (store mem (fst w) (snd w))).
  destruct (in_dec Z.eq_dec a (map fst ws)) as [Hlater | Hlast].
  - apply in_map_iff in Hlater. destruct Hlater as [w1 [E1 Hin1]].
    apply IH.
    + exists w1. split; assumption.
    + intros w' Hin' Ha'. apply Hv; [right; exact Hin' | exact Ha'].
  - rewrite pstores_not_written.
    + destruct Hin as [-> | Hin].
      * unfold store. rewrite Ha, Z.eqb_refl.
        apply Hv; [left; reflexivity | exact Ha].
      * exfalso. apply Hlast. apply in_map_iff. exists w0. split; assumption.
    + intros w' Hin' Ha'. apply Hlast. apply in_map_iff.
      exists w'. split; assumption.
Qed.

Section BlitPixelExact.

Variable cr : ClippedRectangle.t.
Variables xmin xend yend width height colour : Z.

Hypothesis width_range : 0 < width < 65536.
Hypothesis height_range : 0 < height < 65536.
Hypothesis cw_bound : ClippedRectangle.width cr + 65536 <= 2147483648.
Hypothesis ch_bound : ClippedRectangle.height cr + 65536 <= 2147483648.

(** The tiles of one row, exactly: the stores are at the tile columns [k]
    before [xend] whose [x] is inside the rectangle, all of them. *)
Lemma BlitPixel_row_exact (fuel : nat) :
  forall x scr,
    - 2147483648 <= x ->
    1 <= Z.of_nat fuel -> ClippedRectangle.width cr - x < Z.of_nat fuel ->
    exists writes,
      (forall mem,
         BlitPixel_row fuel cr xend width colour x scr mem
         = Ok (stores colour writes mem))
      /\ forall a,
           In a writes
           <-> exists k, 0 <= k /\ a = scr + k * width
                 /\ 0 <= x + k * width < ClippedRectangle.width cr
                 /\ x + k * width < xend.
Proof.
  induction fuel as [ | fuel IH]; intros x scr Hx Hf1 Hf;
    [simpl in Hf1; lia | ].
  cbn [BlitPixel_row].
  destruct (Z.ltb_spec x xend) as [Hlt | Hge].
  2: { exists []. split; [reflexivity | ]. intros a. split; [intros [] | ].
       intros [k [Hk [_ [_ Hr]]]]. nia. }
  destruct (Z.geb_spec x (ClippedRectangle.width cr)) as [Hout | Hin].
  { exists []. split; [reflexivity | ]. intros a. split; [intros [] | ].
    intros [k [Hk [_ [Hr _]]]]. nia. }
  rewrite int32_small by lia.
  destruct (IH (x + width) (scr + width)) as [writes [E F]]; try lia.
  assert (forall a,
            In a writes
            <-> exists k, 1 <= k /\ a = scr + k * width
                  /\ 0 <= x + k * width < ClippedRectangle.width cr
                  /\ x + k * width < xend) as F'.
  { intros a. rewrite F. split.
    - intros [k [Hk [Ha [Hr Hr']]]]. exists (k + 1). repeat split; lia.
    - intros [k [Hk [Ha [Hr Hr']]]]. exists (k - 1). repeat split; lia. }
  destruct (Z.geb_spec x 0) as [Hx0 | Hx0].
  - exists (scr :: writes). split; [intros mem; apply E | ].
    intros a. cbn [In]. rewrite F'. split.
    + intros [<- | [k [Hk H]]].
      * exists 0. repeat split; lia.
      * exists k. split; [lia | exact H].
    + intros [k [Hk [Ha H]]]. destruct (Z.eq_dec k 0) as [-> | Hne].
      * left. lia.
      * right. exists k. repeat split; try lia; apply H.
  - exists writes. split; [exact E | ].
    intros a. rewrite F'. split.
    + intros [k [Hk H]]. exists k. split; [lia | exact H].
    + intros [k [Hk [Ha H]]]. destruct (Z.eq_dec k 0) as [-> | Hne]; [lia | ].
      exists k. repeat split; try lia; apply H.
Qed.

Hypothesis step_fits :
  int32 (height * ClippedRectangle.pitch cr) = height * ClippedRectangle.pitch cr.

(** The rows of tiles, exactly. *)
Lemma BlitPixel_rows_exact (fuel : nat) :
  forall ymin scr_base,
    - 2147483648 <= xmin ->
    - 2147483648 <= ymin ->
    1 <= Z.of_nat fuel -> ClippedRectangle.height cr - ymin < Z.of_nat fuel ->
    exists writes,
      (forall mem,
         BlitPixel_rows fuel cr xmin xend yend width height colour ymin
           scr_base mem
         = Ok (stores colour writes mem))
      /\ forall a,
           In a writes
           <-> exists i j, 0 <= i /\ 0 <= j
                 /\ a = scr_base + i * width
                        + j * (height * ClippedRectangle.pitch cr)
                 /\ 0 <= xmin + i * width < ClippedRectangle.width cr
                 /\ xmin + i * width < xend
                 /\ 0 <= ymin + j * height < ClippedRectangle.height cr
                 /\ ymin + j * height < yend.
Proof.
  induction fuel as [ | fuel IH]; intros ymin scr_base Hx Hy Hf1 Hf;
    [simpl in Hf1; lia | ].
  cbn [BlitPixel_rows].
  destruct (Z.ltb_spec ymin yend) as [Hlt | Hge].
  2: { exists []. split; [reflexivity | ]. intros a. split; [intros [] | ].
       intros [i [j [Hi [Hj [_ [_ [_ [_ Hr]]]]]]]]. nia. }
  destruct (Z.geb_spec ymin (ClippedRectangle.height cr)) as [Hout | Hin].
  { exists []. split; [reflexivity | ]. intros a. split; [intros [] | ].
    intros [i [j [Hi [Hj [_ [_ [_ [Hr _]]]]]]]]. nia. }
  rewrite int32_small by lia. rewrite step_fits.
  assert (exists writes1,
    (forall mem,
       (if ymin >=? 0
        then BlitPixel_row (row_fuel cr xmin) cr xend width colour xmin
               scr_base mem
        else Ok mem) = Ok (stores colour writes1 mem))
    /\ forall a,
         In a writes1
         <-> 0 <= ymin
             /\ exists k, 0 <= k /\ a = scr_base + k * width
                  /\ 0 <= xmin + k * width < ClippedRectangle.width cr
                  /\ xmin + k * width < xend)
    as [writes1 [E1 F1]].
  { destruct (Z.geb_spec ymin 0) as [Hy0 | Hy0].
    - destruct (BlitPixel_row_exact (row_fuel cr xmin) xmin scr_base)
        as [writes1 [E F]]; try assumption; try (unfold row_fuel; lia).
      exists writes1. split; [exact E | ].
      intros a. rewrite F. split; [intros H; split; [lia | exact H] | tauto].
    - exists []. split; [reflexivity | ].
      intros a. split; [intros [] | intros [H _]; lia]. }
  destruct (IH (ymin + height)
              (scr_base + height * ClippedRectangle.pitch cr))
    as [writes2 [E2 F2]]; try assumption; try lia.
  exists (writes1 ++ writes2). split.
  - intros mem. rewrite E1. cbn [bind]. rewrite E2, stores_app. reflexivity.
  - intros a. rewrite in_app_iff, F1, F2. split.
    + intros [[Hy0 [k [Hk [Ha [Hr Hr']]]]]
             | [i [j [Hi [Hj [Ha [Hr [Hr' [Hs Hs']]]]]]]]].
      * exists k, 0. repeat split; lia.
      * exists i, (j + 1). repeat split; lia.
    + intros [i [j [Hi [Hj [Ha [Hr [Hr' [Hs Hs']]]]]]]].
      destruct (Z.eq_dec j 0) as [-> | Hne].
      * left. split; [lia | ]. exists i. repeat split; lia.
      * right. exists i, (j - 1). repeat split; lia.
Qed.

End BlitPixelExact.

(** What [BlitPixel] does when it is given the address of its position
    and the tiles stay inside [int32]: stores of the colour at the
    addresses of the tiles of the position, all of them. *)
Lemma BlitPixel_exact (cr : ClippedRectangle.t)
  (xmin ymin numx numy width height colour : Z) :
  - 2147483648 <= xmin -> xmin + numx * width < 2147483648 ->
  - 2147483648 <= ymin -> ymin + numy * height < 2147483648 ->
  0 <= numx -> 0 <= numy ->
  0 < width < 65536 ->
  0 < height < 65536 ->
  ClippedRectangle.width cr + 65536 <= 2147483648 ->
  ClippedRectangle.height cr + 65536 <= 2147483648 ->
  int32 (height * ClippedRectangle.pitch cr) = height * ClippedRectangle.pitch cr ->
  exists writes,
    (forall mem,
       BlitPixel cr (pixel_address cr xmin ymin) xmin ymin numx numy width
         height colour mem
       = Ok (pstores (map (fun a => (a, colour)) writes) mem))
    /\ forall a,
         In a writes <-> tile_address cr numx numy width height xmin ymin a.
Proof.
  intros Hx Hx' Hy Hy' Hnx Hny Hw Hh Hcw Hch Hstep. unfold BlitPixel.
  rewrite (int32_small (xmin + numx * width)) by nia.
  rewrite (int32_small (ymin + numy * height)) by nia.
  destruct (BlitPixel_rows_exact cr xmin (xmin + numx * width)
              (ymin + numy * height) width height colour Hw Hh Hcw Hch Hstep
              (S (Z.to_nat (ClippedRectangle.height cr - ymin)))
              ymin (pixel_address cr xmin ymin)) as [writes [E F]]; try lia.
  exists writes. split.
  - intros mem. rewrite E, stores_pstores. reflexivity.
  - intros a. rewrite F. unfold tile_address, pixel_address. split.
    + intros [i [j [Hi [Hj [Ha [Hr [Hr' [Hs Hs']]]]]]]].
      exists i, j. repeat split; try lia; try nia.
    + intros [i [j [Hi [Hj [Hr [Hs Ha]]]]]].
      exists i, j. repeat split; try lia; try nia.
Qed.

Lemma nth_error_read buf i v :
  0 <= i -> nth_error buf (Z.to_nat i) = Some v -> read buf i = Ok v.
Proof.
  intros Hi E. unfold read.
  destruct (Z.ltb_spec i 0) as [ | _]; [lia | ]. rewrite E. reflexivity.
Qed.

(** One run of the decoding of a row. *)
Lemma row_pixels_step (data : list Z) (fuel : nat) offset rel_pos count k idx :
  read data offset = Ok rel_pos ->
  read data (offset + 1) = Ok count ->
  0 <= offset -> 0 <= count ->
  offset + (2 + count) <= Z.of_nat (List.length data) ->
  nth_error (row_pixels (S fuel) data offset) k = Some (Some idx)
  <-> (Z.land rel_pos 127 <= Z.of_nat k < Z.land rel_pos 127 + count
       /\ read data (offset + 2 + (Z.of_nat k - Z.land rel_pos 127)) = Ok idx)
      \/ (Z.land rel_pos 128 = 0
          /\ Z.land rel_pos 127 + count <= Z.of_nat k
          /\ nth_error (row_pixels fuel data (offset + (2 + count)))
               (k - Z.to_nat (Z.land rel_pos 127) - Z.to_nat count)
             = Some (Some idx)).
Proof.
  intros E1 E2 Hoff Hcount Hend. pose proof (land_127_range rel_pos) as Hs.
  cbn [row_pixels]. rewrite (read_nth _ _ _ E1), (read_nth _ _ _ E2).
  rewrite nth_error_skip_run. rewrite run_pixels_length by lia.
  destruct (Nat.ltb_spec k (Z.to_nat (Z.land rel_pos 127))) as [Hskip | Hskip'].
  { split; [discriminate | ]. intros [[H _] | [_ [H _]]]; lia. }
  destruct (Nat.ltb_spec k (Z.to_nat (Z.land rel_pos 127) + Z.to_nat count))
    as [Hrun | Hrest].
  - rewrite run_pixels_nth by lia.
    replace (Z.to_nat (offset + 2) + (k - Z.to_nat (Z.land rel_pos 127)))%nat
      with (Z.to_nat (offset + 2 + (Z.of_nat k - Z.land rel_pos 127))) by lia.
    split.
    + intros E. left. split; [lia | ]. apply nth_error_read; [lia | ].
      destruct (nth_error data _) as [v | ]; [ | discriminate E].
      cbn in E. congruence.
    + intros [[_ E] | [_ [H _]]]; [ | lia].
      rewrite (read_nth_error _ _ _ E). reflexivity.
  - destruct (Z.eqb_spec (Z.land rel_pos 128) 0) as [Hbit | Hbit].
    + split.
      * intros E. right. split; [exact Hbit | ]. split; [lia | exact E].
      * intros [[H _] | [_ [_ E]]]; [lia | exact E].
    + split.
      * intros E. destruct (_ - _ - _)%nat; discriminate E.
      * intros [[H _] | [H _]]; [lia | contradiction].
Qed.

Lemma row_pixels_length (data : list Z) length width offset covered :
  row_accepted data length width offset covered ->
  length = Z.of_nat (List.length data) ->
  bytes data ->
  forall fuel,
    Z.of_nat (List.length (row_pixels fuel data offset)) <= width - covered.
Proof.
  intros Hacc Hlen Hbytes.
  assert (covered <= width) as Hcov.
  { destruct Hacc as [? ? rel_pos count _ E1 E2 _ Hx _
                     | ? ? rel_pos count _ E1 E2 _ Hx _ _];
      pose proof (land_127_range rel_pos);
      pose proof (bytes_In _ _ Hbytes (proj2 (read_Ok _ _ _ E2))); lia. }
  induction Hacc as [offset xpos rel_pos count H2 E1 E2 Hbit Hx Ho
                    | offset xpos rel_pos count H2 E1 E2 Hbit Hx Ho Hacc IH];
    intros fuel; (destruct fuel as [ | fuel]; [cbn; lia | ]);
    pose proof (land_127_range rel_pos) as Hs;
    pose proof (bytes_In _ _ Hbytes (proj2 (read_Ok _ _ _ E2))) as Hc;
    cbn [row_pixels]; rewrite (read_nth _ _ _ E1), (read_nth _ _ _ E2);
    rewrite !length_app, repeat_length, length_map, length_firstn.
  - destruct (Z.eqb_spec (Z.land rel_pos 128) 0) as [ | _]; [contradiction | ].
    cbn [List.length]. lia.
  - rewrite Hbit. cbn [Z.eqb].
    specialize (IH ltac:(lia) fuel). lia.
Qed.

Section BlitIndexedExact.

Context {GradientShift : Type}.
Variable _palette : Z -> Z.
Variable cr : ClippedRectangle.t.
Variables numx numy : Z.
Variable this : ImageData8bpp.t.
Variable recoloured : Z -> Z.

Local Notation "'image_width'" := (width (ImageData8bpp.base this)).
Local Notation "'image_height'" := (height (ImageData8bpp.base this)).
Local Notation "'image_data'" := (ImageData8bpp.data this).
Local Notation "'tile'" :=
  (tile_address cr numx numy (width (ImageData8bpp.base this))
     (height (ImageData8bpp.base this))).
Local Notation "'shown' idx" := (_palette (uint8 (recoloured idx)))
  (at level 10, idx at level 9).

Hypothesis image_loaded : loaded8 this.
Hypothesis opaque_palette : forall i, GetA (_palette i) = OPAQUE.
Hypothesis width_range : 0 < image_width.
Hypothesis height_range : 0 < image_height < 65536.
Hypothesis numx_range : 0 <= numx.
Hypothesis numy_range : 0 <= numy.
Hypothesis cw_bound : ClippedRectangle.width cr + 65536 <= 2147483648.
Hypothesis ch_bound : ClippedRectangle.height cr + 65536 <= 2147483648.
Hypothesis step_fits :
  int32 (image_height * ClippedRectangle.pitch cr)
  = image_height * ClippedRectangle.pitch cr.

Lemma BlitImages_pixels_exact (count : nat) :
  forall pixels xpos ypos mem,
    0 <= pixels ->
    pixels + Z.of_nat count <= Z.of_nat (List.length image_data) ->
    - 2147483648 <= xpos ->
    xpos + Z.of_nat count + numx * image_width < 2147483648 ->
    - 2147483648 <= ypos -> ypos + numy * image_height < 2147483648 ->
    exists writes,
      Blit8bpp.BlitImages_pixels _palette cr numx numy count this recoloured
        pixels xpos ypos (pixel_address cr xpos ypos) mem
      = Ok (xpos + Z.of_nat count,
            pixel_address cr (xpos + Z.of_nat count) ypos,
            pstores writes mem)
      /\ forall a v,
           In (a, v) writes
           <-> exists k idx,
                 0 <= k < Z.of_nat count
                 /\ read image_data (pixels + k) = Ok idx
                 /\ v = shown idx
                 /\ tile (xpos + k) ypos a.
Proof.
  destruct image_loaded as [_ [_ [Hw _]]].
  induction count as [ | count IH]; intros pixels xpos ypos mem Hp Hlen Hx Hx'
    Hy Hy'.
  { exists []. split.
    - cbn [Blit8bpp.BlitImages_pixels Z.of_nat]. rewrite Z.add_0_r. reflexivity.
    - intros a v. split; [intros [] | ]. intros [k [idx [Hk _]]]. simpl in Hk. lia. }
  cbn [Blit8bpp.BlitImages_pixels].
  destruct (read_in_range image_data pixels) as [pixel [Ep _]]; [lia | ].
  rewrite Ep. cbn [bind].
  rewrite opaque_palette, Z.eqb_refl. cbn [negb].
  assert (0 <= numx * image_width) as Hnx by nia.
  destruct (BlitPixel_exact cr xpos ypos numx numy image_width image_height
              (shown pixel)) as [ws1 [E1 F1]]; try assumption; try lia.
  rewrite E1. cbn [bind].
  rewrite int32_small by lia. rewrite pixel_address_shift.
  destruct (IH (pixels + 1) (xpos + 1) ypos
              (pstores (map (fun a => (a, shown pixel)) ws1) mem))
    as [ws2 [E2 F2]]; try lia.
  exists (map (fun a => (a, shown pixel)) ws1 ++ ws2). split.
  - rewrite E2, pstores_app.
    replace (xpos + 1 + Z.of_nat count) with (xpos + Z.of_nat (S count)) by lia.
    reflexivity.
  - intros a v. rewrite in_app_iff, in_map_iff, F2. split.
    + intros [[a' [Ea Hin]] | [k [idx [Hk [Er [Hv Ht]]]]]].
      * injection Ea as <- <-. exists 0, pixel.
        rewrite !Z.add_0_r. repeat split; try lia; try assumption.
        apply F1. exact Hin.
      * exists (k + 1), idx.
        replace (pixels + (k + 1)) with (pixels + 1 + k) by lia.
        replace (xpos + (k + 1)) with (xpos + 1 + k) by lia.
        repeat split; try lia; assumption.
    + intros [k [idx [Hk [Er [Hv Ht]]]]].
      destruct (Z.eq_dec k 0) as [-> | Hne].
      * left. rewrite Z.add_0_r in Er, Ht. rewrite Ep in Er.
        injection Er as <-. exists a. split; [rewrite Hv; reflexivity | ].
        apply F1. exact Ht.
      * right. exists (k - 1), idx.
        replace (pixels + 1 + (k - 1)) with (pixels + k) by lia.
        replace (xpos + 1 + (k - 1)) with (xpos + k) by lia.
        repeat split; try lia; assumption.
Qed.

Lemma BlitImages_row_exact offset covered :
  row_accepted image_data (Z.of_nat (List.length image_data)) image_width
    offset covered ->
  forall fuel xpos ypos mem,
    0 <= offset -> 0 <= covered ->
    Z.of_nat (List.length image_data) - offset < 2 * Z.of_nat fuel ->
    - 2147483648 <= xpos ->
    xpos + (image_width - covered) + numx * image_width < 2147483648 ->
    - 2147483648 <= ypos -> ypos + numy * image_height < 2147483648 ->
    exists writes,
      Blit8bpp.BlitImages_row _palette cr numx numy fuel this recoloured ypos
        offset xpos (pixel_address cr xpos ypos) mem
      = Ok (pstores writes mem)
      /\ forall a v,
           In (a, v) writes
           <-> exists (k : nat) idx,
                 nth_error (row_pixels fuel image_data offset) k
                 = Some (Some idx)
                 /\ v = shown idx
                 /\ tile (xpos + Z.of_nat k) ypos a.
Proof.
  destruct image_loaded as [Hbytes [Hlen [Hw _]]]. cbv zeta in Hbytes, Hlen.
  induction 1 as [offset covered rel_off count H2 E1 E2 Hbit Hx Ho
                 | offset covered rel_off count H2 E1 E2 Hbit Hx Ho Hacc IH];
    intros fuel xpos ypos mem Hoff Hcov Hf Hxpos Hxpos' Hypos Hypos';
    (destruct fuel as [ | fuel]; [lia | ]);
    pose proof (land_127_range rel_off) as Hs;
    pose proof (bytes_In _ rel_off Hbytes (proj2 (read_Ok _ _ _ E1))) as Hr;
    pose proof (bytes_In _ count Hbytes (proj2 (read_Ok _ _ _ E2))) as Hc;
    cbn [Blit8bpp.BlitImages_row];
    rewrite (uint32_small (offset + 1)) by lia;
    rewrite E1, E2; cbn [bind];
    rewrite (uint32_small (offset + 2)) by lia;
    rewrite (uint32_small (offset + (2 + count))) by lia;
    rewrite int32_small by lia;
    rewrite pixel_address_shift;
    destruct (BlitImages_pixels_exact (Z.to_nat count) (offset + 2)
                (xpos + Z.land rel_off 127) ypos mem)
      as [ws1 [E F1]]; try lia;
    rewrite E; cbn [bind].
  - destruct (Z.eqb_spec (Z.land rel_off 128) 0) as [Hz | _]; [contradiction | ].
    cbn [negb]. exists ws1. split; [reflexivity | ].
    intros a v. rewrite F1. split.
    + intros [k [idx [Hk [Er [Hv Ht]]]]].
      exists (Z.to_nat (Z.land rel_off 127 + k)), idx.
      rewrite (row_pixels_step _ fuel _ _ _ _ idx E1 E2) by lia.
      rewrite Z2Nat.id by lia.
      split; [ | split; [exact Hv | ]].
      * left. split; [lia | ].
        replace (offset + 2 + (Z.land rel_off 127 + k - Z.land rel_off 127))
          with (offset + 2 + k) by lia. exact Er.
      * replace (xpos + (Z.land rel_off 127 + k))
          with (xpos + Z.land rel_off 127 + k) by lia. exact Ht.
    + intros [k [idx [En [Hv Ht]]]].
      rewrite (row_pixels_step _ fuel _ _ _ _ idx E1 E2) in En by lia.
      destruct En as [[Hk Er] | [Hz _]]; [ | contradiction].
      exists (Z.of_nat k - Z.land rel_off 127), idx.
      split; [lia | ]. split; [exact Er | ]. split; [exact Hv | ].
      replace (xpos + Z.land rel_off 127 + (Z.of_nat k - Z.land rel_off 127))
        with (xpos + Z.of_nat k) by lia. exact Ht.
  - rewrite Hbit. cbn [Z.eqb negb].
    destruct (IH fuel (xpos + Z.land rel_off 127 + Z.of_nat (Z.to_nat count))
                ypos (pstores ws1 mem)) as [ws2 [E' F2]]; try lia.
    exists (ws1 ++ ws2). split; [rewrite E', pstores_app; reflexivity | ].
    intros a v. rewrite in_app_iff, F1, F2. split.
    + intros [[k [idx [Hk [Er [Hv Ht]]]]] | [k [idx [En [Hv Ht]]]]].
      * exists (Z.to_nat (Z.land rel_off 127 + k)), idx.
        rewrite (row_pixels_step _ fuel _ _ _ _ idx E1 E2) by lia.
        rewrite Z2Nat.id by lia.
        split; [ | split; [exact Hv | ]].
        -- left. split; [lia | ].
           replace (offset + 2 + (Z.land rel_off 127 + k - Z.land rel_off 127))
             with (offset + 2 + k) by lia. exact Er.
        -- replace (xpos + (Z.land rel_off 127 + k))
             with (xpos + Z.land rel_off 127 + k) by lia. exact Ht.
      * exists (Z.to_nat (Z.land rel_off 127) + Z.to_nat count + k)%nat, idx.
        rewrite (row_pixels_step _ fuel _ _ _ _ idx E1 E2) by lia.
        split; [ | split; [exact Hv | ]].
        -- right. split; [exact Hbit | ]. split; [lia | ].
           replace (Z.to_nat (Z.land rel_off 127) + Z.to_nat count + k
                    - Z.to_nat (Z.land rel_off 127) - Z.to_nat count)%nat
             with k by lia. exact En.
        -- replace (xpos + Z.of_nat (Z.to_nat (Z.land rel_off 127)
                                     + Z.to_nat count + k))
             with (xpos + Z.land rel_off 127 + Z.of_nat (Z.to_nat count)
                   + Z.of_nat k) by lia. exact Ht.
    + intros [k [idx [En [Hv Ht]]]].
      rewrite (row_pixels_step _ fuel _ _ _ _ idx E1 E2) in En by lia.
      destruct En as [[Hk Er] | [_ [Hk En]]].
      * left. exists (Z.of_nat k - Z.land rel_off 127), idx.
        split; [lia | ]. split; [exact Er | ]. split; [exact Hv | ].
        replace (xpos + Z.land rel_off 127 + (Z.of_nat k - Z.land rel_off 127))
          with (xpos + Z.of_nat k) by lia. exact Ht.
      * right.
        exists (k - Z.to_nat (Z.land rel_off 127) - Z.to_nat count)%nat, idx.
        split; [exact En | ]. split; [exact Hv | ].
        replace (xpos + Z.land rel_off 127 + Z.of_nat (Z.to_nat count)
                 + Z.of_nat (k - Z.to_nat (Z.land rel_off 127)
                             - Z.to_nat count))
          with (xpos + Z.of_nat k) by lia. exact Ht.
Qed.

Lemma BlitImages_rows_exact (rest : list Z) :
  forall pre x_base ypos mem,
    ImageData8bpp.table this = pre ++ rest ->
    - 2147483648 <= x_base ->
    x_base + image_width + numx * image_width < 2147483648 ->
    - 2147483648 <= ypos ->
    ypos + Z.of_nat (List.length rest) + numy * image_height < 2147483648 ->
    exists writes,
      Blit8bpp.BlitImages_rows _palette cr numx numy (List.length rest) this
        recoloured x_base (Z.of_nat (List.length pre))
        (pixel_address cr x_base ypos) ypos mem
      = Ok (pstores writes mem)
      /\ forall a v,
           In (a, v) writes
           <-> exists x y idx,
                 0 <= x /\ Z.of_nat (List.length pre) <= y
                 /\ pixel_at this x y = Some idx
                 /\ v = shown idx
                 /\ tile (x_base + x) (ypos + (y - Z.of_nat (List.length pre)))
                      a.
Proof.
  destruct image_loaded as [Hbytes [Hlen [Hw [_ Hacc]]]].
  cbv zeta in Hbytes, Hlen, Hacc.
  assert (0 <= numy * image_height) as Hny by nia.
  induction rest as [ | offset rest IH]; intros pre x_base ypos mem Htable
    Hx Hx' Hy Hy'.
  { exists []. split; [reflexivity | ].
    intros a v. split; [intros [] | ].
    intros [x [y [idx [_ [Hy0 [Ep _]]]]]]. exfalso.
    unfold pixel_at in Ep.
    destruct (nth_error (ImageData8bpp.table this) (Z.to_nat y)) eqn:En;
      [ | discriminate Ep].
    assert (nth_error (ImageData8bpp.table this) (Z.to_nat y) <> None) as Hn
      by congruence.
    apply nth_error_Some in Hn. rewrite Htable, app_nil_r in Hn. lia. }
  cbn [List.length Blit8bpp.BlitImages_rows].
  assert (nth_error (ImageData8bpp.table this) (List.length pre) = Some offset)
    as En.
  { rewrite Htable, nth_error_app2, Nat.sub_diag by lia. reflexivity. }
  assert (read (ImageData8bpp.table this) (Z.of_nat (List.length pre))
          = Ok offset) as Er by (rewrite Htable; apply read_middle).
  rewrite Er. cbn [bind].
  assert (exists ws1,
    (if negb (offset =? INVALID_JUMP)
     then Blit8bpp.BlitImages_row _palette cr numx numy
            (S (List.length image_data)) this recoloured ypos offset x_base
            (pixel_address cr x_base ypos) mem
     else Ok mem) = Ok (pstores ws1 mem)
    /\ forall a v,
         In (a, v) ws1
         <-> exists x idx,
               0 <= x
               /\ pixel_at this x (Z.of_nat (List.length pre)) = Some idx
               /\ v = shown idx
               /\ tile (x_base + x) ypos a) as [ws1 [E1 F1]].
  { unfold pixel_at. rewrite Nat2Z.id, En.
    destruct (Z.eqb_spec offset INVALID_JUMP) as [Hinv | Hinv]; cbn [negb].
    - exists []. split; [reflexivity | ].
      intros a v. split; [intros [] | ].
      intros [x [idx [_ [Ep _]]]]. discriminate Ep.
    - assert (In offset (ImageData8bpp.table this)) as Hin
        by (rewrite Htable; apply in_elt).
      destruct (proj1 (Forall_forall _ _) Hacc offset Hin)
        as [Hinv' | [Hoff Hrow]]; [contradiction | ].
      destruct (BlitImages_row_exact offset 0 Hrow (S (List.length image_data))
                  x_base ypos mem) as [ws1 [E1 F1]];
        cbn [List.length] in *; try lia.
      exists ws1. split; [exact E1 | ].
      intros a v. rewrite F1. split.
      + intros [k [idx [Ek [Hv Ht]]]]. exists (Z.of_nat k), idx.
        rewrite Nat2Z.id, Ek. repeat split; try lia; assumption.
      + intros [x [idx [Hx0 [Ek [Hv Ht]]]]]. exists (Z.to_nat x), idx.
        rewrite Z2Nat.id by lia. split; [ | split; assumption].
        destruct (nth_error _ (Z.to_nat x)) as [[p | ] | ];
          congruence. }
  rewrite E1. cbn [bind].
  rewrite int32_small by (cbn [List.length] in Hy'; lia).
  rewrite pixel_address_next_row.
  destruct (IH (pre ++ [offset]) x_base (ypos + 1) (pstores ws1 mem))
    as [ws2 [E2 F2]]; try assumption; try (cbn [List.length] in Hy'; lia).
  { rewrite <- app_assoc. exact Htable. }
  rewrite length_app in E2, F2. cbn [List.length] in E2, F2.
  replace (Z.of_nat (List.length pre + 1)) with (Z.of_nat (List.length pre) + 1)
    in E2, F2 by lia.
  exists (ws1 ++ ws2). split; [rewrite E2, pstores_app; reflexivity | ].
  intros a v. rewrite in_app_iff, F1, F2. split.
  - intros [[x [idx [Hx0 [Ep [Hv Ht]]]]] | [x [y [idx [Hx0 [Hy0 [Ep [Hv Ht]]]]]]]].
    + exists x, (Z.of_nat (List.length pre)), idx.
      rewrite Z.sub_diag, Z.add_0_r. repeat split; try lia; assumption.
    + exists x, y, idx.
      replace (ypos + (y - Z.of_nat (List.length pre)))
        with (ypos + 1 + (y - (Z.of_nat (List.length pre) + 1))) by lia.
      repeat split; try lia; assumption.
  - intros [x [y [idx [Hx0 [Hy0 [Ep [Hv Ht]]]]]]].
    destruct (Z.eq_dec y (Z.of_nat (List.length pre))) as [-> | Hne].
    + left. exists x, idx. rewrite Z.sub_diag, Z.add_0_r in Ht.
      repeat split; try lia; assumption.
    + right. exists x, y, idx.
      replace (ypos + 1 + (y - (Z.of_nat (List.length pre) + 1)))
        with (ypos + (y - Z.of_nat (List.length pre))) by lia.
      repeat split; try lia; assumption.
Qed.

End BlitIndexedExact.

Lemma pixel_at_range (imd : ImageData8bpp.t) x y idx :
  loaded8 imd ->
  0 <= x -> 0 <= y ->
  pixel_at imd x y = Some idx ->
  x < width (ImageData8bpp.base imd) /\ y < height (ImageData8bpp.base imd).
Proof.
  intros [Hbytes [Hlen [Hw [Hrows Hacc]]]] Hx Hy E.
  cbv zeta in Hbytes, Hlen, Hacc. unfold pixel_at in E.
  destruct (nth_error (ImageData8bpp.table imd) (Z.to_nat y)) as [offset | ]
    eqn:En; [ | discriminate E].
  assert (nth_error (ImageData8bpp.table imd) (Z.to_nat y) <> None) as Hn
    by congruence.
  apply nth_error_Some in Hn. split; [ | lia].
  destruct (Z.eqb_spec offset INVALID_JUMP) as [ | Hinv]; [discriminate E | ].
  apply nth_error_In in En.
  destruct (proj1 (Forall_forall _ _) Hacc offset En) as [ | [_ Hrow]];
    [contradiction | ].
  pose proof (row_pixels_length _ _ _ _ _ Hrow eq_refl Hbytes
                (S (List.length (ImageData8bpp.data imd)))) as Hl.
  destruct (nth_error (row_pixels _ _ offset) (Z.to_nat x)) eqn:Ex;
    [ | discriminate E].
  assert (nth_error
            (row_pixels (S (List.length (ImageData8bpp.data imd)))
               (ImageData8bpp.data imd) offset) (Z.to_nat x) <> None) as Hx'
    by congruence.
  apply nth_error_Some in Hx'. lia.
Qed.

Lemma pixel_address_inj cr x y x' y' :
  0 <= x < ClippedRectangle.width cr ->
  0 <= x' < ClippedRectangle.width cr ->
  ClippedRectangle.width cr <= ClippedRectangle.pitch cr ->
  pixel_address cr x y = pixel_address cr x' y' ->
  x = x' /\ y = y'.
Proof.
  unfold pixel_address. intros Hx Hx' Hp E.
  assert (y = y') as -> by nia. split; lia.
Qed.

(** The index the tiled image has at a position of the rectangle, through
    the tiles that hold the position. *)
Lemma tiled_pixel_tile (imd : ImageData8bpp.t) (cr : ClippedRectangle.t)
  (numx numy x_base y_base x y : Z) idx :
  loaded8 imd ->
  0 < width (ImageData8bpp.base imd) ->
  0 < height (ImageData8bpp.base imd) ->
  0 <= x < ClippedRectangle.width cr ->
  0 <= y < ClippedRectangle.height cr ->
  ClippedRectangle.width cr <= ClippedRectangle.pitch cr ->
  tiled_pixel imd numx numy x_base y_base x y = Some idx
  <-> exists x' y',
        0 <= x' /\ 0 <= y'
        /\ pixel_at imd x' y' = Some idx
        /\ tile_address cr numx numy (width (ImageData8bpp.base imd))
             (height (ImageData8bpp.base imd)) (x_base + x') (y_base + y')
             (pixel_address cr x y).
Proof.
  intros Hloaded Hw Hh Hx Hy Hp. unfold tiled_pixel. cbv zeta.
  set (w := width (ImageData8bpp.base imd)) in *.
  set (h := height (ImageData8bpp.base imd)) in *.
  split.
  - destruct (Z.leb_spec x_base x) as [Hx0 | ]; [ | discriminate].
    destruct (Z.ltb_spec x (x_base + numx * w)) as [Hx1 | ]; [ | discriminate].
    destruct (Z.leb_spec y_base y) as [Hy0 | ]; [ | discriminate].
    destruct (Z.ltb_spec y (y_base + numy * h)) as [Hy1 | ]; [ | discriminate].
    cbn [andb]. intros E.
    pose proof (Z.mod_pos_bound (x - x_base) w Hw) as Hmx.
    pose proof (Z.mod_pos_bound (y - y_base) h Hh) as Hmy.
    pose proof (Z.div_mod (x - x_base) w ltac:(lia)) as Hdx.
    pose proof (Z.div_mod (y - y_base) h ltac:(lia)) as Hdy.
    exists ((x - x_base) mod w), ((y - y_base) mod h).
    split; [lia | ]. split; [lia | ]. split; [exact E | ].
    exists ((x - x_base) / w), ((y - y_base) / h).
    assert (0 <= (x - x_base) / w) by (apply Z.div_pos; lia).
    assert (0 <= (y - y_base) / h) by (apply Z.div_pos; lia).
    assert ((x - x_base) / w < numx)
      by (apply Z.div_lt_upper_bound; lia).
    assert ((y - y_base) / h < numy)
      by (apply Z.div_lt_upper_bound; lia).
    replace (x_base + (x - x_base) mod w + (x - x_base) / w * w) with x by lia.
    replace (y_base + (y - y_base) mod h + (y - y_base) / h * h) with y by lia.
    repeat split; lia.
  - intros [x' [y' [Hx' [Hy' [E [i [j [Hi [Hj [Hcx [Hcy Ha]]]]]]]]]]].
    destruct (pixel_at_range imd x' y' idx Hloaded Hx' Hy' E) as [Hxw Hyh].
    fold w in Hxw. fold h in Hyh.
    apply pixel_address_inj in Ha; try assumption.
    destruct Ha as [-> ->].
    destruct (Z.leb_spec x_base (x_base + x' + i * w)) as [_ | ]; [ | nia].
    destruct (Z.ltb_spec (x_base + x' + i * w) (x_base + numx * w)) as [_ | ];
      [ | nia].
    destruct (Z.leb_spec y_base (y_base + y' + j * h)) as [_ | ]; [ | nia].
    destruct (Z.ltb_spec (y_base + y' + j * h) (y_base + numy * h)) as [_ | ];
      [ | nia].
    cbn [andb].
    replace (x_base + x' + i * w - x_base) with (x' + i * w) by lia.
    replace (y_base + y' + j * h - y_base) with (y' + j * h) by lia.
    rewrite !Z_mod_plus_full, !Z.mod_small by lia. exact E.
Qed.

(** X18: what a blit of an indexed image paints.  For an image that
    [LoadImage] returned and a palette of fully opaque colours, the blit
    with [numx] by [numy] tiles returns, and the screen behind it is the
    screen before it with the image laid over it: a pixel of the clipped
    rectangle for which the tiled image stores an index has the palette
    colour of that index, sent through the recolouring, and every other
    pixel, inside or outside the rectangle, is as before.  The rectangle
    is no wider than its pitch, and positions and pointer offsets stay
    inside [int32]. *)
Theorem BlitImages8_paints_tiles {GradientShift : Type} (_palette : Z -> Z)
  (cr : ClippedRectangle.t) (numx numy : Z)
  (rcd_file rcd_file' : RcdFileReader) (_sprites _sprites' : list Sprite)
  (imd : ImageData8bpp.t) (x_base y_base : Z)
  (recolour : Recolouring GradientShift) (shift : GradientShift) :
  LoadImage rcd_file _sprites = Ok (Some (Sprite8 imd), rcd_file', _sprites') ->
  (forall i, GetA (_palette i) = OPAQUE) ->
  0 <= numx < 65536 -> 0 <= numy < 65536 ->
  - 1073741824 <= x_base <= 1073741824 ->
  - 1073741824 <= y_base <= 1073741824 ->
  ClippedRectangle.width cr + 65536 <= 2147483648 ->
  ClippedRectangle.height cr + 65536 <= 2147483648 ->
  ClippedRectangle.width cr <= ClippedRectangle.pitch cr ->
  int32 (ClippedRectangle.pitch cr * y_base) = ClippedRectangle.pitch cr * y_base ->
  int32 (height (ImageData8bpp.base imd) * ClippedRectangle.pitch cr)
  = height (ImageData8bpp.base imd) * ClippedRectangle.pitch cr ->
  forall mem,
  exists mem',
    Blit8bpp.BlitImages _palette cr numx numy imd x_base y_base recolour shift
      mem
    = Ok mem'
    /\ (forall x y,
          0 <= x < ClippedRectangle.width cr ->
          0 <= y < ClippedRectangle.height cr ->
          mem' (pixel_address cr x y)
          = match tiled_pixel imd numx numy x_base y_base x y with
            | Some idx => _palette (uint8 (GetPalette recolour shift idx))
            | None => mem (pixel_address cr x y)
            end)
    /\ (forall a, ~ inside_clip cr a -> mem' a = mem a).
Proof.
  intros E Hopaque Hnx Hny Hx Hy Hcw Hch Hpitch Hbase Hstep mem.
  pose proof (LoadImage_Sprite8_limits _ _ _ _ _ E) as [Hw Hh].
  apply LoadImage_Sprite8 in E.
  pose proof E as [_ [_ [_ [Hrows _]]]].
  unfold Blit8bpp.BlitImages. rewrite Hbase.
  change (ClippedRectangle.address cr + x_base + ClippedRectangle.pitch cr * y_base)
    with (pixel_address cr x_base y_base).
  replace (Z.to_nat (height (ImageData8bpp.base imd)))
    with (List.length (ImageData8bpp.table imd)) by lia.
  destruct (BlitImages_rows_exact _palette cr numx numy imd
              (GetPalette recolour shift) E Hopaque ltac:(lia) ltac:(lia)
              ltac:(lia) ltac:(lia) Hcw Hch Hstep (ImageData8bpp.table imd) []
              x_base y_base mem) as [writes [Eb F]];
    try reflexivity; try nia.
  cbn [List.length Z.of_nat] in Eb, F.
  exists (pstores writes mem). split; [exact Eb | ].
  assert (forall x y v,
            0 <= x < ClippedRectangle.width cr ->
            0 <= y < ClippedRectangle.height cr ->
            In (pixel_address cr x y, v) writes
            <-> exists idx,
                  tiled_pixel imd numx numy x_base y_base x y = Some idx
                  /\ v = _palette (uint8 (GetPalette recolour shift idx)))
    as K.
  { intros x y v Hcx Hcy. rewrite F. split.
    - intros [x' [y' [idx [Hx' [Hy' [Ep [Hv Ht]]]]]]].
      exists idx. split; [ | exact Hv].
      apply (tiled_pixel_tile imd cr numx numy x_base y_base x y idx E);
        try lia.
      exists x', y'. rewrite Z.sub_0_r in Ht.
      repeat split; try assumption.
    - intros [idx [Et Hv]].
      apply (tiled_pixel_tile imd cr numx numy x_base y_base x y idx E) in Et;
        try lia.
      destruct Et as [x' [y' [Hx' [Hy' [Ep Ht]]]]].
      exists x', y', idx. rewrite Z.sub_0_r.
      repeat split; try assumption. }
  split.
  - intros x y Hcx Hcy.
    destruct (tiled_pixel imd numx numy x_base y_base x y) as [idx | ] eqn:Et.
    + apply pstores_written.
      * exists (pixel_address cr x y,
                _palette (uint8 (GetPalette recolour shift idx))).
        split; [ | reflexivity].
        apply (K x y _ Hcx Hcy). rewrite Et. exists idx. split; reflexivity.
      * intros [a v] Hin Ha. cbn [fst snd] in *. subst a.
        apply (K x y v Hcx Hcy) in Hin. destruct Hin as [idx' [Et' Hv]].
        rewrite Et in Et'. injection Et' as <-. exact Hv.
    + apply pstores_not_written.
      intros [a v] Hin Ha. cbn [fst] in Ha. subst a.
      apply (K x y v Hcx Hcy) in Hin. destruct Hin as [idx' [Et' _]].
      rewrite Et in Et'. discriminate Et'.
  - intros a Hout. apply pstores_not_written.
    intros [a' v] Hin Ha. cbn [fst] in Ha. subst a'. apply Hout.
    apply F in Hin.
    destruct Hin as [x' [y' [idx [_ [_ [_ [_ [i [j [_ [_ [Hcx [Hcy Ha]]]]]]]]]]]]].
    eexists. eexists. split; [exact Hcx | ]. split; [exact Hcy | exact Ha].
Qed.

Lemma BlitImages8_paints_tiles_witness :
  let rcd_file :=
    of_bytes "8PXL" 2
      ([3; 0; 1; 0; 0; 0; 0; 0] ++ [4; 0; 0; 0] ++ [1; 1; 7; 128; 1; 9]) in
  let imd := ImageData8bpp.mk (sized 1 3 1) [0] [1; 1; 7; 128; 1; 9] in
  let cr := ClippedRectangle.mk 4 2 4 100 in
  let _palette := fun i => MakeRGBA i i i OPAQUE in
  let recolour := mkRecolouring unit (fun _ i => i) (fun _ i => i) in
  exists mem',
    Blit8bpp.BlitImages _palette cr 2 3 imd (-1) 0 recolour tt (fun _ => 0)
    = Ok mem'
    /\ (forall x y,
          0 <= x < ClippedRectangle.width cr ->
          0 <= y < ClippedRectangle.height cr ->
          mem' (pixel_address cr x y)
          = match tiled_pixel imd 2 3 (-1) 0 x y with
            | Some idx => _palette (uint8 (GetPalette recolour tt idx))
            | None => 0
            end)
    /\ (forall a, ~ inside_clip cr a -> mem' a = 0).
Proof.
  intros rcd_file imd cr _palette recolour.
  refine (BlitImages8_paints_tiles _palette cr 2 3 rcd_file
           (advance rcd_file 18) [] [Sprite8 imd] imd (-1) 0 recolour tt
           _ _ _ _ _ _ _ _ _ _ _ (fun _ => 0)).
  - vm_compute. reflexivity.
  - intros i. unfold _palette. rewrite GetA_MakeRGBA. vm_compute. reflexivity.
  - lia.
  - lia.
  - lia.
  - lia.
  - cbn [ClippedRectangle.width cr]. lia.
  - cbn [ClippedRectangle.height cr]. lia.
  - cbn [ClippedRectangle.width ClippedRectangle.pitch cr]. lia.
  - reflexivity.
  - reflexivity.
Defined.

(** X19: [BlitPixel] paints every tile inside the rectangle and nothing
    else.  For an image of positive sizes, tile counts that keep
    [xmin + numx * width] and [ymin + numy * height] inside [int32], and
    [scr_base] the address of [(xmin, ymin)], the screen behind the call
    has the colour at the address of every placement [(i, j)],
    [i < numx], [j < numy], whose position lies inside the clipped
    rectangle, and is as before at every other address. *)
Theorem BlitPixel_paints_all_tiles (cr : ClippedRectangle.t)
  (xmin ymin numx numy width height colour : Z) (mem : screen) :
  - 2147483648 <= xmin -> xmin + numx * width < 2147483648 ->
  - 2147483648 <= ymin -> ymin + numy * height < 2147483648 ->
  0 <= numx -> 0 <= numy ->
  0 < width < 65536 ->
  0 < height < 65536 ->
  ClippedRectangle.width cr + 65536 <= 2147483648 ->
  ClippedRectangle.height cr + 65536 <= 2147483648 ->
  int32 (height * ClippedRectangle.pitch cr) = height * ClippedRectangle.pitch cr ->
  exists mem',
    BlitPixel cr (pixel_address cr xmin ymin) xmin ymin numx numy width height
      colour mem
    = Ok mem'
    /\ (forall a,
          tile_address cr numx numy width height xmin ymin a ->
          mem' a = colour)
    /\ (forall a,
          ~ tile_address cr numx numy width height xmin ymin a ->
          mem' a = mem a).
Proof.
  intros Hx Hx' Hy Hy' Hnx Hny Hw Hh Hcw Hch Hstep.
  destruct (BlitPixel_exact cr xmin ymin numx numy width height colour)
    as [writes [E F]]; try assumption.
  exists (pstores (map (fun a => (a, colour)) writes) mem).
  split; [apply E | ]. split.
  - intros a Ht. apply pstores_written.
    + exists (a, colour). split; [ | reflexivity].
      apply in_map_iff. exists a. split; [reflexivity | ]. apply F. exact Ht.
    + intros w Hin _. apply in_map_iff in Hin.
      destruct Hin as [a' [<- _]]. reflexivity.
  - intros a Hout. apply pstores_not_written.
    intros w Hin Ha. apply in_map_iff in Hin.
    destruct Hin as [a' [<- Hin]]. cbn [fst] in Ha. subst a'.
    apply Hout. apply F. exact Hin.
Qed.

Lemma BlitPixel_paints_all_tiles_witness :
  let cr := ClippedRectangle.mk 3 2 4 100 in
  exists mem',
    BlitPixel cr (pixel_address cr (-1) 0) (-1) 0 3 2 2 1 7 (fun _ => 0)
    = Ok mem'
    /\ (forall a, tile_address cr 3 2 2 1 (-1) 0 a -> mem' a = 7)
    /\ (forall a, ~ tile_address cr 3 2 2 1 (-1) 0 a -> mem' a = 0).
Proof.
  intros cr.
  refine (BlitPixel_paints_all_tiles cr (-1) 0 3 2 2 1 7 (fun _ => 0)
            _ _ _ _ _ _ _ _ _ _ _);
    try lia; try (cbn [ClippedRectangle.width ClippedRectangle.height cr]; lia).
  reflexivity.
Defined.

(** * Part VI: what a blit of a true-colour image paints *)

Lemma column_in_run_inv data ptr x skipped mode run i :
  column_in_run data ptr x skipped mode run i ->
  exists before,
    read data ptr = Ok before /\ before <> 0
    /\ ((skipped = [] /\ before = mode /\ run = ptr + 1 /\ x = i
         /\ 0 <= i < Z.land mode 63)
        \/ (exists x' skipped',
              skipped = before :: skipped'
              /\ x = Z.land before 63 + x'
              /\ column_in_run data (ptr + 1 + run_payload before) x' skipped'
                   mode run i)).
Proof.
  intros H. destruct H as [ptr mode i E Hm Hi | ptr before x skipped mode run i E Hb H].
  - exists mode. repeat split; try assumption. left. repeat split; lia.
  - exists before. repeat split; try assumption. right.
    exists x, skipped. repeat split. exact H.
Qed.

Lemma column_in_run_nonneg data ptr x skipped mode run i :
  column_in_run data ptr x skipped mode run i -> 0 <= x.
Proof.
  induction 1 as [ | ptr before x skipped mode run i _ _ _ IH]; [lia | ].
  pose proof (land_63_range before). lia.
Qed.

Section BlitTrueColourExact.

Context {GradientShift : Type}.
Variable OPACITY_SEMI_TRANSPARENT : Z.
Variable cr : ClippedRectangle.t.
Variable this : ImageData32bpp.t.
Variable recolour : Recolouring GradientShift.
Variable sf : Z -> Z.
Variable semi : bool.

Local Notation "'image_width'" := (width (ImageData32bpp.base this)).
Local Notation "'image_height'" := (height (ImageData32bpp.base this)).
Local Notation "'image_data'" := (ImageData32bpp.data this).
Local Notation "'paint'" :=
  (run_paint OPACITY_SEMI_TRANSPARENT (ImageData32bpp.data this) sf semi
     recolour).

Hypothesis image_bytes : bytes image_data.
Hypothesis width_range : 0 < image_width < 65536.
Hypothesis height_range : 0 < image_height < 65536.
Hypothesis cw_bound : ClippedRectangle.width cr + 65536 <= 2147483648.
Hypothesis ch_bound : ClippedRectangle.height cr + 65536 <= 2147483648.
Hypothesis step_fits :
  int32 (image_height * ClippedRectangle.pitch cr)
  = image_height * ClippedRectangle.pitch cr.

(** One pixel, not tiled: the colour is at its position if that is inside
    the rectangle, and nothing else has changed. *)
Lemma BlitPixel_single xpos ypos colour mem :
  - 2147483648 <= xpos -> xpos + 65536 < 2147483648 ->
  - 2147483648 <= ypos -> ypos + 65536 < 2147483648 ->
  exists mem',
    BlitPixel cr (pixel_address cr xpos ypos) xpos ypos 1 1 image_width
      image_height colour mem
    = Ok mem'
    /\ (in_clip cr xpos ypos -> mem' (pixel_address cr xpos ypos) = colour)
    /\ (forall a,
          (in_clip cr xpos ypos -> a <> pixel_address cr xpos ypos) ->
          mem' a = mem a).
Proof.
  intros Hx Hx' Hy Hy'.
  destruct (BlitPixel_exact cr xpos ypos 1 1 image_width image_height colour)
    as [writes [E F]]; try assumption; try lia.
  assert (forall a,
            In a writes
            <-> in_clip cr xpos ypos /\ a = pixel_address cr xpos ypos) as F'.
  { intros a. rewrite F. unfold tile_address, in_clip. split.
    - intros [i [j [Hi [Hj [Hcx [Hcy Ha]]]]]].
      assert (i = 0) as -> by lia. assert (j = 0) as -> by lia.
      rewrite !Z.mul_0_l, !Z.add_0_r in *. tauto.
    - intros [[Hcx Hcy] Ha]. exists 0, 0.
      rewrite !Z.mul_0_l, !Z.add_0_r. repeat split; try lia; assumption. }
  exists (pstores (map (fun a => (a, colour)) writes) mem).
  split; [apply E | ]. split.
  - intros Hin. apply pstores_written.
    + exists (pixel_address cr xpos ypos, colour). split; [ | reflexivity].
      apply in_map_iff. eexists. split; [reflexivity | ]. apply F'. tauto.
    + intros w Hw _. apply in_map_iff in Hw. destruct Hw as [a' [<- _]].
      reflexivity.
  - intros a Ha. apply pstores_not_written.
    intros w Hw Hfst. apply in_map_iff in Hw. destruct Hw as [a' [<- Hin]].
    cbn [fst] in Hfst. subst a'. apply F' in Hin. destruct Hin as [Hin Eq].
    exact (Ha Hin Eq).
Qed.

Lemma pixel_address_column x x' y :
  x <> x' -> pixel_address cr x y <> pixel_address cr x' y.
Proof. unfold pixel_address. lia. Qed.

(** The pixels of a run, not tiled. *)
Lemma BlitImages_run_exact (colour_at : Z -> Z -> outcome Z) (stride : Z)
  (count : nat) :
  forall src xpos ypos mem,
    (forall i old, 0 <= i < Z.of_nat count ->
       exists colour, colour_at (src + stride * i) old = Ok colour) ->
    - 2147483648 <= xpos -> xpos + Z.of_nat count + 65536 < 2147483648 ->
    - 2147483648 <= ypos -> ypos + 65536 < 2147483648 ->
    exists mem',
      Blit32bpp.BlitImages_run cr 1 1 count this colour_at stride src
        xpos ypos (pixel_address cr xpos ypos) mem
      = Ok (src + stride * Z.of_nat count, xpos + Z.of_nat count,
            pixel_address cr (xpos + Z.of_nat count) ypos, mem')
      /\ (forall k,
            0 <= k < Z.of_nat count ->
            in_clip cr (xpos + k) ypos ->
            colour_at (src + stride * k) (mem (pixel_address cr (xpos + k) ypos))
            = Ok (mem' (pixel_address cr (xpos + k) ypos)))
      /\ (forall a,
            (forall k, 0 <= k < Z.of_nat count -> in_clip cr (xpos + k) ypos ->
                       a <> pixel_address cr (xpos + k) ypos) ->
            mem' a = mem a).
Proof.
  induction count as [ | count IH]; intros src xpos ypos mem Hc Hx Hx' Hy Hy'.
  { exists mem. split; [ | split].
    - cbn [Blit32bpp.BlitImages_run Z.of_nat].
      rewrite Z.mul_0_r, !Z.add_0_r. reflexivity.
    - intros k Hk. simpl in Hk. lia.
    - reflexivity. }
  cbn [Blit32bpp.BlitImages_run].
  destruct (Hc 0 (mem (pixel_address cr xpos ypos))) as [colour Ec]; [lia | ].
  rewrite Z.mul_0_r, Z.add_0_r in Ec. rewrite Ec. cbn [bind].
  destruct (BlitPixel_single xpos ypos colour mem) as [mem1 [E1 [P1 F1]]];
    try lia.
  rewrite E1. cbn [bind].
  rewrite int32_small by lia. rewrite pixel_address_shift.
  destruct (IH (src + stride) (xpos + 1) ypos mem1)
    as [mem' [E2 [P2 F2]]]; try lia.
  { intros i old Hi. destruct (Hc (i + 1) old) as [c E]; [lia | ].
    exists c. rewrite <- E. f_equal. ring. }
  exists mem'. split; [ | split].
  - rewrite E2.
    replace (src + stride + stride * Z.of_nat count)
      with (src + stride * Z.of_nat (S count)) by lia.
    replace (xpos + 1 + Z.of_nat count) with (xpos + Z.of_nat (S count)) by lia.
    reflexivity.
  - intros k Hk Hin. destruct (Z.eq_dec k 0) as [-> | Hne].
    + rewrite Z.mul_0_r, !Z.add_0_r in *. rewrite Ec. f_equal.
      rewrite F2; [symmetry; apply P1; exact Hin | ].
      intros k' Hk' _. apply pixel_address_column. lia.
    + specialize (P2 (k - 1) ltac:(lia)).
      replace (xpos + 1 + (k - 1)) with (xpos + k) in P2 by lia.
      replace (src + stride + stride * (k - 1)) with (src + stride * k) in P2
        by ring.
      rewrite <- (P2 Hin). f_equal. symmetry. apply F1.
      intros _. apply pixel_address_column. lia.
  - intros a Ha. rewrite F2.
    + apply F1. intros Hin. specialize (Ha 0 ltac:(lia)).
      rewrite Z.add_0_r in Ha. exact (Ha Hin).
    + intros k Hk Hin. specialize (Ha (k + 1) ltac:(lia)).
      replace (xpos + (k + 1)) with (xpos + 1 + k) in Ha by lia.
      exact (Ha Hin).
Qed.

(** The runs of a line, not tiled. *)
Lemma BlitImages_line_exact end_ ptr sum :
  line_accepted image_data end_ image_width ptr sum ->
  forall fuel xpos ypos mem,
    0 <= sum ->
    Z.of_nat (List.length image_data) - ptr < Z.of_nat fuel ->
    - 2147483648 <= xpos ->
    xpos + (image_width - sum) + 65536 < 2147483648 ->
    - 2147483648 <= ypos -> ypos + 65536 < 2147483648 ->
    exists mem',
      Blit32bpp.BlitImages_line OPACITY_SEMI_TRANSPARENT cr 1 1 fuel this
        recolour sf semi ypos ptr xpos (pixel_address cr xpos ypos) mem
      = Ok (end_, mem')
      /\ (forall x skipped mode run i,
            column_in_run image_data ptr x skipped mode run i ->
            Z.shiftr mode 6 <> 2 ->
            in_clip cr (xpos + x) ypos ->
            paint mode run i (mem (pixel_address cr (xpos + x) ypos))
            = Ok (mem' (pixel_address cr (xpos + x) ypos)))
      /\ (forall a,
            (forall x skipped mode run i,
               column_in_run image_data ptr x skipped mode run i ->
               Z.shiftr mode 6 <> 2 ->
               in_clip cr (xpos + x) ypos ->
               a <> pixel_address cr (xpos + x) ypos) ->
            mem' a = mem a).
Proof.
  induction 1 as [ptr sum Hend E Hsum | ptr sum mode Hlt E Hmode Hrest IH];
    intros fuel xpos ypos mem Hs Hf Hx Hx' Hy Hy';
    (destruct fuel as [ | fuel]; [pose proof (proj1 (read_Ok _ _ _ E)); lia | ]);
    cbn [Blit32bpp.BlitImages_line]; rewrite E; cbn [bind].
  { exists mem. split; [cbn [Z.eqb]; rewrite Hend; reflexivity | ]. split.
    - intros x skipped mode run i Hcol. apply column_in_run_inv in Hcol.
      destruct Hcol as [before [Er [Hne _]]]. rewrite E in Er.
      injection Er as <-. contradiction.
    - reflexivity. }
  destruct (Z.eqb_spec mode 0) as [ | _]; [contradiction | ].
  pose proof (read_Ok _ _ _ E) as [Hptr Hin].
  pose proof (bytes_In _ _ image_bytes Hin) as Hbyte.
  pose proof (land_63_range mode) as Hcount.
  pose proof (line_accepted_read _ _ _ _ _ Hrest) as Hnext.
  pose proof (line_accepted_sum _ _ _ _ _ Hrest) as Hfit.
  assert (0 <= Z.shiftr mode 6 < 4) as Hkind.
  { rewrite Z.shiftr_div_pow2 by lia. change (2 ^ 6) with 64.
    split; [apply Z.div_pos; lia | apply Z.div_lt_upper_bound; lia]. }
  assert (exists mem1,
    match Z.shiftr mode 6 with
    | 0 =>
        if semi
        then Blit32bpp.BlitImages_run cr 1 1 (Z.to_nat (Z.land mode 63))
               this
               (Blit32bpp.opaque_colour_at OPACITY_SEMI_TRANSPARENT image_data
                  sf semi) 0 (ptr + 1 + 3 * Z.land mode 63) xpos ypos
               (pixel_address cr xpos ypos) mem
        else Blit32bpp.BlitImages_run cr 1 1 (Z.to_nat (Z.land mode 63))
               this
               (Blit32bpp.opaque_colour_at OPACITY_SEMI_TRANSPARENT image_data
                  sf semi) 3 (ptr + 1) xpos ypos (pixel_address cr xpos ypos)
               mem
    | 1 =>
        opacity <- read image_data (ptr + 1) ;;
        Blit32bpp.BlitImages_run cr 1 1 (Z.to_nat (Z.land mode 63)) this
          (Blit32bpp.partial_colour_at image_data sf
             (Blit32bpp.capped OPACITY_SEMI_TRANSPARENT semi opacity)) 3
          (ptr + 1 + 1) xpos ypos (pixel_address cr xpos ypos) mem
    | 2 =>
        Ok (ptr + 1, int32 (xpos + Z.land mode 63),
            pixel_address cr xpos ypos + Z.land mode 63, mem)
    | 3 =>
        layer <- read image_data (ptr + 1) ;;
        opacity <- read image_data (ptr + 1 + 1) ;;
        Blit32bpp.BlitImages_run cr 1 1 (Z.to_nat (Z.land mode 63)) this
          (Blit32bpp.recoloured_colour_at image_data sf
             (GetRecolourTable recolour (layer - 1))
             (Blit32bpp.capped OPACITY_SEMI_TRANSPARENT semi opacity)) 1
          (ptr + 1 + 1 + 1) xpos ypos (pixel_address cr xpos ypos) mem
    | _ => Ok (ptr + 1, xpos, pixel_address cr xpos ypos, mem)
    end
    = Ok (ptr + 1 + run_payload mode, xpos + Z.land mode 63,
          pixel_address cr (xpos + Z.land mode 63) ypos, mem1)
    /\ (forall k,
          0 <= k < Z.land mode 63 ->
          Z.shiftr mode 6 <> 2 ->
          in_clip cr (xpos + k) ypos ->
          paint mode (ptr + 1) k (mem (pixel_address cr (xpos + k) ypos))
          = Ok (mem1 (pixel_address cr (xpos + k) ypos)))
    /\ (forall a,
          (forall k, 0 <= k < Z.land mode 63 -> Z.shiftr mode 6 <> 2 ->
                     in_clip cr (xpos + k) ypos ->
                     a <> pixel_address cr (xpos + k) ypos) ->
          mem1 a = mem a)) as [mem1 [E1 [P1 F1]]].
  { revert Hkind Hnext. unfold run_payload, run_paint.
    destruct (Z.shiftr mode 6) as [ | [[p | p | ] | [p | p | ] | ] | p];
      intros Hkind Hnext; try lia.
    - (* Fully opaque pixels. *)
      destruct semi eqn:Esemi.
      + destruct (BlitImages_run_exact
                    (Blit32bpp.opaque_colour_at OPACITY_SEMI_TRANSPARENT
                       image_data sf true) 0 (Z.to_nat (Z.land mode 63))
                    (ptr + 1 + 3 * Z.land mode 63) xpos ypos mem)
          as [mem1 [Er [Pr Fr]]]; try lia.
        { intros i old _. eexists. reflexivity. }
        rewrite Z2Nat.id in Er, Pr, Fr by lia.
        exists mem1. split; [ | split].
        * rewrite Er. rewrite Z.mul_0_l, Z.add_0_r. reflexivity.
        * intros k Hk _ Hc. exact (Pr k Hk Hc).
        * intros a Ha. apply Fr. intros k Hk Hc.
          apply (Ha k Hk); [discriminate | exact Hc].
      + destruct (BlitImages_run_exact
                    (Blit32bpp.opaque_colour_at OPACITY_SEMI_TRANSPARENT
                       image_data sf false) 3 (Z.to_nat (Z.land mode 63))
                    (ptr + 1) xpos ypos mem)
          as [mem1 [Er [Pr Fr]]]; try lia.
        { intros i old Hi. unfold Blit32bpp.opaque_colour_at.
          destruct (shifted_rgb_Ok this sf (ptr + 1 + 3 * i))
            as [[[r g] b] Ergb]; try lia.
          rewrite Ergb. cbn. eexists. reflexivity. }
        rewrite Z2Nat.id in Er, Pr, Fr by lia.
        exists mem1. split; [ | split].
        * rewrite Er. reflexivity.
        * intros k Hk _ Hc. exact (Pr k Hk Hc).
        * intros a Ha. apply Fr. intros k Hk Hc.
          apply (Ha k Hk); [discriminate | exact Hc].
    - (* Recoloured pixels. *)
      destruct (read_in_range image_data (ptr + 1)) as [layer [El _]];
        [lia | ].
      destruct (read_in_range image_data (ptr + 1 + 1)) as [opacity [Eo _]];
        [lia | ].
      rewrite El, Eo. cbn [bind].
      destruct (BlitImages_run_exact
                  (Blit32bpp.recoloured_colour_at image_data sf
                     (GetRecolourTable recolour (layer - 1))
                     (Blit32bpp.capped OPACITY_SEMI_TRANSPARENT semi opacity))
                  1 (Z.to_nat (Z.land mode 63)) (ptr + 1 + 1 + 1) xpos ypos mem)
        as [mem1 [Er [Pr Fr]]]; try lia.
      { intros i old Hi. unfold Blit32bpp.recoloured_colour_at.
        destruct (read_in_range image_data (ptr + 1 + 1 + 1 + 1 * i))
          as [index [Ei _]]; [lia | ].
        rewrite Ei. cbn [bind]. eexists. reflexivity. }
      rewrite Z2Nat.id in Er, Pr, Fr by lia.
      exists mem1. split; [ | split].
      * rewrite Er. do 2 f_equal. f_equal. f_equal. lia.
      * intros k Hk _ Hc. exact (Pr k Hk Hc).
      * intros a Ha. apply Fr. intros k Hk Hc.
        apply (Ha k Hk); [discriminate | exact Hc].
    - (* Fully transparent pixels. *)
      exists mem. split; [ | split].
      + rewrite int32_small by lia. rewrite pixel_address_shift.
        rewrite Z.add_0_r. reflexivity.
      + intros k _ Hne. contradiction Hne. reflexivity.
      + reflexivity.
    - (* Partially opaque pixels. *)
      destruct (read_in_range image_data (ptr + 1)) as [opacity [Eo _]];
        [lia | ].
      rewrite Eo. cbn [bind].
      destruct (BlitImages_run_exact
                  (Blit32bpp.partial_colour_at image_data sf
                     (Blit32bpp.capped OPACITY_SEMI_TRANSPARENT semi opacity))
                  3 (Z.to_nat (Z.land mode 63)) (ptr + 1 + 1) xpos ypos mem)
        as [mem1 [Er [Pr Fr]]]; try lia.
      { intros i old Hi. unfold Blit32bpp.partial_colour_at.
        destruct (shifted_rgb_Ok this sf (ptr + 1 + 1 + 3 * i))
          as [[[r g] b] Ergb]; try lia.
        rewrite Ergb. cbn. eexists. reflexivity. }
      rewrite Z2Nat.id in Er, Pr, Fr by lia.
      exists mem1. split; [ | split].
      * rewrite Er. do 2 f_equal. f_equal. f_equal. lia.
      * intros k Hk _ Hc. exact (Pr k Hk Hc).
      * intros a Ha. apply Fr. intros k Hk Hc.
        apply (Ha k Hk); [discriminate | exact Hc]. }
  rewrite E1. cbn [bind].
  pose proof (run_payload_nonneg mode) as Hpay.
  destruct (IH fuel (xpos + Z.land mode 63) ypos mem1)
    as [mem' [E2 [P2 F2]]]; try lia.
  exists mem'. split; [exact E2 | ]. split.
  - intros x skipped mode' run i Hcol Hk Hc.
    apply column_in_run_inv in Hcol.
    destruct Hcol as [before [Er [Hne [[Hsk [Hm [Hrun [Hxi Hi]]]]
                                      | [x' [sk' [Hsk [Hxx Hcol']]]]]]]];
      rewrite E in Er; injection Er as <-.
    + subst mode' run x. rewrite F2.
      * apply P1; assumption.
      * intros x' sk' m' r' i' Hcol' _ _. apply pixel_address_column.
        apply column_in_run_nonneg in Hcol'. lia.
    + subst x. specialize (P2 x' sk' mode' run i Hcol' Hk).
      replace (xpos + Z.land mode 63 + x') with (xpos + (Z.land mode 63 + x'))
        in P2 by lia.
      rewrite <- (P2 Hc). f_equal. symmetry. apply F1.
      intros k Hk' _ _. apply pixel_address_column.
      apply column_in_run_nonneg in Hcol'. lia.
  - intros a Ha. rewrite F2.
    + apply F1. intros k Hk Hkind' Hc.
      apply (Ha k [] mode (ptr + 1) k); try assumption.
      apply column_here; assumption.
    + intros x sk m r i Hcol Hkind' Hc.
      replace (xpos + Z.land mode 63 + x) with (xpos + (Z.land mode 63 + x))
        in * by lia.
      apply (Ha (Z.land mode 63 + x) (mode :: sk) m r i); try assumption.
      apply column_later; assumption.
Qed.

Hypothesis pitch_wide : ClippedRectangle.width cr <= ClippedRectangle.pitch cr.

Lemma pixel_address_row x y x' y' :
  in_clip cr x y -> in_clip cr x' y' -> y <> y' ->
  pixel_address cr x y <> pixel_address cr x' y'.
Proof.
  intros [Hx _] [Hx' _] Hne E.
  apply pixel_address_inj in E; try assumption. lia.
Qed.

(** The lines of the image, not tiled. *)
Lemma BlitImages_lines_exact abs_end ptr count :
  lines_accepted image_data abs_end image_width ptr count ->
  forall x_base ypos mem,
    - 2147483648 <= x_base -> x_base + image_width + 65536 < 2147483648 ->
    - 2147483648 <= ypos -> ypos + count + 65536 < 2147483648 ->
    exists mem',
      Blit32bpp.BlitImages_lines OPACITY_SEMI_TRANSPARENT cr 1 1
        (Z.to_nat count) this recolour sf semi x_base (ptr + 2)
        (pixel_address cr x_base ypos) ypos mem
      = Ok mem'
      /\ (forall (k : nat) line x skipped mode run i,
            Z.of_nat k < count ->
            ImageData32bpp.skip_lines k image_data ptr = Ok line ->
            column_in_run image_data (line + 2) x skipped mode run i ->
            Z.shiftr mode 6 <> 2 ->
            in_clip cr (x_base + x) (ypos + Z.of_nat k) ->
            paint mode run i
              (mem (pixel_address cr (x_base + x) (ypos + Z.of_nat k)))
            = Ok (mem' (pixel_address cr (x_base + x) (ypos + Z.of_nat k))))
      /\ (forall a,
            (forall (k : nat) line x skipped mode run i,
               Z.of_nat k < count ->
               ImageData32bpp.skip_lines k image_data ptr = Ok line ->
               column_in_run image_data (line + 2) x skipped mode run i ->
               Z.shiftr mode 6 <> 2 ->
               in_clip cr (x_base + x) (ypos + Z.of_nat k) ->
               a <> pixel_address cr (x_base + x) (ypos + Z.of_nat k)) ->
            mem' a = mem a).
Proof.
  induction 1 as [ | ptr Hlt El Hline | ptr len n Hlt El Hlen Hfit Hline Hrest IH];
    intros x_base ypos mem Hx Hx' Hy Hy'.
  - exists mem. split; [reflexivity | ]. split; [ | reflexivity].
    intros k line x skipped mode run i Hk. lia.
  - change (Z.to_nat 1) with 1%nat. cbn [Blit32bpp.BlitImages_lines].
    pose proof (line_accepted_read _ _ _ _ _ Hline) as Hptr.
    destruct (BlitImages_line_exact _ _ _ Hline (S (List.length image_data))
                x_base ypos mem) as [mem1 [E [P F]]]; try lia.
    rewrite E. cbn [bind]. exists mem1. split; [reflexivity | ]. split.
    + intros k line x skipped mode run i Hk Es Hcol Hkind Hc.
      destruct k as [ | k]; [ | lia]. injection Es as <-.
      cbn [Z.of_nat] in *. rewrite Z.add_0_r in *.
      apply (P x skipped); assumption.
    + intros a Ha. apply F. intros x skipped mode run i Hcol Hkind Hc.
      specialize (Ha 0%nat ptr x skipped mode run i ltac:(lia) eq_refl Hcol
                    Hkind).
      cbn [Z.of_nat] in Ha. rewrite Z.add_0_r in Ha. exact (Ha Hc).
  - pose proof (lines_accepted_count _ _ _ _ _ Hrest) as Hn.
    rewrite Z2Nat.inj_add by lia. change (Z.to_nat 1) with 1%nat.
    rewrite Nat.add_1_r. cbn [Blit32bpp.BlitImages_lines].
    pose proof (line_accepted_read _ _ _ _ _ Hline) as Hptr.
    destruct (BlitImages_line_exact _ _ _ Hline (S (List.length image_data))
                x_base ypos mem) as [mem1 [E1 [P1 F1]]]; try lia.
    rewrite E1. cbn [bind].
    rewrite int32_small by lia. rewrite pixel_address_next_row.
    destruct (IH x_base (ypos + 1) mem1) as [mem' [E2 [P2 F2]]]; try lia.
    exists mem'. split; [exact E2 | ]. split.
    + intros k line x skipped mode run i Hk Es Hcol Hkind Hc.
      destruct k as [ | k].
      * injection Es as <-. cbn [Z.of_nat] in *. rewrite Z.add_0_r in *.
        rewrite F2; [apply (P1 x skipped); assumption | ].
        intros k' line' x' sk' m' r' i' _ _ _ _ Hc'.
        apply pixel_address_row; try assumption. lia.
      * cbn [ImageData32bpp.skip_lines] in Es. rewrite El in Es.
        cbn [bind] in Es.
        replace (ypos + Z.of_nat (S k)) with (ypos + 1 + Z.of_nat k) in * by lia.
        rewrite <- (P2 k line x skipped mode run i ltac:(lia) Es Hcol Hkind Hc).
        f_equal. symmetry. apply F1.
        intros x' sk' m' r' i' _ _ Hc'.
        apply pixel_address_row; try assumption. lia.
    + intros a Ha. rewrite F2.
      * apply F1. intros x skipped mode run i Hcol Hkind Hc.
        specialize (Ha 0%nat ptr x skipped mode run i ltac:(lia) eq_refl Hcol
                      Hkind).
        cbn [Z.of_nat] in Ha. rewrite Z.add_0_r in Ha. exact (Ha Hc).
      * intros k line x skipped mode run i Hk Es Hcol Hkind Hc.
        specialize (Ha (S k) line x skipped mode run i ltac:(lia)).
        cbn [ImageData32bpp.skip_lines] in Ha. rewrite El in Ha.
        cbn [bind] in Ha.
        replace (ypos + Z.of_nat (S k)) with (ypos + 1 + Z.of_nat k) in Ha
          by lia.
        exact (Ha Es Hcol Hkind Hc).
Qed.

End BlitTrueColourExact.

(** X20: what a blit of a true-colour image paints, one image, not tiled.
    For an image that [LoadImage] returned, the blit returns, and on the
    screen behind it every pixel of a run of opaque, partially opaque or
    recoloured pixels whose position lies inside the clipped rectangle
    has the colour of that pixel of its run, made from the bytes of the
    run and, for the blended kinds and the semi-transparent shift, from
    what the screen had at that position; every other pixel of the
    screen, that of a transparent run included, is as before.  The
    rectangle is no wider than its pitch, and positions and pointer
    offsets stay inside [int32]. *)
Theorem BlitImages32_paints_pixels {GradientShift : Type}
  (GetGradientShiftFunc : GradientShift -> Z -> Z)
  (is_GS_SEMI_TRANSPARENT : GradientShift -> bool)
  (OPACITY_SEMI_TRANSPARENT : Z)
  (cr : ClippedRectangle.t)
  (rcd_file rcd_file' : RcdFileReader) (_sprites _sprites' : list Sprite)
  (imd : ImageData32bpp.t) (x_base y_base : Z)
  (recolour : Recolouring GradientShift) (shift : GradientShift) :
  LoadImage rcd_file _sprites = Ok (Some (Sprite32 imd), rcd_file', _sprites') ->
  - 1073741824 <= x_base <= 1073741824 ->
  - 1073741824 <= y_base <= 1073741824 ->
  ClippedRectangle.width cr + 65536 <= 2147483648 ->
  ClippedRectangle.height cr + 65536 <= 2147483648 ->
  ClippedRectangle.width cr <= ClippedRectangle.pitch cr ->
  int32 (ClippedRectangle.pitch cr * y_base) = ClippedRectangle.pitch cr * y_base ->
  int32 (height (ImageData32bpp.base imd) * ClippedRectangle.pitch cr)
  = height (ImageData32bpp.base imd) * ClippedRectangle.pitch cr ->
  forall mem,
  exists mem',
    Blit32bpp.BlitImages GetGradientShiftFunc is_GS_SEMI_TRANSPARENT
      OPACITY_SEMI_TRANSPARENT cr 1 1 imd x_base y_base recolour shift mem
    = Ok mem'
    /\ (forall x y line skipped mode run i,
          0 <= y < height (ImageData32bpp.base imd) ->
          ImageData32bpp.skip_lines (Z.to_nat y) (ImageData32bpp.data imd) 0
          = Ok line ->
          column_in_run (ImageData32bpp.data imd) (line + 2) x skipped mode
            run i ->
          Z.shiftr mode 6 <> 2 ->
          in_clip cr (x_base + x) (y_base + y) ->
          run_paint OPACITY_SEMI_TRANSPARENT (ImageData32bpp.data imd)
            (GetGradientShiftFunc shift) (is_GS_SEMI_TRANSPARENT shift)
            recolour mode run i
            (mem (pixel_address cr (x_base + x) (y_base + y)))
          = Ok (mem' (pixel_address cr (x_base + x) (y_base + y))))
    /\ (forall a,
          (forall x y line skipped mode run i,
             0 <= y < height (ImageData32bpp.base imd) ->
             ImageData32bpp.skip_lines (Z.to_nat y) (ImageData32bpp.data imd) 0
             = Ok line ->
             column_in_run (ImageData32bpp.data imd) (line + 2) x skipped mode
               run i ->
             Z.shiftr mode 6 <> 2 ->
             in_clip cr (x_base + x) (y_base + y) ->
             a <> pixel_address cr (x_base + x) (y_base + y)) ->
          mem' a = mem a).
Proof.
  intros E Hx Hy Hcw Hch Hpitch Hbase Hstep mem.
  apply LoadImage_Sprite32 in E.
  destruct E as [Hbytes [_ [Hw [Hh Hlines]]]]. cbv zeta in Hbytes, Hlines.
  unfold Blit32bpp.BlitImages. rewrite Hbase.
  change (ClippedRectangle.address cr + x_base + ClippedRectangle.pitch cr * y_base)
    with (pixel_address cr x_base y_base).
  change 2 with (0 + 2) at 1.
  destruct (BlitImages_lines_exact OPACITY_SEMI_TRANSPARENT cr imd recolour
              (GetGradientShiftFunc shift) (is_GS_SEMI_TRANSPARENT shift)
              Hbytes ltac:(lia) ltac:(lia) Hcw Hch Hstep Hpitch _ _ _ Hlines
              x_base y_base mem) as [mem' [Eb [P F]]]; try lia.
  exists mem'. split; [exact Eb | ]. split.
  - intros x y line skipped mode run i Hyr Es Hcol Hkind Hc.
    specialize (P (Z.to_nat y) line x skipped mode run i ltac:(lia) Es Hcol
                  Hkind).
    rewrite Z2Nat.id in P by lia. exact (P Hc).
  - intros a Ha. apply F.
    intros k line x skipped mode run i Hk Es Hcol Hkind Hc.
    apply (Ha x (Z.of_nat k) line skipped mode run i); try assumption; try lia.
    rewrite Nat2Z.id. exact Es.
Qed.

Lemma BlitImages32_paints_pixels_witness :
  let rcd_file :=
    of_bytes "32PX" 1
      ([3; 0; 2; 0; 0; 0; 0; 0]
       ++ [13; 0; 1; 10; 20; 30; 129; 65; 128; 40; 50; 60; 0]
       ++ [0; 0; 193; 1; 200; 5; 0]) in
  let imd :=
    ImageData32bpp.mk (sized 0 3 2)
      ([13; 0; 1; 10; 20; 30; 129; 65; 128; 40; 50; 60; 0]
       ++ [0; 0; 193; 1; 200; 5; 0]) in
  let cr := ClippedRectangle.mk 4 2 4 100 in
  let recolour :=
    mkRecolouring bool (fun _ i => i) (fun _ i => MakeRGBA i i i OPAQUE) in
  let mem := fun _ : Z => 0 in
  exists mem',
    Blit32bpp.BlitImages (fun (semi : bool) c => c) (fun semi => semi) 128
      cr 1 1 imd (-1) 0 recolour false mem
    = Ok mem'
    /\ (forall x y line skipped mode run i,
          0 <= y < height (ImageData32bpp.base imd) ->
          ImageData32bpp.skip_lines (Z.to_nat y) (ImageData32bpp.data imd) 0
          = Ok line ->
          column_in_run (ImageData32bpp.data imd) (line + 2) x skipped mode
            run i ->
          Z.shiftr mode 6 <> 2 ->
          in_clip cr (-1 + x) (0 + y) ->
          run_paint 128 (ImageData32bpp.data imd) (fun c => c) false
            recolour mode run i (mem (pixel_address cr (-1 + x) (0 + y)))
          = Ok (mem' (pixel_address cr (-1 + x) (0 + y))))
    /\ (forall a,
          (forall x y line skipped mode run i,
             0 <= y < height (ImageData32bpp.base imd) ->
             ImageData32bpp.skip_lines (Z.to_nat y) (ImageData32bpp.data imd) 0
             = Ok line ->
             column_in_run (ImageData32bpp.data imd) (line + 2) x skipped mode
               run i ->
             Z.shiftr mode 6 <> 2 ->
             in_clip cr (-1 + x) (0 + y) ->
             a <> pixel_address cr (-1 + x) (0 + y)) ->
          mem' a = mem a).
Proof.
  intros rcd_file imd cr recolour mem.
  refine (BlitImages32_paints_pixels (fun (semi : bool) c => c)
            (fun semi => semi) 128 cr rcd_file (advance rcd_file 28) []
            [Sprite32 imd] imd (-1) 0 recolour false _ _ _ _ _ _ _ _ mem).
  - vm_compute. reflexivity.
  - lia.
  - lia.
  - cbn [ClippedRectangle.width cr]. lia.
  - cbn [ClippedRectangle.height cr]. lia.
  - cbn [ClippedRectangle.width ClippedRectangle.pitch cr]. lia.
  - reflexivity.
  - reflexivity.
Defined.
